(** * GrantMath Excel add-in: the answer client and the text normalizer

    A shallow embedding of [addin.js].  Two pieces of the file carry the
    behaviour that is specified:

    - [stripHtmlTags], a pipeline of regular-expression substitutions that
      turns an HTML answer into plain text for a spreadsheet cell;
    - [solveCell], the click handler that reads the selected cell, posts the
      question to the analysis service and writes the answer next to it.

    The functions that load and save the API key and enable the button
    (lines 15-86) prepare the page; they are modelled after the two, in
    [KeyPanel].

    JavaScript strings are sequences of UTF-16 code units; they are modelled
    as lists of code units.  The regular expressions of the source are kept
    as syntax and run by a backtracking matcher that follows the priority
    order of ECMAScript (greedy and lazy quantifiers, first match wins). *)

From Stdlib Require Import NArith ZArith List String Ascii Bool Lia.
From Stdlib Require Import Floats.PrimFloat Numbers.DecimalString.
From stdpp Require Import base list gmap.

Set Warnings "-register-all".
Local Open Scope N_scope.

(** ** Strings *)

Module JS.

Abbreviation jsstring := (list N) (only parsing).

(** A string literal of the source, for sources written in ASCII. *)
Definition js (s : string) : jsstring :=
  map N_of_ascii (list_ascii_of_string s).

Definition LF : N := 10.
Definition CR : N := 13.

(** LineTerminator of ECMA-262: LF, CR, LS, PS. *)
Definition isLineTerminator (c : N) : bool :=
  (c =? 10) || (c =? 13) || (c =? 0x2028) || (c =? 0x2029).

(** WhiteSpace of ECMA-262: TAB, VT, FF, ZWNBSP and the Unicode category Zs. *)
Definition isWhiteSpace (c : N) : bool :=
  (c =? 9) || (c =? 11) || (c =? 12) || (c =? 32) || (c =? 160) ||
  (c =? 0x1680) || ((0x2000 <=? c) && (c <=? 0x200A)) ||
  (c =? 0x202F) || (c =? 0x205F) || (c =? 0x3000) || (c =? 0xFEFF).

(** What [String.prototype.trim] strips and what [\s] matches. *)
Definition isSpace (c : N) : bool := isWhiteSpace c || isLineTerminator c.

Definition toUpper (c : N) : N := if (97 <=? c) && (c <=? 122) then c - 32 else c.
Definition toLower (c : N) : N := if (65 <=? c) && (c <=? 90) then c + 32 else c.

(** [String.prototype.trim]. *)
Fixpoint trimStart (s : jsstring) : jsstring :=
  match s with
  | c :: s' => if isSpace c then trimStart s' else s
  | [] => []
  end.

Definition trimEnd (s : jsstring) : jsstring := rev (trimStart (rev s)).

Definition trim (s : jsstring) : jsstring := trimEnd (trimStart s).

(** [s.split("\n")]: the pieces between line feeds; the empty string splits
    into one empty piece. *)
Fixpoint split_lines (s : jsstring) : list jsstring :=
  match s with
  | [] => [[]]
  | c :: s' =>
      if c =? LF then [] :: split_lines s'
      else match split_lines s' with
           | l :: ls => (c :: l) :: ls
           | [] => [[c]]
           end
  end.

(** [lines.join("\n")]. *)
Fixpoint join_lines (ls : list jsstring) : jsstring :=
  match ls with
  | [] => []
  | [l] => l
  | l :: ls' => l ++ LF :: join_lines ls'
  end.

(** ["=".repeat(40)] and the like. *)
Definition repeat_char (c : N) (n : nat) : jsstring := repeat c n.

(** [s.startsWith(p)], used to state where a marker sits. *)
Fixpoint starts_with (p s : jsstring) : bool :=
  match p, s with
  | [], _ => true
  | a :: p', b :: s' => (a =? b) && starts_with p' s'
  | _ :: _, [] => false
  end.

End JS.
Import JS.

(** ** Regular expressions

    The patterns of the source use literal characters, the classes [[^>]],
    [[1-6]], [.] and [\s], the quantifiers [*], [*?], [+] and [?] applied to
    a single character or class, and at most one capture group, which is
    never quantified.  A pattern is therefore a sequence of nodes, with the
    parentheses of the group as two marks in the sequence. *)

Module Regex.

Inductive atom :=
| Chr (c : N)            (* a literal character *)
| Range (lo hi : N)      (* [lo-hi] *)
| NotChr (c : N)         (* [^c] *)
| Dot                    (* . , no s flag: anything but a line terminator *)
| Space.                 (* \s *)

Inductive quant :=
| Star                   (* *  *)
| LazyStar               (* *? *)
| Plus                   (* +  *)
| Opt.                   (* ?  *)

Inductive node :=
| One (a : atom)
| Rep (q : quant) (a : atom)
| GroupOpen              (* ( of capture group 1 *)
| GroupClose.            (* ) of capture group 1 *)

Record regex := RegExp {
  re_nodes : list node;
  re_ignoreCase : bool   (* the i flag; every pattern of the source has g *)
}.

(** Canonicalize of ECMA-262 (no u flag) upper-cases a code unit, and never
    maps a code unit above 127 to one below 128; against the ASCII patterns
    of the source only the folding of ASCII letters can be observed. *)
Definition canonicalize (ic : bool) (c : N) : N := if ic then toUpper c else c.

Definition in_range (lo hi c : N) : bool := (lo <=? c) && (c <=? hi).

Definition accepts (ic : bool) (a : atom) (c : N) : bool :=
  match a with
  | Chr c0 => canonicalize ic c =? canonicalize ic c0
  | Range lo hi =>
      in_range lo hi c ||
      (ic && (in_range lo hi (toUpper c) || in_range lo hi (toLower c)))
  | NotChr c0 => negb (canonicalize ic c =? canonicalize ic c0)
  | Dot => negb (isLineTerminator c)
  | Space => isSpace c
  end.

(** The input left at the two marks of capture group 1. *)
Record slots := Slots { at_open : jsstring; at_close : jsstring }.

Definition no_slots : slots := Slots [] [].

(** The text of capture group 1: what lies between the two marks. *)
Definition group1 (g : slots) : jsstring :=
  take (length (at_open g) - length (at_close g)) (at_open g).

Definition result := option (jsstring * slots).

Section Quantifiers.
Variable acc : N -> bool.
Variable k : jsstring -> result.

(** [a*]: take as many as possible, give back one at a time. *)
Fixpoint greedy (s : jsstring) : result :=
  match s with
  | c :: s' =>
      if acc c then
        match greedy s' with
        | Some r => Some r
        | None => k s
        end
      else k s
  | [] => k s
  end.

(** [a*?]: take as few as possible, one more on failure. *)
Fixpoint lazy (s : jsstring) : result :=
  match k s with
  | Some r => Some r
  | None =>
      match s with
      | c :: s' => if acc c then lazy s' else None
      | [] => None
      end
  end.

(** [a+] *)
Definition plus (s : jsstring) : result :=
  match s with
  | c :: s' => if acc c then greedy s' else None
  | [] => None
  end.

(** [a?] *)
Definition opt (s : jsstring) : result :=
  match s with
  | c :: s' =>
      if acc c then
        match k s' with
        | Some r => Some r
        | None => k s
        end
      else k s
  | [] => k s
  end.
End Quantifiers.

(** Match the pattern at the start of [s]; the result is the input left
    after the match and the marks of the group. *)
Fixpoint exec (ic : bool) (p : list node) (s : jsstring) (g : slots) {struct p}
  : result :=
  match p with
  | [] => Some (s, g)
  | One a :: p' =>
      match s with
      | c :: s' => if accepts ic a c then exec ic p' s' g else None
      | [] => None
      end
  | Rep Star a :: p' => greedy (accepts ic a) (fun s' => exec ic p' s' g) s
  | Rep LazyStar a :: p' => lazy (accepts ic a) (fun s' => exec ic p' s' g) s
  | Rep Plus a :: p' => plus (accepts ic a) (fun s' => exec ic p' s' g) s
  | Rep Opt a :: p' => opt (accepts ic a) (fun s' => exec ic p' s' g) s
  | GroupOpen :: p' => exec ic p' s (Slots s (at_close g))
  | GroupClose :: p' => exec ic p' s (Slots (at_open g) s)
  end.

(** A replacement string: literal text and [$1]. *)
Inductive piece :=
| Text (t : jsstring)
| Group1.

Definition expand (tpl : list piece) (g : slots) : jsstring :=
  concat (map (fun x => match x with Text t => t | Group1 => group1 g end) tpl).

(** [s.replace(re, tpl)] for a global pattern: scan from the left, replace
    each match, go on after it.  [skip] counts the characters of the last
    match that are still to be passed over.  An empty match is followed by
    one copied character, as [lastIndex] is advanced by one. *)
Fixpoint replaceFrom (ic : bool) (p : list node) (tpl : list piece)
    (skip : nat) (s : jsstring) {struct s} : jsstring :=
  match skip with
  | S n =>
      match s with
      | _ :: s' => replaceFrom ic p tpl n s'
      | [] => []
      end
  | O =>
      match exec ic p s no_slots with
      | Some (rest, g) =>
          expand tpl g ++
          match s with
          | [] => []
          | c :: s' =>
              match (length s - length rest)%nat with
              | O => c :: replaceFrom ic p tpl 0 s'
              | S n => replaceFrom ic p tpl n s'
              end
          end
      | None =>
          match s with
          | [] => []
          | c :: s' => c :: replaceFrom ic p tpl 0 s'
          end
      end
  end.

Definition replace (re : regex) (tpl : list piece) (s : jsstring) : jsstring :=
  replaceFrom (re_ignoreCase re) (re_nodes re) tpl 0 s.

(** [re.test(s)] for a pattern without the sticky flag: a match somewhere. *)
Fixpoint test_nodes (ic : bool) (p : list node) (s : jsstring) : bool :=
  match exec ic p s no_slots with
  | Some _ => true
  | None =>
      match s with
      | [] => false
      | _ :: s' => test_nodes ic p s'
      end
  end.

Definition test (re : regex) (s : jsstring) : bool :=
  test_nodes (re_ignoreCase re) (re_nodes re) s.

(** The literal characters of a pattern. *)
Definition lit (s : string) : list node := map (fun c => One (Chr c)) (js s).

End Regex.
Import Regex.

(** ** The text normalizer: [stripHtmlTags] *)

Module Normalizer.

(** [/<script[^>]*>.*?<\/script>/gi] *)
Definition re_script : regex :=
  RegExp (lit "<script" ++ [Rep Star (NotChr 62); One (Chr 62); Rep LazyStar Dot]
          ++ lit "</script>") true.

(** [/<style[^>]*>.*?<\/style>/gi] *)
Definition re_style : regex :=
  RegExp (lit "<style" ++ [Rep Star (NotChr 62); One (Chr 62); Rep LazyStar Dot]
          ++ lit "</style>") true.

(** [/<h[1-6][^>]*>(.*?)<\/h[1-6]>/gi] *)
Definition re_heading : regex :=
  RegExp (lit "<h" ++ [One (Range 49 54); Rep Star (NotChr 62); One (Chr 62);
                       GroupOpen; Rep LazyStar Dot; GroupClose]
          ++ lit "</h" ++ [One (Range 49 54); One (Chr 62)]) true.

(** [/<\/?p[^>]*>/gi] *)
Definition re_p : regex :=
  RegExp ([One (Chr 60); Rep Opt (Chr 47)] ++ lit "p"
          ++ [Rep Star (NotChr 62); One (Chr 62)]) true.

(** [/<\/?div[^>]*>/gi] *)
Definition re_div : regex :=
  RegExp ([One (Chr 60); Rep Opt (Chr 47)] ++ lit "div"
          ++ [Rep Star (NotChr 62); One (Chr 62)]) true.

(** [/<br\s*\/?>/gi] *)
Definition re_br : regex :=
  RegExp (lit "<br" ++ [Rep Star Space; Rep Opt (Chr 47); One (Chr 62)]) true.

(** [/<strong[^>]*>(.*?)<\/strong>/gi] *)
Definition re_strong : regex :=
  RegExp (lit "<strong" ++ [Rep Star (NotChr 62); One (Chr 62);
                            GroupOpen; Rep LazyStar Dot; GroupClose]
          ++ lit "</strong>") true.

(** [/<b[^>]*>(.*?)<\/b>/gi] *)
Definition re_b : regex :=
  RegExp (lit "<b" ++ [Rep Star (NotChr 62); One (Chr 62);
                       GroupOpen; Rep LazyStar Dot; GroupClose]
          ++ lit "</b>") true.

(** [/<[^>]+>/g] *)
Definition re_tag : regex :=
  RegExp [One (Chr 60); Rep Plus (NotChr 62); One (Chr 62)] false.

(** [/ +/g] *)
Definition re_spaces : regex := RegExp [Rep Plus (Chr 32)] false.

(** [/\n\n+/g] *)
Definition re_newlines : regex := RegExp [One (Chr LF); Rep Plus (Chr LF)] false.

(** The marker that the last substitution looks for. *)
Definition disclaimer : jsstring := js "**Disclaimer:**".

(** Line 225: the marker, escaped star by star, as capture group 1, with
    the g flag. *)
Definition re_disclaimer : regex :=
  RegExp ([GroupOpen] ++ lit "**Disclaimer:**" ++ [GroupClose]) false.

(** ["=".repeat(40)] *)
Definition separator : jsstring := repeat_char 61 40.

(** ["\n$1\n" + "=".repeat(40) + "\n"] *)
Definition heading_template : list piece :=
  [Text [LF]; Group1; Text [LF]; Text separator; Text [LF]].

(** ["**$1**"] *)
Definition bold_template : list piece := [Text (js "**"); Group1; Text (js "**")].

(** Lines 194-195: script and style blocks. *)
Definition removeScripts (html : jsstring) : jsstring := replace re_script [] html.
Definition removeStyles (text : jsstring) : jsstring := replace re_style [] text.

(** Line 198: headings. *)
Definition convertHeadings (text : jsstring) : jsstring :=
  replace re_heading heading_template text.

(** Lines 201-205: paragraphs, divs and line breaks. *)
Definition convertParagraphs (text : jsstring) : jsstring := replace re_p [Text [LF]] text.
Definition convertDivs (text : jsstring) : jsstring := replace re_div [Text [LF]] text.
Definition convertBreaks (text : jsstring) : jsstring := replace re_br [Text [LF]] text.

(** Lines 208-209: strong and b. *)
Definition convertStrong (text : jsstring) : jsstring := replace re_strong bold_template text.
Definition convertB (text : jsstring) : jsstring := replace re_b bold_template text.

(** Line 212: every remaining tag. *)
Definition removeTags (text : jsstring) : jsstring := replace re_tag [] text.

(** Lines 194-212 in their order. *)
Definition convertMarkup (html : jsstring) : jsstring :=
  removeTags (convertB (convertStrong (convertBreaks (convertDivs
    (convertParagraphs (convertHeadings (removeStyles (removeScripts html)))))))).

(** Line 220. *)
Definition collapseSpaces (text : jsstring) : jsstring := replace re_spaces [Text [32]] text.

(** Line 221. *)
Definition collapseNewlines (text : jsstring) : jsstring := replace re_newlines [Text [LF]] text.

(** Line 222: [split("\n").map(trim).filter(nonempty).join("\n")]. *)
Definition nonempty (line : jsstring) : bool := negb (Nat.eqb (length line) 0).

Definition trimLines (text : jsstring) : jsstring :=
  join_lines (List.filter nonempty (map trim (split_lines text))).

(** Line 225. *)
Definition separateDisclaimer (text : jsstring) : jsstring :=
  replace re_disclaimer [Text [LF]; Group1] text.

(** Lines 220-227. *)
Definition cleanWhitespace (text : jsstring) : jsstring :=
  trim (separateDisclaimer (trimLines (collapseNewlines (collapseSpaces text)))).

Section Pipeline.

(** Lines 215-217 hand the text to the browser: it is assigned to the
    [innerHTML] of a fresh [textarea] and read back as its [value], which
    decodes the character references.  The browser's decoder is not part of
    the add-in; the pipeline takes it as a parameter. *)
Variable decodeEntities : jsstring -> jsstring.

(** [function stripHtmlTags(html)], for a string argument. *)
Definition stripHtmlTags (html : jsstring) : jsstring :=
  match html with
  | [] => []                                   (* if (!html) return "" *)
  | _ => cleanWhitespace (decodeEntities (convertMarkup html))
  end.

End Pipeline.

End Normalizer.
Import Normalizer.

(** ** Vocabulary of the statements about the normalizer *)

Module NormalizerSpec.

(** The text starts, or ends, with a character that [trim] strips. *)
Definition leading_space (s : jsstring) : bool :=
  match s with
  | c :: _ => isSpace c
  | [] => false
  end.

Definition trailing_space (s : jsstring) : bool := leading_space (rev s).

(** The text starts with U+0020. *)
Definition starts32 (s : jsstring) : bool :=
  match s with
  | c :: _ => c =? 32
  | [] => false
  end.

(** Two U+0020 in a row somewhere in the text. *)
Fixpoint double_space (s : jsstring) : bool :=
  match s with
  | c :: s' => ((c =? 32) && starts32 s') || double_space s'
  | [] => false
  end.

(** A line that is empty or holds white space only. *)
Definition blank_line (l : jsstring) : bool := forallb isSpace l.

(** The lines of a text; the empty text has none. *)
Definition text_lines (s : jsstring) : list jsstring :=
  match s with
  | [] => []
  | _ => split_lines s
  end.

(** The text starts with a character that is not white space. *)
Definition solid (s : jsstring) : bool :=
  match s with
  | c :: _ => negb (isSpace c)
  | [] => false
  end.

(** Every line feed is followed by a character that is not white space. *)
Fixpoint lf_tight (s : jsstring) : bool :=
  match s with
  | c :: s' => (negb (c =? LF) || solid s') && lf_tight s'
  | [] => true
  end.

(** Every line feed is followed by a character that is not white space, or
    by a second line feed and the marker. *)
Fixpoint lf_marked (s : jsstring) : bool :=
  match s with
  | c :: s' =>
      (negb (c =? LF) || solid s' || starts_with (LF :: disclaimer) s') && lf_marked s'
  | [] => true
  end.

(** No line feed in the text. *)
Definition no_lf (l : jsstring) : bool := forallb (fun c => negb (c =? LF)) l.

(** Text that the browser's decoder has nothing to do on: no ampersand, no
    carriage return, no NUL. *)
Definition plain_text (s : jsstring) : bool :=
  forallb (fun c => negb ((c =? 38) || (c =? 13) || (c =? 0))) s.

(** What is assumed of the decoder where a statement needs it. *)
Definition decodes_plain (decode : jsstring -> jsstring) : Prop :=
  forall s, plain_text s = true -> decode s = s.

(** What a run of single-character nodes leaves of the input. *)
Fixpoint eat (ic : bool) (atoms : list atom) (s : jsstring) : option jsstring :=
  match atoms, s with
  | [], _ => Some s
  | a :: atoms', c :: s' => if accepts ic a c then eat ic atoms' s' else None
  | _ :: _, [] => None
  end.

(** The input behind the longest run of characters that [acc] takes. *)
Fixpoint skip (acc : N -> bool) (s : jsstring) : jsstring :=
  match s with
  | c :: s' => if acc c then skip acc s' else s
  | [] => []
  end.

(** The shape shared by the patterns for headings, [strong] and [b]: the
    characters of the opening tag, [[^>]*>], the captured [.*?], the
    characters of the closing tag. *)
Definition element_pattern (opening closing : list atom) : list node :=
  map One opening
  ++ [Rep Star (NotChr 62); One (Chr 62); GroupOpen; Rep LazyStar Dot; GroupClose]
  ++ map One closing.

(** The single characters of the three patterns. *)
Definition heading_open : list atom := [Chr 60; Chr 104; Range 49 54].
Definition heading_close : list atom := [Chr 60; Chr 47; Chr 104; Range 49 54; Chr 62].
Definition strong_open : list atom := map Chr (js "<strong").
Definition strong_close : list atom := map Chr (js "</strong>").
Definition b_open : list atom := map Chr (js "<b").
Definition b_close : list atom := map Chr (js "</b>").

(** The text holds a match of a run of single-character nodes, letters in
    either case. *)
Definition contains (atoms : list atom) (s : jsstring) : bool :=
  test_nodes true (map One atoms) s.

(** No character of the text is [c]. *)
Definition free_of (c : N) (s : jsstring) : bool := forallb (fun x => negb (x =? c)) s.

(** No line terminator in the text. *)
Definition one_line (s : jsstring) : bool := forallb (fun x => negb (isLineTerminator x)) s.

(** A line as line 222 leaves it: not empty, no white space at either end,
    no line feed inside. *)
Definition trimmed_line (l : jsstring) : Prop :=
  nonempty l = true /\ leading_space l = false /\ trailing_space l = false /\
  no_lf l = true.

(** Somewhere in the text a line is broken in front of the marker: a
    character other than a line feed, a line feed, the marker. *)
Fixpoint broken_before_marker (s : jsstring) : bool :=
  match s with
  | c :: s' => (negb (c =? LF) && starts_with (LF :: disclaimer) s') || broken_before_marker s'
  | [] => false
  end.

(** What line 225 does to a line that holds the marker at its start only,
    or not at all. *)
Definition set_off (l : jsstring) : jsstring :=
  if starts_with disclaimer l then LF :: l else l.

(** A pattern whose every match takes at least one character. *)
Definition productive (ic : bool) (p : list node) : Prop :=
  forall s g rest g', exec ic p s g = Some (rest, g') ->
    exists c pre, s = c :: pre ++ rest.

End NormalizerSpec.
Import NormalizerSpec.

(** ** The answer client: [solveCell] *)

Module Client.

(** *** Values *)

(** A JavaScript number is an IEEE 754 double. *)
Abbreviation number := PrimFloat.float (only parsing).

(** ToBoolean of a number: false for [+0], [-0] and [NaN]. *)
Definition number_truthy (x : number) : bool :=
  negb (PrimFloat.eqb x 0%float || PrimFloat.is_nan x).

(** What [JSON.parse] returns. *)
Inductive json :=
| JNull
| JBool (b : bool)
| JNum (x : number)
| JStr (s : jsstring)
| JArr (items : list json)
| JObj (fields : list (jsstring * json)).

(** A value read from a property: [None] is [undefined]. *)
Abbreviation value := (option json) (only parsing).

(** ToBoolean. *)
Definition truthy (v : value) : bool :=
  match v with
  | None => false
  | Some JNull => false
  | Some (JBool b) => b
  | Some (JNum x) => number_truthy x
  | Some (JStr s) => nonempty s
  | Some (JArr _) => true
  | Some (JObj _) => true
  end.

(** [a || b] *)
Definition or_else (a b : value) : value := if truthy a then a else b.

(** The own property [name] of a parsed object. *)
Fixpoint field (name : jsstring) (fields : list (jsstring * json)) : value :=
  match fields with
  | [] => None
  | (k, v) :: rest => if bool_decide (k = name) then Some v else field name rest
  end.

(** The value of a cell as [range.values] gives it: text, a number or a
    boolean; an empty cell holds the empty string. *)
Inductive cell_value :=
| CStr (s : jsstring)
| CNum (x : number)
| CBool (b : bool).

Definition cell_truthy (v : cell_value) : bool :=
  match v with
  | CStr s => nonempty s
  | CNum x => number_truthy x
  | CBool b => b
  end.

(** A thrown value, as far as the handler looks at it: its [message]
    (empty when the value has none). *)
Record js_error := Error { message : jsstring }.

(** *** The page and the host *)

(** The two elements of the task pane that [solveCell] touches. *)
Record page := Page {
  status_textContent : jsstring;
  status_className : jsstring;
  status_display : jsstring;
  solve_btn_disabled : bool
}.

Record request := Request {
  req_method : jsstring;
  req_headers : gmap (list N) (list N);
  req_body : jsstring
}.

(** What a timer does when it fires. *)
Inductive timer_callback :=
| EnableAndHide.            (* lines 173-176 *)

(** Calls that leave the add-in, in the order they are made. *)
Inductive call :=
| Excel_getSelectedRange
| Range_load (props : jsstring)
| Context_sync
| Fetch (url : jsstring) (init : request)
| Response_json
| Range_getOffsetRange (rowOffset columnOffset : Z)
| Set_values (v : jsstring)                  (* outputCell.values = [[v]] *)
| Set_font_color (c : jsstring)
| Set_wrapText (b : bool)
| Set_verticalAlignment (a : jsstring)
| Console_error (label : jsstring) (e : js_error)
| SetTimeout (cb : timer_callback) (ms : Z).

Record state := State { dom : page; calls : list call }.

(** An HTTP response: [ok] is derived from the status as the Fetch standard
    says; [json_body] is what [response.json()] settles to. *)
Record response := Response {
  status : N;
  statusText : jsstring;
  json_body : js_error + json
}.

Definition ok (r : response) : bool := (200 <=? status r) && (status r <=? 299).

(** Where a TypeError of the engine comes from. *)
Inductive type_error_site :=
| ReadOfNull (property : jsstring)
| NotAFunction (method : jsstring).

(** Everything outside the add-in that one click depends on: what the host
    and the service answer, and three built-ins that the handler calls -- the
    browser's decoding of character references (see [stripHtmlTags]),
    Number::toString and [JSON.stringify]. *)
Record world := World {
  location_hostname : jsstring;
  localStorage : gmap (list N) (list N);
  selected_value : cell_value;               (* range.values[0][0] *)
  first_sync : option js_error;              (* line 99: rejects with *)
  fetch_outcome : js_error + response;       (* line 124 *)
  last_sync : option js_error;               (* line 167 *)
  type_error : type_error_site -> js_error;
  decodeEntities : jsstring -> jsstring;
  numberToString : number -> jsstring;
  JSON_stringify : json -> jsstring
}.

(** *** Computations: state, and exceptions *)

Inductive outcome (A : Type) :=
| Returned (a : A)
| Threw (e : js_error).
Arguments Returned {A} a.
Arguments Threw {A} e.

Definition M (A : Type) : Type := state -> outcome A * state.

Definition ret {A} (a : A) : M A := fun st => (Returned a, st).

Definition bind {A B} (m : M A) (f : A -> M B) : M B :=
  fun st =>
    match m st with
    | (Returned a, st') => f a st'
    | (Threw e, st') => (Threw e, st')
    end.

Declare Scope M_scope.
Delimit Scope M_scope with M.
Bind Scope M_scope with M.
Notation "x ← y ; z" := (bind y (fun x => z))
  (at level 20, y at level 100, z at level 200, only parsing) : M_scope.
Notation "x ;; z" := (bind x (fun _ => z))
  (at level 100, z at level 200, only parsing, right associativity) : M_scope.
Local Open Scope M_scope.

Definition throw {A} (e : js_error) : M A := fun st => (Threw e, st).

(** [try { body } catch (error) { handler }] *)
Definition try_catch {A} (body : M A) (handler : js_error -> M A) : M A :=
  fun st =>
    match body st with
    | (Returned a, st') => (Returned a, st')
    | (Threw e, st') => handler e st'
    end.

Definition host (c : call) : M unit :=
  fun st => (Returned tt, State (dom st) (calls st ++ [c])).

Definition update_page (f : page -> page) : M unit :=
  fun st => (Returned tt, State (f (dom st)) (calls st)).

(** [await p] for a promise that the world settles. *)
Definition await {A} (p : js_error + A) : M A :=
  match p with
  | inl e => throw e
  | inr a => ret a
  end.

(** [function showStatus(message, type)] *)
Definition showStatus (msg type : jsstring) : M unit :=
  update_page (fun p =>
    Page msg (js "status " ++ type) (js "block") (solve_btn_disabled p)).

(** [function hideStatus()] *)
Definition hideStatus : M unit :=
  update_page (fun p =>
    Page (status_textContent p) (status_className p) (js "none") (solve_btn_disabled p)).

(** [document.getElementById("solve-btn").disabled = b] *)
Definition set_solve_disabled (b : bool) : M unit :=
  update_page (fun p =>
    Page (status_textContent p) (status_className p) (status_display p) b).

Definition run_timer (cb : timer_callback) : M unit :=
  match cb with
  | EnableAndHide => set_solve_disabled false ;; hideStatus
  end.

(** [await context.sync()] *)
Definition context_sync (rejects : option js_error) : M unit :=
  host Context_sync ;;
  match rejects with
  | Some e => throw e
  | None => ret tt
  end.

Definition GRANTMATH_API_URL : jsstring := js "https://api.grantmath.com/nlp-analysis".
Definition LOCAL_DEV_URL : jsstring := js "http://localhost:8000/nlp-analysis".

(** Line 12. *)
Definition API_URL (w : world) : jsstring :=
  if bool_decide (location_hostname w = js "localhost")
  then LOCAL_DEV_URL else GRANTMATH_API_URL.

(** The decimal digits of a status code, as a template literal prints it. *)
Definition decimal (n : N) : jsstring := js (NilZero.string_of_uint (N.to_uint n)).

Section Handler.

Variable w : world.

(** ToString of a parsed value. *)
Fixpoint toString (v : json) : jsstring :=
  match v with
  | JNull => js "null"
  | JBool true => js "true"
  | JBool false => js "false"
  | JNum x => numberToString w x
  | JStr s => s
  | JArr items =>
      (fix join (l : list json) : jsstring :=
         match l with
         | [] => []
         | [x] => match x with JNull => [] | _ => toString x end
         | x :: l' => match x with JNull => [] | _ => toString x end ++ 44 :: join l'
         end) items
  | JObj _ => js "[object Object]"
  end.

(** [question.toString()] *)
Definition cell_toString (v : cell_value) : jsstring :=
  match v with
  | CStr s => s
  | CNum x => numberToString w x
  | CBool true => js "true"
  | CBool false => js "false"
  end.

(** [v.name] where it does not throw: the own property of an object; a
    primitive or an array has none of the properties read here. *)
Definition prop (v : json) (name : jsstring) : value :=
  match v with
  | JObj fields => field name fields
  | _ => None
  end.

(** [v.name]: reading a property of [null] throws. *)
Definition get (v : json) (name : jsstring) : M value :=
  match v with
  | JNull => throw (type_error w (ReadOfNull name))
  | _ => ret (prop v name)
  end.

(** [new Error(v)], for a [v] that is not [undefined]. *)
Definition new_Error (v : value) : js_error :=
  match v with
  | Some j => Error (toString j)
  | None => Error []
  end.

(** The text assigned to [textContent]. *)
Definition text_of (v : value) : jsstring :=
  match v with
  | Some j => toString j
  | None => []
  end.

(** [stripHtmlTags(v)] for the value of line 156: only a string has
    [replace]. *)
Definition stripHtmlTags_of (v : value) : M jsstring :=
  match v with
  | Some (JStr s) => ret (stripHtmlTags (decodeEntities w) s)
  | _ => if truthy v then throw (type_error w (NotAFunction (js "replace")))
         else ret []
  end.

(** Line 92: [localStorage.getItem("grantmath_api_key") || ""]. *)
Definition stored_key : jsstring :=
  match localStorage w !! js "grantmath_api_key" with
  | Some k => k
  | None => []
  end.

(** Lines 113-121. *)
Definition build_headers (apiKey : jsstring) : gmap (list N) (list N) :=
  let headers := {[ js "Content-Type" := js "application/json" ]} in
  if nonempty apiKey
  then <[ js "Authorization" := js "Bearer " ++ apiKey ]> headers
  else headers.

(** Lines 132-143. *)
Definition check_status (r : response) : M unit :=
  if negb (ok r) then
    if status r =? 401 then
      throw (Error (js "Invalid API key. Please check your API key."))
    else if status r =? 429 then
      throw (Error (js "Rate limit exceeded. Please wait or upgrade to Pro tier."))
    else if status r =? 400 then
      host Response_json ;;
      errorData ← await (json_body r) ;
      e ← get errorData (js "error") ;
      throw (new_Error (or_else e (Some (JStr (js "Invalid question format")))))
    else
      throw (Error (js "API error: " ++ decimal (status r) ++ 32 :: statusText r))
  else ret tt.

(** Line 156: [result.analysis || result.formatted_answer || "No answer returned"]. *)
Definition raw_answer (result : json) : M value :=
  a ← get result (js "analysis") ;
  if truthy a then ret a else
  f ← get result (js "formatted_answer") ;
  ret (or_else f (Some (JStr (js "No answer returned")))).

(** Lines 158-176: write the answer and report. *)
Definition write_answer (answer : jsstring) : M unit :=
  host (Range_getOffsetRange 0 1) ;;
  host (Set_values answer) ;;
  host (Set_font_color (js "#166534")) ;;
  host (Set_wrapText true) ;;
  host (Set_verticalAlignment (js "Top")) ;;
  context_sync (last_sync w) ;;
  showStatus (js "Solution computed successfully!") (js "success") ;;
  host (SetTimeout EnableAndHide 3000).

(** Lines 132-176: what is done with the response. *)
Definition handle_response (r : response) : M unit :=
  check_status r ;;
  host Response_json ;;
  result ← await (json_body r) ;
  success ← get result (js "success") ;
  if negb (truthy success) then
    e ← get result (js "error") ;
    showStatus (text_of (or_else e (Some (JStr (js "Unknown error occurred")))))
               (js "error") ;;
    set_solve_disabled false
  else
    raw ← raw_answer result ;
    answer ← stripHtmlTags_of raw ;
    write_answer answer.

(** Line 104: [!question || question.toString().trim() === ""]. *)
Definition blank (question : cell_value) : bool :=
  negb (cell_truthy question) || negb (nonempty (trim (cell_toString question))).

(** Lines 113-130: the request. *)
Definition request_for (apiKey : jsstring) (question : cell_value) : request :=
  Request (js "POST") (build_headers apiKey)
    (JSON_stringify w (JObj [(js "question", JStr (cell_toString question))])).

(** The function passed to [Excel.run], lines 95-177. *)
Definition batch (apiKey : jsstring) : M unit :=
  host Excel_getSelectedRange ;;
  host (Range_load (js "values, address")) ;;
  context_sync (first_sync w) ;;
  let question := selected_value w in
  if blank question
  then showStatus (js "Selected cell is empty. Please select a cell with a question.")
                  (js "error")
  else
    showStatus (js "Computing solution...") (js "loading") ;;
    set_solve_disabled true ;;
    host (Fetch (API_URL w) (request_for apiKey question)) ;;
    response ← await (fetch_outcome w) ;
    handle_response response.

(** Lines 179-184: the [catch] block. *)
Definition report (error : js_error) : M unit :=
  host (Console_error (js "Error solving question:") error) ;;
  let errorMessage :=
    if nonempty (message error) then message error
    else js "Failed to compute solution. Please contact support@solonai.com" in
  showStatus errorMessage (js "error") ;;
  set_solve_disabled false.

(** [async function solveCell()], lines 91-185.  [Excel.run] runs the batch
    with a request context and passes on what it throws; the synchronization
    that it adds after a batch that returned has nothing of the handler left
    to send, and is not part of the log. *)
Definition solveCell : M unit :=
  let apiKey := stored_key in
  try_catch (batch apiKey) report.

End Handler.

(** What a list of calls sends to the network and to the sheet. *)
Definition is_fetch (c : call) : bool :=
  match c with Fetch _ _ => true | _ => false end.

Definition is_write (c : call) : bool :=
  match c with
  | Set_values _ | Set_font_color _ | Set_wrapText _ | Set_verticalAlignment _ => true
  | _ => false
  end.

Definition fetches (l : list call) : list call := List.filter is_fetch l.
Definition writes (l : list call) : list call := List.filter is_write l.

End Client.
Import Client.

(** ** Vocabulary of the statements *)

Module ClientSpec.

(** The state in which a click finds the page; the log starts empty. *)
Definition begin (p : page) : state := State p [].

(** The calls up to the first [context.sync()], lines 97-99. *)
Definition opening : list call :=
  [Excel_getSelectedRange; Range_load (js "values, address"); Context_sync].

(** The calls up to and including [fetch], lines 97-130. *)
Definition posted (w : world) : list call :=
  opening ++ [Fetch (API_URL w) (request_for w (stored_key w) (selected_value w))].

(** The page while the request is under way, lines 110-111. *)
Definition loading_page : page :=
  Page (js "Computing solution...") (js "status loading") (js "block") true.

(** The page after [showStatus(msg, "error")] with the button as [b]. *)
Definition error_page (msg : jsstring) (b : bool) : page :=
  Page msg (js "status error") (js "block") b.

(** The message that the [catch] block shows for a thrown value. *)
Definition shown_message (e : js_error) : jsstring :=
  if nonempty (message e) then message e
  else js "Failed to compute solution. Please contact support@solonai.com".

(** The state in which the [catch] block leaves the page. *)
Definition reported (e : js_error) (l : list call) : state :=
  State (error_page (shown_message e) false)
        (l ++ [Console_error (js "Error solving question:") e]).

(** The state after one click. *)
Definition after_click (w : world) (p : page) : state := snd (solveCell w (begin p)).

(** Line 156 without the monad: the first truthy one of [analysis],
    [formatted_answer] and the fallback text. *)
Definition answer_of (w : world) (result : json) : value :=
  or_else (prop result (js "analysis"))
    (or_else (prop result (js "formatted_answer"))
       (Some (JStr (js "No answer returned")))).

(** The four assignments of lines 160-165 for an answer. *)
Definition cell_writes (answer : jsstring) : list call :=
  [Set_values answer; Set_font_color (js "#166534"); Set_wrapText true;
   Set_verticalAlignment (js "Top")].

(** What one click assigns to the output cell, read off the world. *)
Definition written (w : world) : list call :=
  match first_sync w with
  | Some _ => []
  | None =>
      if blank w (selected_value w) then [] else
      match fetch_outcome w with
      | inl _ => []
      | inr r =>
          if ok r then
            match json_body r with
            | inl _ => []
            | inr result =>
                if truthy (prop result (js "success")) then
                  match answer_of w result with
                  | Some (JStr s) => cell_writes (stripHtmlTags (decodeEntities w) s)
                  | _ => []
                  end
                else []
            end
          else []
      end
  end.

(** The failure paths: an empty selected cell, a transport error, a status
    outside 200-299, a 2xx body whose [success] is not truthy. *)
Definition failure_path (w : world) : Prop :=
  blank w (selected_value w) = true
  \/ (exists e, fetch_outcome w = inl e)
  \/ (exists r, fetch_outcome w = inr r /\ ok r = false)
  \/ (exists r result, fetch_outcome w = inr r /\ ok r = true /\
        json_body r = inr result /\ truthy (prop result (js "success")) = false).

(** The success path: the cell was read and holds a question, the service
    answered 2xx with a body whose [success] is truthy. *)
Definition success_path (w : world) : Prop :=
  first_sync w = None /\ blank w (selected_value w) = false /\
  exists r result, fetch_outcome w = inr r /\ ok r = true /\
    json_body r = inr result /\ truthy (prop result (js "success")) = true.

(** The calls of a click that reaches the response: the log of
    [handle_response] followed by what the [catch] block adds. *)
Definition settle (res : outcome unit * state) : state :=
  match res with
  | (Returned _, st') => st'
  | (Threw e, st') => reported e (calls st')
  end.

(** The answer as the specification words it: [analysis] when the field is
    present, else [formatted_answer] when that is present, else the
    fallback text. *)
Definition spec_answer (result : json) : json :=
  match prop result (js "analysis") with
  | Some a => a
  | None =>
      match prop result (js "formatted_answer") with
      | Some f => f
      | None => JStr (js "No answer returned")
      end
  end.

(** The page after a successful click, lines 170-176 (the button is
    enabled again when the timer fires). *)
Definition success_page : page :=
  Page (js "Solution computed successfully!") (js "status success") (js "block") true.

(** The whole log of a successful click. *)
Definition success_calls (w : world) (answer : jsstring) : list call :=
  posted w ++ [Response_json; Range_getOffsetRange 0 1] ++ cell_writes answer
  ++ [Context_sync; SetTimeout EnableAndHide 3000].

End ClientSpec.
Import ClientSpec.


(** ** Sample surroundings

    Stand-ins for the built-ins of the browser, to run the handler and the
    normalizer on concrete inputs. *)

Module Samples.

(** Seven of the named character references of HTML, each with its
    semicolon; the browser's table has more than two thousand. *)
Definition references : list (jsstring * N) :=
  [(js "amp;", 38); (js "lt;", 60); (js "gt;", 62); (js "quot;", 34);
   (js "apos;", 39); (js "nbsp;", 160); (js "eacute;", 233)].

Fixpoint find_reference (table : list (jsstring * N)) (s : jsstring)
  : option (N * nat) :=
  match table with
  | [] => None
  | (name, c) :: rest =>
      if starts_with name s then Some (c, length name)
      else find_reference rest s
  end.

(** A decoder in the manner of the browser for text put into a [textarea]:
    a known reference becomes its character, a carriage return (with the
    line feed after it, if any) becomes a line feed, NUL becomes U+FFFD.
    [skip] counts the characters of a reference still to be passed over. *)
Fixpoint decodeFrom (skip : nat) (s : jsstring) : jsstring :=
  match skip with
  | S n =>
      match s with
      | _ :: s' => decodeFrom n s'
      | [] => []
      end
  | O =>
      match s with
      | [] => []
      | c :: s' =>
          if c =? 38 then
            match find_reference references s' with
            | Some (r, n) => r :: decodeFrom n s'
            | None => c :: decodeFrom 0 s'
            end
          else if c =? 13 then
            LF :: match s' with
                  | 10 :: _ => decodeFrom 1 s'
                  | _ => decodeFrom 0 s'
                  end
          else if c =? 0 then 0xFFFD :: decodeFrom 0 s'
          else c :: decodeFrom 0 s'
      end
  end.

Definition decodeBasic (s : jsstring) : jsstring := decodeFrom 0 s.

Definition hex_digit (n : N) : N := if n <? 10 then 48 + n else 87 + n.

(** The escapes of [JSON.stringify] for the characters of a string. *)
Definition escape (c : N) : jsstring :=
  if c =? 34 then [92; 34]
  else if c =? 92 then [92; 92]
  else if c =? 8 then [92; 98]
  else if c =? 12 then [92; 102]
  else if c =? 10 then [92; 110]
  else if c =? 13 then [92; 114]
  else if c =? 9 then [92; 116]
  else if c <? 32 then [92; 117; 48; 48; hex_digit (c / 16); hex_digit (c mod 16)]
  else [c].

Definition quote (s : jsstring) : jsstring := 34 :: concat (map escape s) ++ [34].

(** The samples hold text only: the digits of a number are never asked
    for, and this constant stands where they would be. *)
Definition no_digits (x : number) : jsstring := js "NaN".

(** [JSON.stringify] on parsed values. *)
Fixpoint stringify (v : json) : jsstring :=
  match v with
  | JNull => js "null"
  | JBool true => js "true"
  | JBool false => js "false"
  | JNum x => no_digits x
  | JStr s => quote s
  | JArr items =>
      91 :: (fix list (l : list json) : jsstring :=
               match l with
               | [] => []
               | [x] => stringify x
               | x :: l' => stringify x ++ 44 :: list l'
               end) items ++ [93]
  | JObj fields =>
      123 :: (fix members (l : list (jsstring * json)) : jsstring :=
                match l with
                | [] => []
                | [(k, x)] => quote k ++ 58 :: stringify x
                | (k, x) :: l' => quote k ++ 58 :: stringify x ++ 44 :: members l'
                end) fields ++ [125]
  end.

Definition engine_error (site : type_error_site) : js_error :=
  match site with
  | ReadOfNull name => Error (js "Cannot read properties of null (reading '" ++ name ++ js "')")
  | NotAFunction name => Error (js "html." ++ name ++ js " is not a function")
  end.

(** A world: the selected cell, the stored key, what [fetch] settles to;
    both [context.sync()] calls succeed. *)
Definition sample_world (cell : cell_value) (key : option jsstring)
    (answer : js_error + response) : world :=
  World (js "grantmath.example")
        (match key with
         | Some k => {[ js "grantmath_api_key" := k ]}
         | None => ∅
         end)
        cell None answer None engine_error decodeBasic no_digits stringify.

(** The page before the first click. *)
Definition fresh_page : page := Page [] [] (js "none") false.

Definition json_response (code : N) (text : string) (body : json) : js_error + response :=
  inr (Response code (js text) (inr body)).

End Samples.
Import Samples.


(** ** The key panel

    [Office.onReady], [loadApiKey], [saveApiKey], [updateKeyIndicator] and
    [updateSolveButtonState] (lines 15-86).  They work on the task pane: the
    page of the handler, the key input, the key indicator, the store of the
    browser and the listeners that [Office.onReady] registers.  The elements
    that [getElementById] looks up are those of the task pane and are taken
    to exist, and the store to be accessible, as [solveCell] takes it. *)

Module KeyPanel.

(** [Office.HostType]; [info.host] is [null] outside an Office host. *)
Inductive HostType := Excel | Word | PowerPoint | Outlook | OneNote | Project | Access.

(** The functions of the add-in that are registered as listeners. *)
Inductive listener := SaveApiKey | SolveCell | UpdateKeyIndicator.

(** What a timer of the panel does when it fires. *)
Inductive panel_timer :=
| HideStatus.               (* line 60 *)

Record pane := Pane {
  doc : state;                               (* #status, #solve-btn; the calls made *)
  api_key_value : jsstring;                  (* #api-key .value *)
  key_indicator : gset (list N);             (* #key-indicator .classList *)
  storage : gmap (list N) (list N);          (* localStorage *)
  save_onclick : option listener;            (* #save-key-btn .onclick *)
  solve_onclick : option listener;           (* #solve-btn .onclick *)
  input_listeners : list listener;           (* "input" listeners of #api-key *)
  console : list jsstring;                   (* console.log *)
  timers : list (panel_timer * Z)            (* the calls of setTimeout *)
}.

(** What the browser decides: the value sanitization of the key input (it
    depends on the type of the input) and whether the store refuses an item,
    in which case [setItem] throws. *)
Record browser := Browser {
  sanitize : jsstring -> jsstring;
  setItem_throws : gmap (list N) (list N) -> jsstring -> jsstring -> option js_error
}.

Definition on_doc (m : M unit) (s : pane) : pane :=
  Pane (snd (m (doc s))) (api_key_value s) (key_indicator s) (storage s)
       (save_onclick s) (solve_onclick s) (input_listeners s) (console s) (timers s).

(** [document.getElementById("api-key").value = v] *)
Definition set_value (b : browser) (v : jsstring) (s : pane) : pane :=
  Pane (doc s) (sanitize b v) (key_indicator s) (storage s)
       (save_onclick s) (solve_onclick s) (input_listeners s) (console s) (timers s).

(** The user edits the input: the value is what the input now holds. *)
Definition type_value (v : jsstring) (s : pane) : pane :=
  Pane (doc s) v (key_indicator s) (storage s)
       (save_onclick s) (solve_onclick s) (input_listeners s) (console s) (timers s).

Definition set_classList (c : gset (list N)) (s : pane) : pane :=
  Pane (doc s) (api_key_value s) c (storage s)
       (save_onclick s) (solve_onclick s) (input_listeners s) (console s) (timers s).

(** [indicator.classList.add(c)] and [indicator.classList.remove(c)] *)
Definition classList_add (c : jsstring) (s : pane) : pane :=
  set_classList (key_indicator s ∪ {[ c ]}) s.

Definition classList_remove (c : jsstring) (s : pane) : pane :=
  set_classList (key_indicator s ∖ {[ c ]}) s.

(** [localStorage.setItem(k, v)], when the store takes the item. *)
Definition setItem (k v : jsstring) (s : pane) : pane :=
  Pane (doc s) (api_key_value s) (key_indicator s) (<[ k := v ]> (storage s))
       (save_onclick s) (solve_onclick s) (input_listeners s) (console s) (timers s).

Definition set_save_onclick (l : listener) (s : pane) : pane :=
  Pane (doc s) (api_key_value s) (key_indicator s) (storage s)
       (Some l) (solve_onclick s) (input_listeners s) (console s) (timers s).

Definition set_solve_onclick (l : listener) (s : pane) : pane :=
  Pane (doc s) (api_key_value s) (key_indicator s) (storage s)
       (save_onclick s) (Some l) (input_listeners s) (console s) (timers s).

Definition same_listener (a b : listener) : bool :=
  match a, b with
  | SaveApiKey, SaveApiKey | SolveCell, SolveCell
  | UpdateKeyIndicator, UpdateKeyIndicator => true
  | _, _ => false
  end.

(** [addEventListener("input", l)]: a listener that is registered already
    is not added again. *)
Definition addEventListener (l : listener) (s : pane) : pane :=
  Pane (doc s) (api_key_value s) (key_indicator s) (storage s)
       (save_onclick s) (solve_onclick s)
       (if existsb (same_listener l) (input_listeners s) then input_listeners s
        else input_listeners s ++ [l])
       (console s) (timers s).

Definition console_log (msg : jsstring) (s : pane) : pane :=
  Pane (doc s) (api_key_value s) (key_indicator s) (storage s)
       (save_onclick s) (solve_onclick s) (input_listeners s) (console s ++ [msg])
       (timers s).

Definition setTimeout (cb : panel_timer) (ms : Z) (s : pane) : pane :=
  Pane (doc s) (api_key_value s) (key_indicator s) (storage s)
       (save_onclick s) (solve_onclick s) (input_listeners s) (console s)
       (timers s ++ [(cb, ms)]).

(** [function updateSolveButtonState()], lines 82-86. *)
Definition updateSolveButtonState (s : pane) : pane :=
  on_doc (set_solve_disabled false) s.

(** [function updateKeyIndicator()], lines 66-77. *)
Definition updateKeyIndicator (s : pane) : pane :=
  let apiKey := trim (api_key_value s) in
  let s :=
    if nonempty apiKey && (0 <? length apiKey)%nat
    then classList_add (js "active") s
    else classList_remove (js "active") s in
  updateSolveButtonState s.

(** [function loadApiKey()], lines 35-41: [getItem] gives [null] for a key
    that the store does not hold. *)
Definition loadApiKey (b : browser) (s : pane) : pane :=
  match storage s !! js "grantmath_api_key" with
  | Some apiKey =>
      if nonempty apiKey
      then updateKeyIndicator (set_value b apiKey s)
      else s
  | None => s
  end.

(** [function saveApiKey()], lines 46-61. *)
Definition saveApiKey (b : browser) (s : pane) : outcome unit * pane :=
  let apiKey := trim (api_key_value s) in
  if negb (nonempty apiKey) then
    (Returned tt, on_doc (showStatus (js "Please enter an API key") (js "error")) s)
  else
    match setItem_throws b (storage s) (js "grantmath_api_key") apiKey with
    | Some e => (Threw e, s)
    | None =>
        let s := setItem (js "grantmath_api_key") apiKey s in
        let s := updateKeyIndicator s in
        let s := updateSolveButtonState s in
        let s := on_doc (showStatus (js "API key saved successfully") (js "success")) s in
        (Returned tt, setTimeout HideStatus 3000 s)
    end.

(** The callback of [Office.onReady], lines 15-30. *)
Definition onReady (b : browser) (host : option HostType) (s : pane) : pane :=
  match host with
  | Some Excel =>
      let s := console_log (js "GrantMath Excel Add-in loaded") s in
      let s := set_save_onclick SaveApiKey s in
      let s := set_solve_onclick SolveCell s in
      let s := addEventListener UpdateKeyIndicator s in
      let s := loadApiKey b s in
      updateSolveButtonState s
  | _ => s
  end.

(** The world of a click on the solve button: what is outside the add-in,
    with the store of the pane. *)
Definition world_of (w : world) (s : pane) : world :=
  World (location_hostname w) (storage s) (selected_value w) (first_sync w)
        (fetch_outcome w) (last_sync w) (type_error w) (decodeEntities w)
        (numberToString w) (JSON_stringify w).

(** A listener is called; what it throws is reported by the browser and
    goes no further. *)
Definition call_listener (b : browser) (w : world) (l : listener) (s : pane) : pane :=
  match l with
  | SaveApiKey => snd (saveApiKey b s)
  | SolveCell => on_doc (fun st => (Returned tt, snd (solveCell (world_of w s) st))) s
  | UpdateKeyIndicator => updateKeyIndicator s
  end.

(** What happens in the task pane once it is loaded. *)
Inductive event :=
| Ready (host : option HostType)    (* Office is ready *)
| Input (v : jsstring)              (* the user edits the key: the input holds [v] *)
| ClickSave
| ClickSolve
| Fires (cb : panel_timer)          (* a timer of the panel fires *)
| FiresSolve (cb : timer_callback). (* a timer of the handler fires *)

Definition on_click (b : browser) (w : world) (h : option listener) (s : pane) : pane :=
  match h with
  | Some l => call_listener b w l s
  | None => s
  end.

(** One event, with what is outside the add-in when it happens.  A button
    that is disabled gets no click. *)
Definition handle (b : browser) (s : pane) (we : world * event) : pane :=
  let (w, e) := we in
  match e with
  | Ready host => onReady b host s
  | Input v =>
      fold_left (fun s l => call_listener b w l s) (input_listeners s) (type_value v s)
  | ClickSave => on_click b w (save_onclick s) s
  | ClickSolve =>
      if solve_btn_disabled (dom (doc s)) then s
      else on_click b w (solve_onclick s) s
  | Fires HideStatus => on_doc hideStatus s
  | FiresSolve cb => on_doc (run_timer cb) s
  end.

Definition run (b : browser) (events : list (world * event)) (s : pane) : pane :=
  fold_left (handle b) events s.

End KeyPanel.
Import KeyPanel.

(** Vocabulary for the key panel. *)
Module KeyPanelSpec.

(** The key that the store holds, if any. *)
Definition saved_key (s : pane) : option jsstring := storage s !! js "grantmath_api_key".

(** A key as [saveApiKey] stores it: not empty, no white space around it. *)
Definition clean_key (k : jsstring) : Prop := k <> [] /\ trim k = k.

Definition active (s : pane) : Prop := js "active" ∈ key_indicator s.

(** The task pane before [Office.onReady]: nothing registered, nothing
    shown; the store is what the browser kept. *)
Definition loaded_pane (store : gmap (list N) (list N)) : pane :=
  Pane (State fresh_page []) [] ∅ store None None [] [] [].

(** A browser whose input keeps a value as it is and whose store takes
    every item. *)
Definition plain_browser : browser := Browser (fun v => v) (fun _ _ _ => None).

End KeyPanelSpec.
Import KeyPanelSpec.

(** Vocabulary for the steps of the normalizer on tags. *)
Module MarkupSpec.

(** The shape shared by the patterns for script and style blocks: the
    characters of the opening tag, [[^>]*>], [.*?], the characters of the
    closing tag. *)
Definition block_pattern (opening closing : list atom) : list node :=
  map One opening
  ++ [Rep Star (NotChr 62); One (Chr 62); Rep LazyStar Dot]
  ++ map One closing.

Definition script_open : list atom := map Chr (js "<script").
Definition script_close : list atom := map Chr (js "</script>").
Definition style_open : list atom := map Chr (js "<style").
Definition style_close : list atom := map Chr (js "</style>").

(** The shape shared by the patterns for [p] and [div] tags: [<], [/?], the
    characters of the name, [[^>]*>]. *)
Definition tag_pattern (name : list atom) : list node :=
  [One (Chr 60); Rep Opt (Chr 47)] ++ map One name
  ++ [Rep Star (NotChr 62); One (Chr 62)].


(** The tags of lines 201-205 as they are mostly written. *)
Definition line_tags : list jsstring :=
  [js "<p>"; js "</p>"; js "<div>"; js "</div>"; js "<br>"; js "<br/>"; js "<br />"].

End MarkupSpec.
Import MarkupSpec.
(** ** The matcher and [replace]: general facts *)

Section MatcherFacts.

Variable ic : bool.

(** What a match leaves is a suffix of the input. *)
Lemma greedy_suffix acc (k : jsstring -> result) s rest g :
  (forall s' rest' g', k s' = Some (rest', g') -> exists pre, s' = pre ++ rest') ->
  greedy acc k s = Some (rest, g) -> exists pre, s = pre ++ rest.
Proof.
  intros Hk. induction s as [|c s IH]; simpl; intros H.
  - by apply Hk in H.
  - destruct (acc c); [|by apply Hk in H].
    destruct (greedy acc k s) as [[r1 g1]|] eqn:E.
    + inversion H; subst. destruct (IH eq_refl) as [pre ->]. by exists (c :: pre).
    + by apply Hk in H.
Qed.

Lemma lazy_suffix acc (k : jsstring -> result) s rest g :
  (forall s' rest' g', k s' = Some (rest', g') -> exists pre, s' = pre ++ rest') ->
  lazy acc k s = Some (rest, g) -> exists pre, s = pre ++ rest.
Proof.
  intros Hk. induction s as [|c s IH]; simpl; intros H.
  - destruct (k []) as [[r1 g1]|] eqn:E; [|done]. inversion H; subst. by apply Hk in E.
  - destruct (k (c :: s)) as [[r1 g1]|] eqn:E.
    + inversion H; subst. by apply Hk in E.
    + destruct (acc c); [|done]. destruct (IH H) as [pre ->]. by exists (c :: pre).
Qed.

Lemma exec_suffix p : forall s g rest g',
  exec ic p s g = Some (rest, g') -> exists pre, s = pre ++ rest.
Proof.
  induction p as [|n p IH]; intros s g rest g' H; simpl in H.
  - inversion H; subst. by exists [].
  - destruct n as [a|q a| |].
    + destruct s as [|c s]; [done|]. destruct (accepts ic a c); [|done].
      apply IH in H as [pre ->]. by exists (c :: pre).
    + destruct q.
      * exact (greedy_suffix _ _ _ _ _ (fun s' r' g'' => IH s' g r' g'') H).
      * exact (lazy_suffix _ _ _ _ _ (fun s' r' g'' => IH s' g r' g'') H).
      * unfold plus in H. destruct s as [|c s]; [done|]. destruct (accepts ic a c); [|done].
        destruct (greedy_suffix _ _ _ _ _ (fun s' r' g'' => IH s' g r' g'') H) as [pre ->].
        by exists (c :: pre).
      * unfold opt in H. destruct s as [|c s]; [by apply IH in H|].
        destruct (accepts ic a c); [|by apply IH in H].
        destruct (exec ic p s g) as [[r1 g1]|] eqn:E; [|by apply IH in H].
        inversion H; subst. apply IH in E as [pre ->]. by exists (c :: pre).
    + by apply IH in H.
    + by apply IH in H.
Qed.

(** A pattern that starts with one character, possibly behind the opening
    mark of the group, or with [a+], matches at least one character. *)
Lemma productive_one a p : productive ic (One a :: p).
Proof.
  intros s g rest g' H. simpl in H. destruct s as [|c s]; [done|].
  destruct (accepts ic a c); [|done]. apply exec_suffix in H as [pre ->]. eauto.
Qed.

Lemma productive_plus a p : productive ic (Rep Plus a :: p).
Proof.
  intros s g rest g' H. simpl in H. unfold plus in H. destruct s as [|c s]; [done|].
  destruct (accepts ic a c); [|done].
  destruct (greedy_suffix _ _ _ _ _ (fun s' r' g'' => exec_suffix p s' g r' g'') H) as [pre ->].
  eauto.
Qed.

Lemma productive_group p : productive ic p -> productive ic (GroupOpen :: p).
Proof. intros Hp s g rest g' H. simpl in H. by apply Hp in H. Qed.

Variable p : list node.
Variable tpl : list piece.

Lemma replaceFrom_skip pre : forall rest,
  replaceFrom ic p tpl (length pre) (pre ++ rest) = replaceFrom ic p tpl 0 rest.
Proof.
  induction pre as [|c pre IH]; intros rest; [by destruct rest|]. simpl. apply IH.
Qed.

(** The two equations of a scan. *)
Lemma replaceFrom_no_match c s :
  exec ic p (c :: s) no_slots = None ->
  replaceFrom ic p tpl 0 (c :: s) = c :: replaceFrom ic p tpl 0 s.
Proof. intros H. simpl. simpl in H. by rewrite H. Qed.

Lemma replaceFrom_match c pre rest g :
  exec ic p (c :: pre ++ rest) no_slots = Some (rest, g) ->
  replaceFrom ic p tpl 0 (c :: pre ++ rest) = expand tpl g ++ replaceFrom ic p tpl 0 rest.
Proof.
  intros H. cbn [replaceFrom]. rewrite H. f_equal.
  replace (length (c :: pre ++ rest) - length rest)%nat with (S (length pre))
    by (simpl; rewrite length_app; lia).
  apply replaceFrom_skip.
Qed.

Lemma replaceFrom_nil : productive ic p -> replaceFrom ic p tpl 0 [] = [].
Proof.
  intros Hp. simpl. destruct (exec ic p [] no_slots) as [[rest g]|] eqn:E; [|done].
  apply Hp in E as (c & pre & E). done.
Qed.

(** Induction along a scan. *)
Lemma scan_ind (P : jsstring -> jsstring -> Prop) :
  productive ic p ->
  P [] [] ->
  (forall c s out, exec ic p (c :: s) no_slots = None ->
     P s out -> P (c :: s) (c :: out)) ->
  (forall c pre rest g out, exec ic p (c :: pre ++ rest) no_slots = Some (rest, g) ->
     P rest out -> P (c :: pre ++ rest) (expand tpl g ++ out)) ->
  forall s, P s (replaceFrom ic p tpl 0 s).
Proof.
  intros Hp Hnil Hno Hyes s.
  assert (forall n s, (length s < n)%nat -> P s (replaceFrom ic p tpl 0 s)) as H;
    [|apply (H (S (length s))); lia].
  clear s. induction n as [|n IH]; intros s Hn; [lia|].
  destruct s as [|c s].
  - by rewrite replaceFrom_nil.
  - destruct (exec ic p (c :: s) no_slots) as [[rest g]|] eqn:E.
    + destruct (Hp _ _ _ _ E) as (c' & pre & Hs).
      injection Hs as <- ->.
      rewrite (replaceFrom_match _ _ _ _ E). apply Hyes; [done|].
      apply IH. simpl in Hn. rewrite length_app in Hn. lia.
    + rewrite (replaceFrom_no_match _ _ E). apply Hno; [done|].
      apply IH. simpl in Hn. lia.
Qed.

End MatcherFacts.

(** ** Strings: trimming, lines, spaces *)

Section StringFacts.

Lemma forallb_rev (f : N -> bool) (l : jsstring) : forallb f (rev l) = forallb f l.
Proof.
  induction l as [|c l IH]; [done|]. simpl. rewrite forallb_app, IH. simpl.
  rewrite andb_true_r. apply andb_comm.
Qed.

Lemma trimStart_split s :
  exists pre, s = pre ++ trimStart s /\ forallb isSpace pre = true.
Proof.
  induction s as [|c s (pre & H1 & H2)]; simpl; [by exists []|].
  destruct (isSpace c) eqn:E; [|by exists []].
  exists (c :: pre). simpl. rewrite E, H2. split; [congruence|done].
Qed.

Lemma trimStart_leading s : leading_space (trimStart s) = false.
Proof.
  induction s as [|c s IH]; simpl; [done|]. destruct (isSpace c) eqn:E; [done|].
  simpl. exact E.
Qed.

Lemma trimStart_id s : leading_space s = false -> trimStart s = s.
Proof. destruct s as [|c s]; simpl; [done|]. by intros ->. Qed.

Lemma trimEnd_split s :
  exists post, s = trimEnd s ++ post /\ forallb isSpace post = true.
Proof.
  unfold trimEnd. destruct (trimStart_split (rev s)) as (pre & H1 & H2).
  exists (rev pre). split; [|by rewrite forallb_rev].
  rewrite <- rev_app_distr, <- H1. symmetry. apply rev_involutive.
Qed.

Lemma trimEnd_trailing s : trailing_space (trimEnd s) = false.
Proof. unfold trailing_space, trimEnd. rewrite rev_involutive. apply trimStart_leading. Qed.

Lemma trimEnd_id s : trailing_space s = false -> trimEnd s = s.
Proof.
  unfold trailing_space, trimEnd. intros H. rewrite trimStart_id by done.
  apply rev_involutive.
Qed.

Lemma trimEnd_leading s : leading_space s = false -> leading_space (trimEnd s) = false.
Proof.
  intros H. destruct (trimEnd_split s) as (post & E & _).
  destruct (trimEnd s) as [|c t]; [done|]. rewrite E in H. exact H.
Qed.

Lemma trim_leading s : leading_space (trim s) = false.
Proof. unfold trim. apply trimEnd_leading, trimStart_leading. Qed.

Lemma trim_trailing s : trailing_space (trim s) = false.
Proof. unfold trim. apply trimEnd_trailing. Qed.

Lemma trim_id s : leading_space s = false -> trailing_space s = false -> trim s = s.
Proof. intros H1 H2. unfold trim. rewrite trimStart_id by done. by apply trimEnd_id. Qed.

(** [trim] cuts white space off both ends. *)
Lemma trim_split s :
  exists pre post, s = pre ++ trim s ++ post /\
    forallb isSpace pre = true /\ forallb isSpace post = true.
Proof.
  destruct (trimStart_split s) as (pre & H1 & H2).
  destruct (trimEnd_split (trimStart s)) as (post & H3 & H4).
  exists pre, post. unfold trim. by rewrite <- H3.
Qed.

(** *** Pairs of spaces *)

Lemma double_space_app a b :
  double_space (a ++ b) = false -> double_space a = false /\ double_space b = false.
Proof.
  induction a as [|c a IH]; simpl; [done|]. intros H.
  apply orb_false_elim in H as [H1 H2]. destruct (IH H2) as [Ha Hb].
  split; [|done]. rewrite Ha, orb_false_r.
  destruct (c =? 32); [|done]. simpl in *. destruct a; simpl in *; [done|exact H1].
Qed.

Lemma double_space_sep a c b :
  (c =? 32) = false -> double_space (a ++ c :: b) = double_space a || double_space b.
Proof.
  intros Hc. induction a as [|x a IH]; simpl; [by rewrite Hc|].
  rewrite IH, orb_assoc. f_equal. f_equal. f_equal.
  destruct a; simpl; [by rewrite Hc|done].
Qed.

Lemma double_space_behind e s :
  forallb (fun c => negb (c =? 32)) e = true -> double_space (e ++ s) = double_space s.
Proof.
  induction e as [|c e IH]; simpl; [done|]. intros H.
  apply andb_true_iff in H as [H1 H2]. rewrite IH by done.
  destruct (c =? 32); [done|]. done.
Qed.

(** *** Lines *)

Lemma join_cons l l2 ls : join_lines (l :: l2 :: ls) = l ++ LF :: join_lines (l2 :: ls).
Proof. reflexivity. Qed.

Lemma split_lines_cons s : exists l ls, split_lines s = l :: ls.
Proof.
  destruct s as [|c s]; simpl; [by eexists _, _|].
  destruct (c =? LF); [by eexists _, _|]. destruct (split_lines s); by eexists _, _.
Qed.

Lemma join_split s : join_lines (split_lines s) = s.
Proof.
  induction s as [|c s IH]; [done|]. cbn [split_lines].
  destruct (split_lines_cons s) as (l & ls & Hs). rewrite Hs in *.
  destruct (c =? LF) eqn:E.
  - apply N.eqb_eq in E as ->. rewrite join_cons, IH. done.
  - destruct ls as [|l2 ls].
    + simpl in *. by rewrite IH.
    + rewrite join_cons in *. rewrite <- IH. reflexivity.
Qed.

Lemma split_no_lf s : Forall (fun l => no_lf l = true) (split_lines s).
Proof.
  induction s as [|c s IH]; simpl; [by constructor|].
  destruct (c =? LF) eqn:E; [by constructor|].
  destruct (split_lines s) as [|l ls]; [by constructor; [simpl; rewrite E|]|].
  inversion IH; subst. constructor; [|done]. simpl. by rewrite E.
Qed.

Lemma split_app_lf l rest :
  no_lf l = true -> split_lines (l ++ LF :: rest) = l :: split_lines rest.
Proof.
  induction l as [|c l IH]; simpl; [done|]. intros H.
  apply andb_true_iff in H as [H1 H2]. apply negb_true_iff in H1. rewrite H1.
  by rewrite IH.
Qed.

Lemma split_one l : no_lf l = true -> split_lines l = [l].
Proof.
  induction l as [|c l IH]; simpl; [done|]. intros H.
  apply andb_true_iff in H as [H1 H2]. apply negb_true_iff in H1. rewrite H1.
  by rewrite IH.
Qed.

Lemma split_join ls :
  ls <> [] -> Forall (fun l => no_lf l = true) ls -> split_lines (join_lines ls) = ls.
Proof.
  induction ls as [|l ls IH]; [done|]. intros _ H. inversion H; subst.
  destruct ls as [|l2 ls]; [by apply split_one|].
  rewrite join_cons, split_app_lf by done. f_equal. by apply IH.
Qed.

End StringFacts.

(** ** The patterns of the whitespace clean-up *)

Section CleanupPatterns.

Lemma exec_ones ic atoms p : forall s g,
  exec ic (map One atoms ++ p) s g =
  match eat ic atoms s with
  | Some s' => exec ic p s' g
  | None => None
  end.
Proof.
  induction atoms as [|a atoms IH]; intros s g; [done|].
  destruct s as [|c s]; simpl; [done|]. destruct (accepts ic a c); [apply IH|done].
Qed.

Lemma starts_with_app m rest : starts_with m (m ++ rest) = true.
Proof. induction m as [|a m IH]; simpl; [done|]. by rewrite N.eqb_refl. Qed.

Lemma starts_with_split m : forall s,
  starts_with m s = true -> s = m ++ drop (length m) s.
Proof.
  induction m as [|a m IH]; intros s H; [done|]. destruct s as [|c s]; [done|].
  simpl in H. apply andb_true_iff in H as [H1 H2]. apply N.eqb_eq in H1 as ->.
  simpl. f_equal. by apply IH.
Qed.

Lemma eat_literal m : forall s,
  eat false (map Chr m) s =
  if starts_with m s then Some (drop (length m) s) else None.
Proof.
  induction m as [|a m IH]; intros s; [done|]. destruct s as [|c s]; [done|].
  simpl. rewrite (N.eqb_sym c a). destruct (a =? c); [apply IH|done].
Qed.

Lemma lit_map (t : string) : lit t = map One (map Chr (js t)).
Proof. unfold lit. by rewrite map_map. Qed.

Lemma greedy_run acc g : forall s,
  greedy acc (fun s' => Some (s', g)) s = Some (skip acc s, g).
Proof.
  induction s as [|c s IH]; simpl; [done|]. destruct (acc c); [by rewrite IH|done].
Qed.

Lemma skip_stops acc s : match skip acc s with c :: _ => acc c = false | [] => True end.
Proof.
  induction s as [|c s IH]; simpl; [done|]. destruct (acc c) eqn:E; [done|]. exact E.
Qed.

(** [/ +/]: a run of spaces, as long as it goes. *)
Lemma exec_spaces s :
  exec false (re_nodes re_spaces) s no_slots =
  match s with
  | c :: s' => if c =? 32 then Some (skip (fun x => x =? 32) s', no_slots) else None
  | [] => None
  end.
Proof.
  destruct s as [|c s]; [done|]. simpl. unfold plus. simpl.
  destruct (c =? 32); [|done]. apply greedy_run.
Qed.

(** [/\n\n+/]: two line feeds and all that follow. *)
Lemma exec_newlines s :
  exec false (re_nodes re_newlines) s no_slots =
  match s with
  | c :: d :: s' =>
      if (c =? LF) && (d =? LF) then Some (skip (fun x => x =? LF) s', no_slots) else None
  | _ => None
  end.
Proof.
  destruct s as [|c [|d s]]; [done| |].
  - cbn [exec re_nodes re_newlines accepts canonicalize]. unfold LF.
    by destruct (c =? 10).
  - cbn [exec re_nodes re_newlines accepts canonicalize plus]. unfold LF.
    destruct (c =? 10); [|done]. destruct (d =? 10); [|done]. apply greedy_run.
Qed.

(** The marker, taken literally. *)
Lemma exec_disclaimer s :
  exec false (re_nodes re_disclaimer) s no_slots =
  if starts_with disclaimer s
  then Some (drop (length disclaimer) s, Slots s (drop (length disclaimer) s))
  else None.
Proof.
  unfold re_disclaimer. cbn [re_nodes app exec]. rewrite lit_map, exec_ones.
  change (js "**Disclaimer:**") with disclaimer. rewrite eat_literal.
  by destruct (starts_with disclaimer s).
Qed.

Lemma group1_disclaimer rest :
  group1 (Slots (disclaimer ++ rest) rest) = disclaimer.
Proof.
  unfold group1. cbn [at_open at_close]. rewrite length_app.
  replace (length disclaimer + length rest - length rest)%nat with (length disclaimer) by lia.
  by rewrite take_app_length.
Qed.

Lemma productive_spaces : productive false (re_nodes re_spaces).
Proof. apply productive_plus. Qed.

Lemma productive_newlines : productive false (re_nodes re_newlines).
Proof. apply productive_one. Qed.

Lemma productive_disclaimer : productive false (re_nodes re_disclaimer).
Proof. apply productive_group, productive_one. Qed.

End CleanupPatterns.

(** ** The whitespace clean-up: no pair of spaces survives *)

Section SingleSpaces.

Lemma double_space_cons c s :
  double_space (c :: s) = ((c =? 32) && starts32 s) || double_space s.
Proof. reflexivity. Qed.

Lemma collapseSpaces_scan s :
  double_space (collapseSpaces s) = false /\
  (starts32 (collapseSpaces s) = true -> starts32 s = true).
Proof.
  unfold collapseSpaces, replace.
  apply (scan_ind false (re_nodes re_spaces) [Text [32]]
           (fun s out => double_space out = false /\ (starts32 out = true -> starts32 s = true))).
  - apply productive_spaces.
  - done.
  - intros c t out H [IH1 IH2]. rewrite exec_spaces in H.
    destruct (c =? 32) eqn:E; [done|]. rewrite double_space_cons. simpl. by rewrite E, IH1.
  - intros c pre rest g out H [IH1 IH2]. rewrite exec_spaces in H.
    destruct (c =? 32) eqn:E; [|done]. inversion H as [[Hr Hg]].
    change (expand [Text [32]] no_slots ++ out) with (32 :: out).
    rewrite double_space_cons, IH1. simpl. rewrite E. split; [|done].
    rewrite orb_false_r. destruct (starts32 out) eqn:Es; [|done].
    pose proof (IH2 eq_refl) as H2.
    pose proof (skip_stops (fun x => x =? 32) (pre ++ rest)) as Hk.
    rewrite Hr in Hk. destruct rest; simpl in *; congruence.
Qed.

Lemma collapseSpaces_single s : double_space (collapseSpaces s) = false.
Proof. apply collapseSpaces_scan. Qed.

(** A substitution whose replacement texts hold no space keeps a text free
    of pairs of spaces. *)
Lemma replace_single_spaces ic p tpl :
  productive ic p ->
  (forall s rest g, exec ic p s no_slots = Some (rest, g) ->
     exists e t, expand tpl g = e :: t /\
       forallb (fun c => negb (c =? 32)) (e :: t) = true) ->
  forall s, double_space s = false ->
    double_space (replaceFrom ic p tpl 0 s) = false.
Proof.
  intros Hp He s Hs.
  cut (double_space s = false ->
       double_space (replaceFrom ic p tpl 0 s) = false /\
       (starts32 (replaceFrom ic p tpl 0 s) = true -> starts32 s = true)).
  { intros H. by apply H. }
  clear Hs.
  apply (scan_ind ic p tpl
    (fun s out => double_space s = false ->
       double_space out = false /\ (starts32 out = true -> starts32 s = true))); [done|done| |].
  - intros c t out H IH Hd. rewrite double_space_cons in Hd.
    apply orb_false_elim in Hd as [H1 H2]. destruct (IH H2) as [IH1 IH2].
    rewrite double_space_cons, IH1, orb_false_r. split; [|done].
    destruct (c =? 32); [|done]. simpl in *.
    destruct (starts32 out) eqn:Es; [|done]. rewrite IH2 in H1; done.
  - intros c pre rest g out H IH Hd.
    change (c :: pre ++ rest) with ((c :: pre) ++ rest) in Hd.
    apply double_space_app in Hd as [_ Hd]. destruct (IH Hd) as [IH1 IH2].
    destruct (He _ _ _ H) as (e & t & -> & Hf).
    rewrite double_space_behind by done. split; [done|].
    simpl in *. apply andb_true_iff in Hf as [Hf _]. apply negb_true_iff in Hf.
    by rewrite Hf.
Qed.

Lemma collapseNewlines_single s :
  double_space s = false -> double_space (collapseNewlines s) = false.
Proof.
  apply replace_single_spaces; [apply productive_newlines|].
  intros t rest g H. by exists LF, [].
Qed.

Lemma expand_disclaimer s rest g :
  exec false (re_nodes re_disclaimer) s no_slots = Some (rest, g) ->
  s = disclaimer ++ rest /\ expand [Text [LF]; Group1] g = LF :: disclaimer.
Proof.
  rewrite exec_disclaimer. destruct (starts_with disclaimer s) eqn:E; [|done].
  intros H. inversion H as [[Hr Hg]]. apply starts_with_split in E. split; [done|].
  unfold expand. simpl. rewrite app_nil_r. f_equal.
  rewrite E at 1. apply group1_disclaimer.
Qed.

Lemma separateDisclaimer_single s :
  double_space s = false -> double_space (separateDisclaimer s) = false.
Proof.
  apply replace_single_spaces; [apply productive_disclaimer|].
  intros t rest g H. apply expand_disclaimer in H as [_ ->]. by eexists _, _.
Qed.

Lemma trim_single s : double_space s = false -> double_space (trim s) = false.
Proof.
  intros H. destruct (trim_split s) as (pre & post & E & _). rewrite E in H.
  apply double_space_app in H as [_ H]. by apply double_space_app in H as [H _].
Qed.

Lemma starts32_first_line s l ls :
  split_lines s = l :: ls -> starts32 l = true -> starts32 s = true.
Proof.
  destruct s as [|c s]; simpl; [by intros [= <- <-]|].
  destruct (c =? LF); [by intros [= <- <-]|].
  destruct (split_lines s); by intros [= <- <-].
Qed.

Lemma split_single s :
  double_space s = false -> Forall (fun l => double_space l = false) (split_lines s).
Proof.
  induction s as [|c s IH]; intros H; [by constructor|].
  rewrite double_space_cons in H. apply orb_false_elim in H as [H1 H2].
  specialize (IH H2). cbn [split_lines].
  destruct (split_lines_cons s) as (l & ls & Hs). rewrite Hs in *.
  destruct (c =? LF); [by constructor|].
  inversion IH; subst. constructor; [|done].
  rewrite double_space_cons. apply orb_false_intro; [|done].
  destruct (c =? 32); [|done]. simpl in *.
  destruct (starts32 l) eqn:El; [|done]. by rewrite (starts32_first_line _ _ _ Hs El) in H1.
Qed.

Lemma join_single ls :
  Forall (fun l => double_space l = false) ls -> double_space (join_lines ls) = false.
Proof.
  induction ls as [|l ls IH]; intros H; [done|]. inversion H; subst.
  destruct ls as [|l2 ls]; [done|].
  rewrite join_cons, double_space_sep by done. rewrite IH by done. by rewrite orb_false_r.
Qed.

Lemma trimLines_single s : double_space s = false -> double_space (trimLines s) = false.
Proof.
  intros H. unfold trimLines. apply join_single.
  apply List.Forall_forall. intros l Hl.
  apply List.filter_In in Hl as [Hl _]. apply List.in_map_iff in Hl as (l0 & <- & Hl0).
  apply trim_single. pose proof (split_single s H) as Hf.
  rewrite List.Forall_forall in Hf. by apply Hf.
Qed.

Lemma cleanWhitespace_single s : double_space (cleanWhitespace s) = false.
Proof.
  unfold cleanWhitespace.
  apply trim_single, separateDisclaimer_single, trimLines_single,
    collapseNewlines_single, collapseSpaces_single.
Qed.

End SingleSpaces.

(** ** The whitespace clean-up: where a blank line can be *)

Section BlankLines.

Lemma lf_tight_no_lf l : no_lf l = true -> lf_tight l = true.
Proof.
  induction l as [|c l IH]; simpl; [done|]. intros H.
  apply andb_true_iff in H as [H1 H2]. by rewrite H1, IH.
Qed.

Lemma lf_tight_app_lf l r :
  no_lf l = true -> lf_tight (l ++ LF :: r) = solid r && lf_tight r.
Proof.
  induction l as [|c l IH]; simpl; [done|]. intros H.
  apply andb_true_iff in H as [H1 H2]. by rewrite H1, IH.
Qed.

Lemma lf_tight_suffix a b : lf_tight (a ++ b) = true -> lf_tight b = true.
Proof.
  induction a as [|c a IH]; simpl; [done|]. intros H.
  apply andb_true_iff in H as [_ H]. by apply IH.
Qed.

Lemma solid_join l ls : solid l = true -> solid (join_lines (l :: ls)) = true.
Proof. destruct l as [|c l]; [done|]. by destruct ls. Qed.

Lemma lf_tight_join ls :
  Forall (fun l => solid l = true /\ no_lf l = true) ls -> lf_tight (join_lines ls) = true.
Proof.
  induction ls as [|l ls IH]; intros H; [done|]. inversion H as [|? ? [Hs Hn] Hf]; subst.
  destruct ls as [|l2 ls]; [by apply lf_tight_no_lf|].
  rewrite join_cons, lf_tight_app_lf by done. rewrite IH by done.
  inversion Hf as [|? ? [Hs2 _] _]; subst. by rewrite solid_join.
Qed.

Lemma no_lf_app a b : no_lf (a ++ b) = no_lf a && no_lf b.
Proof. apply forallb_app. Qed.

Lemma trim_no_lf l : no_lf l = true -> no_lf (trim l) = true.
Proof.
  intros H. destruct (trim_split l) as (pre & post & E & _). rewrite E in H.
  rewrite !no_lf_app in H. by repeat (apply andb_true_iff in H as [? H]).
Qed.

Lemma solid_trim l : nonempty (trim l) = true -> solid (trim l) = true.
Proof.
  intros H. pose proof (trim_leading l) as Hl.
  destruct (trim l) as [|c t]; [done|]. simpl in *. by rewrite Hl.
Qed.

Lemma trimLines_tight s : lf_tight (trimLines s) = true.
Proof.
  unfold trimLines. apply lf_tight_join, List.Forall_forall. intros l Hl.
  apply List.filter_In in Hl as [Hl Hn]. apply List.in_map_iff in Hl as (l0 & <- & Hl0).
  split; [by apply solid_trim|]. apply trim_no_lf.
  pose proof (split_no_lf s) as Hf. rewrite List.Forall_forall in Hf. by apply Hf.
Qed.

Lemma lf_marked_skip e s : no_lf e = true -> lf_marked (e ++ s) = lf_marked s.
Proof.
  induction e as [|c e IH]; simpl; [done|]. intros H.
  apply andb_true_iff in H as [H1 H2]. rewrite H1. simpl. by apply IH.
Qed.

Lemma lf_marked_suffix a b : lf_marked (a ++ b) = true -> lf_marked b = true.
Proof.
  induction a as [|c a IH]; simpl; [done|]. intros H.
  apply andb_true_iff in H as [_ H]. by apply IH.
Qed.

Lemma separateDisclaimer_marked s :
  lf_tight s = true -> lf_marked (separateDisclaimer s) = true.
Proof.
  intros Hs.
  cut (lf_tight s = true ->
       lf_marked (separateDisclaimer s) = true /\
       (solid s = true ->
        solid (separateDisclaimer s) || starts_with (LF :: disclaimer) (separateDisclaimer s) = true)).
  { intros H. by apply H. }
  clear Hs. unfold separateDisclaimer, replace.
  apply (scan_ind false (re_nodes re_disclaimer) [Text [LF]; Group1]
    (fun s out => lf_tight s = true ->
       lf_marked out = true /\
       (solid s = true -> solid out || starts_with (LF :: disclaimer) out = true))).
  - apply productive_disclaimer.
  - done.
  - intros c t out _ IH H. simpl in H. apply andb_true_iff in H as [H1 H2].
    destruct (IH H2) as [IH1 IH2]. split; [|by simpl; intros ->].
    simpl lf_marked. rewrite IH1, andb_true_r.
    destruct (c =? LF); [|done]. simpl in H1. rewrite <- orb_assoc. by apply IH2.
  - intros c pre rest g out H IH Ht.
    apply expand_disclaimer in H as [E ->]. rewrite E in Ht.
    apply lf_tight_suffix in Ht. destruct (IH Ht) as [IH1 _].
    split; [|intros _; apply orb_true_iff; right;
             apply (starts_with_app (LF :: disclaimer))].
    change ((LF :: disclaimer) ++ out) with (LF :: (disclaimer ++ out)).
    cbn [lf_marked]. rewrite lf_marked_skip by done. by rewrite IH1.
Qed.

Lemma starts_with_cut m : forall r post,
  forallb (fun c => negb (isSpace c)) m = true -> forallb isSpace post = true ->
  starts_with m (r ++ post) = true -> starts_with m r = true.
Proof.
  induction m as [|a m IH]; intros r post Hm Hp H; [done|].
  simpl in Hm. apply andb_true_iff in Hm as [Ha Hm].
  destruct r as [|x r].
  - destruct post as [|y post]; [done|]. simpl in *.
    apply andb_true_iff in H as [H _]. apply N.eqb_eq in H as ->.
    apply andb_true_iff in Hp as [Hp _]. by rewrite Hp in Ha.
  - simpl in *. apply andb_true_iff in H as [-> H]. by apply (IH r post).
Qed.

Lemma disclaimer_solid : forallb (fun c => negb (isSpace c)) disclaimer = true.
Proof. by vm_compute. Qed.

Lemma disclaimer_not_at_blank post :
  forallb isSpace post = true -> starts_with disclaimer post = false.
Proof.
  intros Hp. destruct (starts_with disclaimer post) eqn:E; [|done].
  by apply (starts_with_cut disclaimer [] post disclaimer_solid Hp) in E.
Qed.

Lemma lf_marked_trimmed s post :
  forallb isSpace post = true -> lf_marked (s ++ post) = true -> lf_marked s = true.
Proof.
  intros Hp. induction s as [|c s IH]; [done|]. cbn [app lf_marked]. intros H.
  apply andb_true_iff in H as [H1 H2]. rewrite (IH H2), andb_true_r.
  destruct (c =? LF); [|done]. cbn [negb orb] in *.
  destruct s as [|x s].
  - exfalso. cbn [app] in H1. destruct post as [|y post]; [done|].
    cbn [solid starts_with forallb] in *.
    apply andb_true_iff in Hp as [Hy Hp]. rewrite Hy in H1. cbn [negb orb] in H1.
    apply andb_true_iff in H1 as [_ H1]. by rewrite disclaimer_not_at_blank in H1.
  - cbn [app solid starts_with] in *. destruct (isSpace x); [|done]. cbn [negb orb] in *.
    apply andb_true_iff in H1 as [-> H1]. cbn [andb].
    by apply (starts_with_cut disclaimer s post disclaimer_solid).
Qed.

Lemma trim_marked s : lf_marked s = true -> lf_marked (trim s) = true.
Proof.
  intros H. destruct (trim_split s) as (pre & post & E & _ & Hp). rewrite E in H.
  apply lf_marked_suffix in H. by apply lf_marked_trimmed in H.
Qed.

Lemma cleanWhitespace_marked s : lf_marked (cleanWhitespace s) = true.
Proof.
  unfold cleanWhitespace. apply trim_marked, separateDisclaimer_marked, trimLines_tight.
Qed.

End BlankLines.

Section Tidy.

Lemma first_line_app e r :
  no_lf e = true -> exists l ls, split_lines (e ++ r) = (e ++ l) :: ls.
Proof.
  induction e as [|c e IH]; intros H.
  - destruct (split_lines_cons r) as (l & ls & E). by exists l, ls.
  - simpl in H. apply andb_true_iff in H as [H1 H2]. apply negb_true_iff in H1.
    destruct (IH H2) as (l & ls & E). exists l, ls. cbn [app split_lines].
    by rewrite H1, E.
Qed.

Lemma first_line_solid s l :
  solid s = true -> split_lines s !! 0%nat = Some l -> blank_line l = false.
Proof.
  destruct s as [|c s]; [done|]. cbn [solid split_lines]. intros Hc.
  assert ((c =? LF) = false) as ->.
  { destruct (c =? LF) eqn:E; [|done]. apply N.eqb_eq in E as ->. done. }
  destruct (split_lines s); intros [= <-]; simpl; apply negb_true_iff in Hc; by rewrite Hc.
Qed.

(** In a text where each line feed is followed by a solid character or by
    a line feed and the marker, a blank line that is not the first line is
    empty and stands right before a line that starts with the marker. *)
Lemma blank_line_precedes_marker s :
  lf_marked s = true ->
  forall i l, split_lines s !! S i = Some l -> blank_line l = true ->
    l = [] /\ exists next, split_lines s !! S (S i) = Some next /\
                           starts_with disclaimer next = true.
Proof.
  induction s as [|c s IH]; intros Hm i l Hl Hb; [done|].
  cbn [lf_marked] in Hm. apply andb_true_iff in Hm as [H1 H2].
  cbn [split_lines] in *. destruct (c =? LF) eqn:Ec.
  - cbn [negb orb] in H1. change (split_lines s !! i = Some l) in Hl.
    change (([] :: split_lines s) !! S (S i)) with (split_lines s !! S i).
    destruct i as [|i]; [|by apply IH].
    apply orb_true_iff in H1 as [H1|H1].
    + by rewrite (first_line_solid _ _ H1 Hl) in Hb.
    + apply (starts_with_split (LF :: disclaimer)) in H1.
      remember (drop (length (LF :: disclaimer)) s) as r. clear Heqr.
      rewrite H1 in *. change ((LF :: disclaimer) ++ r) with (LF :: (disclaimer ++ r)) in *.
      cbn [split_lines] in *. change (LF =? LF) with true in *. cbv iota in *.
      injection Hl as <-. split; [done|].
      destruct (first_line_app disclaimer r) as (l1 & ls & E); [done|].
      rewrite E. exists (disclaimer ++ l1). split; [done|]. apply starts_with_app.
  - destruct (split_lines_cons s) as (l0 & ls & E). rewrite E in *.
    change (ls !! i = Some l) in Hl.
    change (((c :: l0) :: ls) !! S (S i)) with ((l0 :: ls) !! S (S i)).
    apply IH; done.
Qed.

Lemma text_lines_first s l :
  leading_space s = false -> text_lines s !! 0%nat = Some l -> blank_line l = false.
Proof.
  destruct s as [|c s]; [done|]. intros H. apply first_line_solid.
  simpl in *. by rewrite H.
Qed.

Lemma text_lines_later s i :
  text_lines s !! S i = split_lines s !! S i.
Proof. by destruct s. Qed.

End Tidy.

Lemma double_space_found a b : double_space (a ++ 32 :: 32 :: b) = true.
Proof.
  induction a as [|c a IH]; [done|]. cbn [app double_space]. rewrite IH. apply orb_true_r.
Qed.

Lemma trailing_space_last t c : trailing_space (t ++ [c]) = isSpace c.
Proof. unfold trailing_space. by rewrite rev_app_distr. Qed.

(** C10.  The text that [stripHtmlTags] returns neither starts nor ends with
    white space, holds no two spaces in a row, and a line of it that is
    empty or blank is an empty line right before a line that starts with the
    marker; this for any input and whatever the decoder of the browser
    does. *)
Theorem output_is_tidy (decode : jsstring -> jsstring) (html : jsstring) :
  (forall c t, stripHtmlTags decode html = c :: t -> isSpace c = false) /\
  (forall t c, stripHtmlTags decode html = t ++ [c] -> isSpace c = false) /\
  (forall a b, stripHtmlTags decode html <> a ++ 32 :: 32 :: b) /\
  (forall i l, text_lines (stripHtmlTags decode html) !! i = Some l ->
     blank_line l = true ->
     l = [] /\
     exists next, text_lines (stripHtmlTags decode html) !! S i = Some next /\
                  starts_with disclaimer next = true).
Proof.
  assert (leading_space (stripHtmlTags decode html) = false /\
          trailing_space (stripHtmlTags decode html) = false /\
          double_space (stripHtmlTags decode html) = false /\
          lf_marked (stripHtmlTags decode html) = true) as (Hl & Ht & Hd & Hm).
  { destruct html as [|c html]; [done|]. cbn [stripHtmlTags].
    split; [apply trim_leading|]. split; [apply trim_trailing|].
    split; [apply cleanWhitespace_single|apply cleanWhitespace_marked]. }
  split; [|split; [|split]].
  - intros c t E. by rewrite E in Hl.
  - intros t c E. by rewrite E, trailing_space_last in Ht.
  - intros a b E. by rewrite E, double_space_found in Hd.
  - intros [|i] l Hi Hb.
    + by rewrite (text_lines_first _ _ Hl Hi) in Hb.
    + rewrite text_lines_later in *. by apply blank_line_precedes_marker.
Qed.

Lemma output_is_tidy_witness :
  exists next,
    text_lines (stripHtmlTags decodeBasic (js "x<p>**Disclaimer:** y</p>")) !! 2%nat = Some next /\
    starts_with disclaimer next = true.
Proof.
  refine (proj2 (proj2 (proj2 (proj2
    (output_is_tidy decodeBasic (js "x<p>**Disclaimer:** y</p>")))) 1%nat [] _ _));
    vm_compute; reflexivity.
Defined.

(** ** Elements: headings, [strong] and [b] *)

Section Elements.

Lemma patterns_are_elements :
  re_nodes re_heading = element_pattern heading_open heading_close /\
  re_nodes re_strong = element_pattern strong_open strong_close /\
  re_nodes re_b = element_pattern b_open b_close.
Proof. repeat split; reflexivity. Qed.

Lemma toUpper_symbol c x :
  toUpper x = x -> in_range 65 90 x = false -> (toUpper c =? x) = (c =? x).
Proof.
  intros Hu Hx. unfold in_range in Hx. unfold toUpper in *.
  destruct ((97 <=? c) && (c <=? 122)) eqn:E; [|done].
  apply andb_true_iff in E as [E1 E2]. apply N.leb_le in E1, E2.
  transitivity false.
  - apply N.eqb_neq. intros <-. apply andb_false_iff in Hx as [Hx|Hx]; apply N.leb_gt in Hx; lia.
  - symmetry. apply N.eqb_neq. intros <-.
    destruct ((97 <=? c) && (c <=? 122)) eqn:E'; [lia|].
    apply andb_false_iff in E' as [E'|E']; apply N.leb_gt in E'; lia.
Qed.

Lemma accepts_not_gt c : accepts true (NotChr 62) c = negb (c =? 62).
Proof. simpl. f_equal. by apply toUpper_symbol. Qed.

(** A run of nodes that cannot take [<] does not match across a [<]. *)
Lemma eat_within ic atoms : forall u t r,
  forallb (fun a => negb (accepts ic a 60)) atoms = true ->
  eat ic atoms (u ++ 60 :: t) = Some r -> exists r', eat ic atoms u = Some r'.
Proof.
  induction atoms as [|a atoms IH]; intros u t r Ha H; [by eexists|].
  simpl in Ha. apply andb_true_iff in Ha as [Ha1 Ha2].
  destruct u as [|x u]; simpl in *.
  - apply negb_true_iff in Ha1. by rewrite Ha1 in H.
  - destruct (accepts ic a x); [|done]. by apply (IH u t r).
Qed.

Lemma exec_run ic atoms s g :
  exec ic (map One atoms) s g =
  match eat ic atoms s with
  | Some r => Some (r, g)
  | None => None
  end.
Proof. rewrite <- (app_nil_r (map One atoms)). by rewrite exec_ones. Qed.

Lemma test_nodes_suffix ic p v u :
  test_nodes ic p (v ++ u) = false -> test_nodes ic p u = false.
Proof.
  induction v as [|c v IH]; [done|]. cbn [app test_nodes].
  destruct (exec ic p (c :: v ++ u) no_slots); [done|]. apply IH.
Qed.

Lemma test_nodes_here ic p u :
  test_nodes ic p u = false -> exec ic p u no_slots = None.
Proof. destruct u; simpl; by destruct (exec ic p _ no_slots). Qed.

Lemma eat_not_across a atoms v x u t :
  forallb (fun a => negb (accepts true a 60)) atoms = true ->
  contains (a :: atoms) (v ++ x :: u) = false ->
  eat true (a :: atoms) (x :: u ++ 60 :: t) = None.
Proof.
  intros Ha Hc. unfold contains in Hc.
  apply test_nodes_suffix, test_nodes_here in Hc. rewrite exec_run in Hc.
  destruct (eat true (a :: atoms) (x :: u ++ 60 :: t)) as [r|] eqn:E; [|done].
  simpl in E, Hc. destruct (accepts true a x); [|done].
  apply eat_within in E as [r' E]; [|done]. by rewrite E in Hc.
Qed.

Lemma eat_app ic atoms : forall a b,
  eat ic atoms a = Some [] -> eat ic atoms (a ++ b) = Some b.
Proof.
  induction atoms as [|x atoms IH]; intros a b H.
  - simpl in H. by injection H as ->.
  - destruct a as [|c a]; [done|]. simpl in *. destruct (accepts ic x c); [by apply IH|done].
Qed.

Lemma greedy_all acc (k : jsstring -> result) attrs x t r :
  forallb acc attrs = true -> acc x = false -> k (x :: t) = Some r ->
  greedy acc k (attrs ++ x :: t) = Some r.
Proof.
  intros Ha Hx Hk. induction attrs as [|c attrs IH]; simpl.
  - by rewrite Hx.
  - simpl in Ha. apply andb_true_iff in Ha as [-> Ha]. by rewrite IH.
Qed.

Lemma lazy_first acc (k : jsstring -> result) inner t r :
  forallb acc inner = true ->
  (forall v x u, inner = v ++ x :: u -> k (x :: u ++ t) = None) ->
  k t = Some r ->
  lazy acc k (inner ++ t) = Some r.
Proof.
  intros Ha Hn Hk. induction inner as [|c inner IH].
  - destruct t; simpl; by rewrite Hk.
  - simpl in Ha. apply andb_true_iff in Ha as [Hc Ha].
    cbn [app lazy]. rewrite (Hn [] c inner eq_refl), Hc.
    apply IH; [done|]. intros v x u ->. by apply (Hn (c :: v) x u).
Qed.

Variables opening closing : list atom.
Variables (a1 : atom) (atoms1 : list atom) (a2 : atom) (atoms2 : list atom).
Hypothesis opening_shape : opening = a1 :: atoms1.
Hypothesis closing_shape : closing = a2 :: atoms2.
Hypothesis opening_tail : forallb (fun a => negb (accepts true a 60)) atoms1 = true.
Hypothesis closing_tail : forallb (fun a => negb (accepts true a 60)) atoms2 = true.

(** The match of an element whose closing tag is the first one after the
    opening tag, and on the same line. *)
Lemma exec_element tag attrs inner t rest :
  eat true opening tag = Some [] ->
  free_of 62 attrs = true ->
  one_line inner = true ->
  contains closing inner = false ->
  eat true closing (60 :: t) = Some [] ->
  exec true (element_pattern opening closing)
    (tag ++ attrs ++ 62 :: inner ++ (60 :: t) ++ rest) no_slots =
  Some (rest, Slots (inner ++ (60 :: t) ++ rest) ((60 :: t) ++ rest)).
Proof.
  intros Htag Hattrs Hline Hin Hclose.
  unfold element_pattern. rewrite exec_ones, (eat_app _ _ _ _ Htag).
  cbn [app exec].
  apply greedy_all.
  - unfold free_of in Hattrs. clear -Hattrs.
    induction attrs as [|c attrs IHa]; [done|]. cbn [forallb] in *.
    apply andb_true_iff in Hattrs as [H1 H2]. by rewrite accepts_not_gt, H1, IHa.
  - done.
  - cbn [exec accepts canonicalize toUpper]. change (62 =? 62) with true. cbv iota.
    cbn [exec at_close]. apply lazy_first.
    + exact Hline.
    + intros v x u ->. cbn [exec]. rewrite exec_run.
      change ((x :: u ++ (60 :: t) ++ rest)) with (x :: u ++ 60 :: (t ++ rest)).
      rewrite closing_shape in *. by rewrite (eat_not_across _ _ v).
    + cbn [exec]. rewrite exec_run.
      pose proof (eat_app _ _ (60 :: t) rest Hclose) as E. cbn [app] in E.
      by rewrite E.
Qed.

Variable tpl : list piece.

Lemma replace_before_element pre s :
  contains opening pre = false ->
  replaceFrom true (element_pattern opening closing) tpl 0 (pre ++ 60 :: s) =
  pre ++ replaceFrom true (element_pattern opening closing) tpl 0 (60 :: s).
Proof.
  induction pre as [|c pre IH]; intros Hc; [done|].
  cbn [app]. rewrite replaceFrom_no_match.
  - f_equal. apply IH. by apply (test_nodes_suffix _ _ [c]) in Hc.
  - unfold element_pattern. rewrite exec_ones. rewrite opening_shape in *.
    by rewrite (eat_not_across _ _ []).
Qed.

Lemma replace_element pre tag attrs inner t rest :
  contains opening pre = false ->
  eat true opening (60 :: tag) = Some [] ->
  free_of 62 attrs = true ->
  one_line inner = true ->
  contains closing inner = false ->
  eat true closing (60 :: t) = Some [] ->
  replaceFrom true (element_pattern opening closing) tpl 0
    (pre ++ (60 :: tag) ++ attrs ++ 62 :: inner ++ (60 :: t) ++ rest) =
  pre ++ expand tpl (Slots (inner ++ (60 :: t) ++ rest) ((60 :: t) ++ rest))
      ++ replaceFrom true (element_pattern opening closing) tpl 0 rest.
Proof.
  intros Hpre Htag Hattrs Hline Hin Hclose.
  cbn [app]. rewrite replace_before_element by done. f_equal.
  pose proof (exec_element (60 :: tag) attrs inner t rest Htag Hattrs Hline Hin Hclose) as E.
  cbn [app] in E.
  replace (tag ++ attrs ++ 62 :: inner ++ 60 :: t ++ rest)
    with ((tag ++ attrs ++ 62 :: inner ++ 60 :: t) ++ rest) in *
    by (rewrite <- !app_assoc; cbn [app]; rewrite <- !app_assoc; reflexivity).
  by rewrite (replaceFrom_match _ _ _ _ _ _ _ E).
Qed.

Lemma group1_inner inner tail :
  group1 (Slots (inner ++ tail) tail) = inner.
Proof.
  unfold group1. cbn [at_open at_close]. rewrite length_app.
  replace (length inner + length tail - length tail)%nat with (length inner) by lia.
  by rewrite take_app_length.
Qed.

End Elements.

(** ** The pipeline on given texts *)

Lemma stripHtmlTags_nonempty decode html :
  html <> [] -> stripHtmlTags decode html = cleanWhitespace (decode (convertMarkup html)).
Proof. by destruct html. Qed.

Lemma decodeBasic_plain : decodes_plain decodeBasic.
Proof.
  intros s. unfold decodeBasic. induction s as [|c s IH]; [done|].
  cbn [plain_text forallb decodeFrom]. intros H. apply andb_true_iff in H as [H1 H2].
  apply negb_true_iff in H1. apply orb_false_elim in H1 as [H1 H3].
  apply orb_false_elim in H1 as [H1 H4]. rewrite H1, H4, H3. f_equal. by apply IH.
Qed.

(** Run [stripHtmlTags] on a given text, for a decoder known on plain text. *)
Ltac pipeline H :=
  rewrite stripHtmlTags_nonempty by (by vm_compute);
  match goal with
  | |- cleanWhitespace (?d (convertMarkup ?x)) = _ =>
      let t := eval vm_compute in (convertMarkup x) in
      replace (convertMarkup x) with t by (vm_compute; reflexivity);
      rewrite (H t) by (vm_compute; reflexivity);
      vm_compute; reflexivity
  end.

Lemma eat_letters m : forall t,
  map toUpper t = map toUpper m -> eat true (map Chr m) t = Some [].
Proof.
  induction m as [|a m IH]; intros [|c t] H; try done.
  injection H as H1 H2. cbn [map eat accepts canonicalize]. rewrite H1, N.eqb_refl.
  by apply IH.
Qed.

Lemma upper_lt c : toUpper c = 60 -> c = 60.
Proof.
  intros H. apply N.eqb_eq. rewrite <- (toUpper_symbol c 60) by done. by apply N.eqb_eq.
Qed.

(** C4, at an input where the code departs from it.  A script block, or a
    style block, whose content spans lines is left alone by the first two
    substitutions ([.] takes no line terminator); the later removal of tags
    then strips the two tags and keeps the content, which reaches the
    output. *)
Theorem multi_line_script_reaches_output (decode : jsstring -> jsstring) :
  decodes_plain decode ->
  removeScripts (js "<script>" ++ [LF] ++ js "alert(1)" ++ [LF] ++ js "</script>ok") =
    js "<script>" ++ [LF] ++ js "alert(1)" ++ [LF] ++ js "</script>ok" /\
  stripHtmlTags decode (js "<script>" ++ [LF] ++ js "alert(1)" ++ [LF] ++ js "</script>ok") =
    js "alert(1)" ++ [LF] ++ js "ok" /\
  removeStyles (js "<style>" ++ [LF] ++ js "p { color: red }" ++ [LF] ++ js "</style>ok") =
    js "<style>" ++ [LF] ++ js "p { color: red }" ++ [LF] ++ js "</style>ok" /\
  stripHtmlTags decode (js "<style>" ++ [LF] ++ js "p { color: red }" ++ [LF] ++ js "</style>ok") =
    js "p { color: red }" ++ [LF] ++ js "ok" /\
  stripHtmlTags decode (js "<script>alert(1)</script>ok") = js "ok".
Proof.
  intros H. repeat split; try (vm_compute; reflexivity); pipeline H.
Qed.

Lemma multi_line_script_reaches_output_witness :
  stripHtmlTags decodeBasic (js "<script>" ++ [LF] ++ js "alert(1)" ++ [LF] ++ js "</script>ok") =
    js "alert(1)" ++ [LF] ++ js "ok".
Proof.
  exact (proj1 (proj2 (multi_line_script_reaches_output decodeBasic decodeBasic_plain))).
Defined.

(** C5, as the pattern has it.  A heading whose opening tag is closed by
    the first [>], whose inner text is on one line and holds no closing tag
    of a heading, and before which no heading opens, is replaced by a line
    feed, the inner text, a line feed, forty [=] and a line feed; the text
    after it is converted in the same way.  The letter of the tag may be in
    either case.  On the sample of the specification the whole pipeline gives
    the title, the line of forty [=] and the body on three lines. *)
Theorem heading_becomes_underlined (decode : jsstring -> jsstring)
    (pre attrs inner rest : jsstring) (h d h' d' : N) :
  contains heading_open pre = false ->
  toUpper h = 72 -> in_range 49 54 d = true ->
  free_of 62 attrs = true ->
  one_line inner = true ->
  contains heading_close inner = false ->
  toUpper h' = 72 -> in_range 49 54 d' = true ->
  decodes_plain decode ->
  convertHeadings (pre ++ [60; h; d] ++ attrs ++ 62 :: inner ++ [60; 47; h'; d'; 62] ++ rest) =
    pre ++ [LF] ++ inner ++ [LF] ++ separator ++ [LF] ++ convertHeadings rest /\
  length separator = 40%nat /\ forallb (N.eqb 61) separator = true /\
  stripHtmlTags decode (js "<h1>Title</h1><p>Body text</p>") =
    js "Title" ++ [LF] ++ separator ++ [LF] ++ js "Body text".
Proof.
  intros Hpre Hh Hd Hattrs Hline Hin Hh' Hd' Hdec.
  split; [|split; [done|split; [done|pipeline Hdec]]].
  unfold convertHeadings, replace.
  destruct patterns_are_elements as (-> & _ & _). cbn [re_ignoreCase re_heading].
  rewrite (replace_element heading_open heading_close _ _ _ _ eq_refl eq_refl eq_refl eq_refl).
  - f_equal. unfold expand, heading_template. cbn [map concat].
    rewrite group1_inner, app_nil_r. by rewrite <- !app_assoc.
  - done.
  - cbn [heading_open eat accepts canonicalize]. rewrite Hh, Hd. reflexivity.
  - done.
  - done.
  - done.
  - cbn [heading_close eat accepts canonicalize]. rewrite Hh', Hd'. reflexivity.
Qed.

Lemma heading_becomes_underlined_witness :
  convertHeadings (js "Intro " ++ [60; 72; 50] ++ js " class='t'" ++ 62 :: js "Results"
                   ++ [60; 47; 104; 50; 62] ++ js " tail") =
    js "Intro " ++ [LF] ++ js "Results" ++ [LF] ++ separator ++ [LF]
    ++ convertHeadings (js " tail") /\
  length separator = 40%nat /\ forallb (N.eqb 61) separator = true /\
  stripHtmlTags decodeBasic (js "<h1>Title</h1><p>Body text</p>") =
    js "Title" ++ [LF] ++ separator ++ [LF] ++ js "Body text".
Proof.
  apply (heading_becomes_underlined decodeBasic (js "Intro ") (js " class='t'")
           (js "Results") (js " tail") 72 50 104 50);
    first [reflexivity | apply decodeBasic_plain].
Defined.

(** C5 as stated fails.  An attribute value that holds [>] ends the opening
    tag early for the pattern, and the rest of the tag comes out as part of
    the heading; a heading whose text spans two lines is not converted at
    all, only stripped of its tags. *)
Lemma heading_outside_the_pattern :
  stripHtmlTags decodeBasic (js "<h1 title='a>b'>T</h1>") =
    js "b'>T" ++ [LF] ++ separator /\
  js "b'>T" ++ [LF] ++ separator <> js "T" ++ [LF] ++ separator /\
  convertHeadings (js "<h2>Line one" ++ [LF] ++ js "Line two</h2>") =
    js "<h2>Line one" ++ [LF] ++ js "Line two</h2>" /\
  stripHtmlTags decodeBasic (js "<h2>Line one" ++ [LF] ++ js "Line two</h2>") =
    js "Line one" ++ [LF] ++ js "Line two".
Proof. repeat split; by vm_compute. Qed.

(** C6, as the patterns have it.  A [strong] element, and after that step a
    [b] element, whose opening tag is closed by the first [>], whose inner
    text is on one line and holds no closing tag of its kind, and before
    which no such element opens, is replaced by its inner text between two
    pairs of asterisks; the letters of the tags may be in either case.  On
    the sample of the specification the whole pipeline gives the bold word
    between asterisks. *)
Theorem bold_becomes_asterisks (decode : jsstring -> jsstring)
    (pre open attrs inner close rest : jsstring) :
  free_of 62 attrs = true ->
  one_line inner = true ->
  decodes_plain decode ->
  (contains strong_open pre = false ->
   map toUpper open = js "<STRONG" -> map toUpper close = js "</STRONG>" ->
   contains strong_close inner = false ->
   convertStrong (pre ++ open ++ attrs ++ 62 :: inner ++ close ++ rest) =
     pre ++ js "**" ++ inner ++ js "**" ++ convertStrong rest) /\
  (contains b_open pre = false ->
   map toUpper open = js "<B" -> map toUpper close = js "</B>" ->
   contains b_close inner = false ->
   convertB (pre ++ open ++ attrs ++ 62 :: inner ++ close ++ rest) =
     pre ++ js "**" ++ inner ++ js "**" ++ convertB rest) /\
  stripHtmlTags decode (js "<strong>Bold</strong> plain") = js "**Bold** plain".
Proof.
  intros Hattrs Hline Hdec. split; [|split; [|pipeline Hdec]].
  - intros Hpre Ho Hc Hin.
    destruct open as [|o open]; [done|]. destruct close as [|c close]; [done|].
    injection Ho as Ho1 Ho. injection Hc as Hc1 Hc.
    apply upper_lt in Ho1 as ->. apply upper_lt in Hc1 as ->.
    unfold convertStrong, replace.
    destruct patterns_are_elements as (_ & -> & _). cbn [re_ignoreCase re_strong].
    rewrite (replace_element strong_open strong_close _ _ _ _ eq_refl eq_refl eq_refl eq_refl);
      try done.
    + f_equal. unfold expand, bold_template. cbn [map concat].
      rewrite group1_inner, app_nil_r. by rewrite <- !app_assoc.
    + apply (eat_letters (js "<strong") (60 :: open)). cbn [map]. by rewrite Ho.
    + apply (eat_letters (js "</strong>") (60 :: close)). cbn [map]. by rewrite Hc.
  - intros Hpre Ho Hc Hin.
    destruct open as [|o open]; [done|]. destruct close as [|c close]; [done|].
    injection Ho as Ho1 Ho. injection Hc as Hc1 Hc.
    apply upper_lt in Ho1 as ->. apply upper_lt in Hc1 as ->.
    unfold convertB, replace.
    destruct patterns_are_elements as (_ & _ & ->). cbn [re_ignoreCase re_b].
    rewrite (replace_element b_open b_close _ _ _ _ eq_refl eq_refl eq_refl eq_refl);
      try done.
    + f_equal. unfold expand, bold_template. cbn [map concat].
      rewrite group1_inner, app_nil_r. by rewrite <- !app_assoc.
    + apply (eat_letters (js "<b") (60 :: open)). cbn [map]. by rewrite Ho.
    + apply (eat_letters (js "</b>") (60 :: close)). cbn [map]. by rewrite Hc.
Qed.

Lemma bold_becomes_asterisks_witness :
  convertStrong (js "a " ++ js "<Strong" ++ js " id=x" ++ 62 :: js "very" ++ js "</STRONG>"
                 ++ js " b") =
    js "a " ++ js "**" ++ js "very" ++ js "**" ++ convertStrong (js " b") /\
  stripHtmlTags decodeBasic (js "<strong>Bold</strong> plain") = js "**Bold** plain".
Proof.
  pose proof (bold_becomes_asterisks decodeBasic (js "a ") (js "<Strong") (js " id=x")
                (js "very") (js "</STRONG>") (js " b")
                eq_refl eq_refl decodeBasic_plain) as (H1 & _ & H3).
  split; [apply H1; reflexivity | exact H3].
Defined.

(** C6 as stated fails.  An attribute value that holds [>] ends the opening
    tag early for the pattern, and the rest of the tag comes out between the
    asterisks; bold text that spans two lines gets no asterisks. *)
Lemma bold_outside_the_pattern :
  stripHtmlTags decodeBasic (js "<b title='x>y'>T</b>") = js "**y'>T**" /\
  js "**y'>T**" <> js "**T**" /\
  convertB (js "<b>one" ++ [LF] ++ js "two</b>") = js "<b>one" ++ [LF] ++ js "two</b>" /\
  stripHtmlTags decodeBasic (js "<b>one" ++ [LF] ++ js "two</b>") =
    js "one" ++ [LF] ++ js "two".
Proof. repeat split; by vm_compute. Qed.

(** ** Normalizing a normalized text *)

Section Fixpoints.

(** A pattern that starts with [<] leaves a text without [<] as it is. *)
Lemma replace_needs_lt ic p tpl s :
  free_of 60 s = true -> replaceFrom ic (One (Chr 60) :: p) tpl 0 s = s.
Proof.
  induction s as [|c s IH]; intros H; [done|].
  cbn [free_of forallb] in H. apply andb_true_iff in H as [H1 H2].
  rewrite replaceFrom_no_match; [by rewrite IH|].
  cbn [exec accepts]. apply negb_true_iff in H1.
  destruct ic; cbn [canonicalize];
    [change (toUpper 60) with 60; rewrite toUpper_symbol by done|]; by rewrite H1.
Qed.

Lemma convertMarkup_plain s : free_of 60 s = true -> convertMarkup s = s.
Proof.
  intros H. unfold convertMarkup.
  assert (removeScripts s = s) as -> by exact (replace_needs_lt true _ [] s H).
  assert (removeStyles s = s) as -> by exact (replace_needs_lt true _ [] s H).
  assert (convertHeadings s = s) as -> by exact (replace_needs_lt true _ _ s H).
  assert (convertParagraphs s = s) as -> by exact (replace_needs_lt true _ _ s H).
  assert (convertDivs s = s) as -> by exact (replace_needs_lt true _ _ s H).
  assert (convertBreaks s = s) as -> by exact (replace_needs_lt true _ _ s H).
  assert (convertStrong s = s) as -> by exact (replace_needs_lt true _ _ s H).
  assert (convertB s = s) as -> by exact (replace_needs_lt true _ _ s H).
  exact (replace_needs_lt false _ [] s H).
Qed.

Lemma collapseSpaces_id s : double_space s = false -> collapseSpaces s = s.
Proof.
  unfold collapseSpaces, replace. cbn [re_ignoreCase re_spaces].
  induction s as [|c s IH]; intros H; [done|].
  rewrite double_space_cons in H. apply orb_false_elim in H as [H1 H2].
  destruct (c =? 32) eqn:E.
  - cbn [andb] in H1. apply N.eqb_eq in E as ->.
    assert (skip (fun x => x =? 32) s = s) as Hk.
    { destruct s as [|d s]; [done|]. simpl in *. by rewrite H1. }
    pose proof (exec_spaces (32 :: s)) as Hx. cbn [N.eqb Pos.eqb] in Hx.
    change (32 =? 32) with true in Hx. cbv iota in Hx. rewrite Hk in Hx.
    change (32 :: s) with (32 :: [] ++ s) in Hx |- *.
    rewrite (replaceFrom_match _ _ _ _ _ _ _ Hx). cbn [app expand map concat].
    f_equal. by apply IH.
  - rewrite replaceFrom_no_match; [by rewrite IH|].
    pose proof (exec_spaces (c :: s)) as Hx. cbv beta iota in Hx. by rewrite E in Hx.
Qed.

Lemma collapseNewlines_id s : lf_tight s = true -> collapseNewlines s = s.
Proof.
  unfold collapseNewlines, replace. cbn [re_ignoreCase re_newlines].
  induction s as [|c s IH]; intros H; [done|].
  cbn [lf_tight] in H. apply andb_true_iff in H as [H1 H2].
  rewrite replaceFrom_no_match; [by rewrite IH|].
  change (re_nodes (RegExp [One (Chr LF); Rep Plus (Chr LF)] false)) with (re_nodes re_newlines).
  rewrite exec_newlines. destruct s as [|d s]; [done|].
  destruct (c =? LF); [|done]. cbn [negb orb solid andb] in *.
  destruct (d =? LF) eqn:E; [|done]. apply N.eqb_eq in E as ->. done.
Qed.

Lemma starts_with_longer m : forall s post,
  starts_with m s = true -> starts_with m (s ++ post) = true.
Proof.
  induction m as [|a m IH]; intros s post H; [done|]. destruct s as [|c s]; [done|].
  simpl in *. apply andb_true_iff in H as [-> H]. by apply IH.
Qed.

End Fixpoints.

Section Idempotence.

Lemma trimLines_lines u :
  exists ls, trimLines u = join_lines ls /\ Forall trimmed_line ls.
Proof.
  eexists. split; [reflexivity|]. apply List.Forall_forall. intros l Hl.
  apply List.filter_In in Hl as [Hl Hn]. apply List.in_map_iff in Hl as (l0 & <- & Hl0).
  repeat split; [done|apply trim_leading|apply trim_trailing|].
  apply trim_no_lf. pose proof (split_no_lf u) as Hf.
  rewrite List.Forall_forall in Hf. by apply Hf.
Qed.

Lemma trimmed_line_solid l : trimmed_line l -> solid l = true /\ no_lf l = true.
Proof.
  intros (Hn & Hl & _ & Hf). split; [|done].
  destruct l as [|c l]; [done|]. simpl in *. by rewrite Hl.
Qed.

Lemma join_nonempty l ls : nonempty l = true -> nonempty (join_lines (l :: ls)) = true.
Proof. destruct l; [done|]. by destruct ls. Qed.

Lemma trailing_space_app a b :
  nonempty b = true -> trailing_space (a ++ b) = trailing_space b.
Proof.
  unfold trailing_space. rewrite rev_app_distr. intros H.
  destruct b as [|c b] using rev_ind; [done|]. by rewrite rev_app_distr.
Qed.

Lemma trimLines_join_id ls :
  Forall trimmed_line ls -> trimLines (join_lines ls) = join_lines ls.
Proof.
  intros H. destruct ls as [|l0 ls0] eqn:E; [done|]. rewrite <- E in *.
  unfold trimLines. rewrite split_join.
  - f_equal. clear E. induction H as [|l ls (Hn & Hl & Ht & _) _ IH]; [done|].
    cbn [map List.filter]. rewrite trim_id by done. by rewrite Hn, IH.
  - by rewrite E.
  - eapply Forall_impl; [exact H|]. by intros l (_ & _ & _ & Hf).
Qed.

End Idempotence.

(** *** The second pass when no line was broken in front of the marker *)

Section SecondPass.

Lemma mark_match s :
  separateDisclaimer (disclaimer ++ s) = LF :: disclaimer ++ separateDisclaimer s.
Proof.
  unfold separateDisclaimer, replace. cbn [re_ignoreCase].
  pose proof (exec_disclaimer (disclaimer ++ s)) as E.
  rewrite starts_with_app, drop_app_length in E.
  change (disclaimer ++ s) with (42 :: tail disclaimer ++ s) in E |- * at 1.
  rewrite (replaceFrom_match _ _ _ _ _ _ _ E).
  change (42 :: tail disclaimer ++ s) with (disclaimer ++ s).
  unfold expand. cbn [map concat]. by rewrite group1_disclaimer, app_nil_r.
Qed.

Lemma mark_no_match c s :
  starts_with disclaimer (c :: s) = false ->
  separateDisclaimer (c :: s) = c :: separateDisclaimer s.
Proof.
  intros H. unfold separateDisclaimer, replace. cbn [re_ignoreCase].
  apply replaceFrom_no_match. by rewrite exec_disclaimer, H.
Qed.

Lemma starts_with_line m : forall a r,
  no_lf m = true -> starts_with m (a ++ LF :: r) = starts_with m a.
Proof.
  induction m as [|x m IH]; intros a r Hm; [done|].
  cbn [no_lf forallb] in Hm. apply andb_true_iff in Hm as [Hx Hm].
  destruct a as [|c a]; cbn [app starts_with].
  - apply negb_true_iff in Hx. by rewrite Hx.
  - by rewrite IH.
Qed.

Lemma disclaimer_no_lf : no_lf disclaimer = true.
Proof. by vm_compute. Qed.

Lemma drop_no_lf n l : no_lf l = true -> no_lf (drop n l) = true.
Proof.
  intros H. rewrite <- (take_drop n l) in H. rewrite no_lf_app in H.
  by apply andb_true_iff in H as [_ H].
Qed.

(** Line 225 works line by line. *)
Lemma mark_line l r :
  no_lf l = true ->
  separateDisclaimer (l ++ LF :: r) = separateDisclaimer l ++ LF :: separateDisclaimer r.
Proof.
  assert (forall n l, (length l < n)%nat -> no_lf l = true ->
    separateDisclaimer (l ++ LF :: r) = separateDisclaimer l ++ LF :: separateDisclaimer r)
    as H; [|intros Hl; apply (H (S (length l))); [lia|done]].
  clear l. induction n as [|n IH]; intros l Hn Hl; [lia|].
  destruct l as [|c l].
  - cbn [app]. by rewrite mark_no_match.
  - destruct (starts_with disclaimer (c :: l)) eqn:E.
    + apply starts_with_split in E. rewrite E, <- app_assoc, !mark_match.
      rewrite IH; [done| |by apply drop_no_lf].
      rewrite length_drop. simpl in Hn |- *. lia.
    + cbn [app]. rewrite !mark_no_match; [|done|].
      * cbn [no_lf forallb] in Hl. apply andb_true_iff in Hl as [_ Hl].
        rewrite IH; [done| |done]. simpl in Hn. lia.
      * change (c :: l ++ LF :: r) with ((c :: l) ++ LF :: r).
        by rewrite starts_with_line by apply disclaimer_no_lf.
Qed.

Lemma mark_lines ls :
  Forall (fun l => no_lf l = true) ls ->
  separateDisclaimer (join_lines ls) = join_lines (map separateDisclaimer ls).
Proof.
  induction ls as [|l ls IH]; intros H; [done|]. inversion H; subst.
  destruct ls as [|l2 ls]; [done|].
  cbn [map]. rewrite !join_cons, mark_line by done. f_equal. f_equal. by apply IH.
Qed.

Lemma broken_suffix a b :
  broken_before_marker b = true -> broken_before_marker (a ++ b) = true.
Proof.
  intros H. induction a as [|c a IH]; [done|]. cbn [app broken_before_marker].
  rewrite IH. apply orb_true_r.
Qed.

Lemma broken_prefix a b :
  broken_before_marker a = true -> broken_before_marker (a ++ b) = true.
Proof.
  induction a as [|c a IH]; [done|]. cbn [app broken_before_marker]. intros H.
  apply orb_true_iff in H as [H|H]; [|rewrite IH by done; apply orb_true_r].
  apply andb_true_iff in H as [-> H]. by rewrite (starts_with_longer _ _ b H).
Qed.

(** A match inside a line leaves a break behind whatever stands before it. *)
Lemma mark_breaks s :
  no_lf s = true ->
  separateDisclaimer s = s \/
  forall c, (c =? LF) = false -> broken_before_marker (c :: separateDisclaimer s) = true.
Proof.
  unfold separateDisclaimer, replace.
  apply (scan_ind false (re_nodes re_disclaimer) [Text [LF]; Group1]
    (fun s out => no_lf s = true ->
       out = s \/ forall c, (c =? LF) = false -> broken_before_marker (c :: out) = true)).
  - apply productive_disclaimer.
  - by left.
  - intros c0 t out _ IH H. cbn [no_lf forallb] in H. apply andb_true_iff in H as [H0 H].
    destruct (IH H) as [->|Hb]; [by left|right].
    intros c Hc. apply negb_true_iff in H0.
    change (broken_before_marker (c :: c0 :: out))
      with ((negb (c =? LF) && starts_with (LF :: disclaimer) (c0 :: out))
            || broken_before_marker (c0 :: out)).
    rewrite (Hb c0 H0). apply orb_true_r.
  - intros c0 pre rest g out H _ _. right. intros c Hc.
    apply expand_disclaimer in H as [_ ->]. cbn [broken_before_marker].
    rewrite Hc. cbn [negb andb].
    by rewrite (starts_with_app (LF :: disclaimer) out).
Qed.

Lemma disclaimer_last : exists m, disclaimer = m ++ [42].
Proof. by exists (js "**Disclaimer:*"). Qed.

Lemma mark_trimmed_line l :
  trimmed_line l ->
  separateDisclaimer l = set_off l \/ broken_before_marker (separateDisclaimer l) = true.
Proof.
  intros (Hn & _ & _ & Hl). unfold set_off.
  destruct (starts_with disclaimer l) eqn:E.
  - apply starts_with_split in E. rewrite E, mark_match.
    destruct (mark_breaks (drop (length disclaimer) l)) as [->|Hb]; [by apply drop_no_lf|by left|].
    right. destruct disclaimer_last as (m & Em).
    set (X := separateDisclaimer (drop (length disclaimer) l)) in *.
    replace (disclaimer ++ X) with (m ++ 42 :: X)
      by (rewrite Em, <- app_assoc; reflexivity).
    apply (broken_suffix (LF :: m) (42 :: X)). by apply Hb.
  - destruct l as [|c l]; [done|]. rewrite mark_no_match by done.
    cbn [no_lf forallb] in Hl. apply andb_true_iff in Hl as [Hc Hl].
    apply negb_true_iff in Hc.
    destruct (mark_breaks l Hl) as [->|Hb]; [by left|right; by apply Hb].
Qed.

Lemma broken_join l ls :
  In l ls -> broken_before_marker l = true -> broken_before_marker (join_lines ls) = true.
Proof.
  induction ls as [|l0 ls IH]; [done|]. intros [->|Hin] Hb.
  - destruct ls; [done|]. rewrite join_cons. by apply broken_prefix.
  - destruct ls as [|l2 ls]; [done|]. rewrite join_cons.
    apply broken_suffix. change (LF :: ?x) with ([LF] ++ x). apply broken_suffix. by apply IH.
Qed.

(** With no line broken in front of the marker, line 225 has set off whole
    lines only. *)
Lemma mark_sets_off ls :
  Forall trimmed_line ls ->
  broken_before_marker (separateDisclaimer (join_lines ls)) = false ->
  separateDisclaimer (join_lines ls) = join_lines (map set_off ls).
Proof.
  intros Hls Hb. rewrite mark_lines in *
    by (eapply Forall_impl; [exact Hls|]; by intros l (_ & _ & _ & Hf)).
  f_equal. apply map_ext_in. intros l Hl.
  rewrite List.Forall_forall in Hls.
  destruct (mark_trimmed_line l (Hls l Hl)) as [->|Hx]; [done|].
  rewrite (broken_join (separateDisclaimer l)) in Hb; [done| |done].
  apply List.in_map_iff. by exists l.
Qed.

Lemma join_trailing ls :
  Forall (fun l => nonempty l = true /\ trailing_space l = false) ls ->
  trailing_space (join_lines ls) = false.
Proof.
  induction ls as [|l ls IH]; intros H; [done|].
  inversion H as [|? ? (Hn & Ht) Hf]; subst.
  destruct ls as [|l2 ls]; [done|].
  rewrite join_cons. change (l ++ LF :: join_lines (l2 :: ls))
    with (l ++ [LF] ++ join_lines (l2 :: ls)).
  inversion Hf as [|? ? (Hn2 & _) _]; subst.
  rewrite trailing_space_app by done.
  rewrite trailing_space_app by (by apply join_nonempty). by apply IH.
Qed.

Lemma set_off_end l :
  trimmed_line l -> nonempty (set_off l) = true /\ trailing_space (set_off l) = false.
Proof.
  intros (Hn & _ & Ht & _). unfold set_off. destruct (starts_with disclaimer l); [|done].
  split; [done|]. change (LF :: l) with ([LF] ++ l). by rewrite trailing_space_app.
Qed.

Lemma join_cons_char c l ls : join_lines ((c :: l) :: ls) = c :: join_lines (l :: ls).
Proof. by destruct ls. Qed.

(** What [trim] makes of a text whose marker lines were set off. *)
Lemma trim_set_off l ls :
  Forall trimmed_line (l :: ls) ->
  trim (join_lines (map set_off (l :: ls))) = join_lines (l :: map set_off ls).
Proof.
  intros H. inversion H as [|? ? Hl Hls]; subst.
  assert (leading_space (join_lines (l :: map set_off ls)) = false) as Hlead.
  { destruct Hl as (Hn & Hl & _). destruct l as [|c l]; [done|]. by rewrite join_cons_char. }
  assert (trailing_space (join_lines (l :: map set_off ls)) = false) as Htrail.
  { apply join_trailing. constructor; [by destruct Hl as (? & _ & ? & _)|].
    apply List.Forall_forall. intros x Hx. apply List.in_map_iff in Hx as (x0 & <- & Hx0).
    apply set_off_end. rewrite List.Forall_forall in Hls. by apply Hls. }
  cbn [map]. unfold set_off at 1. destruct (starts_with disclaimer l).
  - rewrite join_cons_char. unfold trim. cbn [trimStart].
    change (isSpace LF) with true. cbv iota.
    rewrite trimStart_id by done. by apply trimEnd_id.
  - by apply trim_id.
Qed.

Lemma cn_line l s :
  no_lf l = true -> collapseNewlines (l ++ s) = l ++ collapseNewlines s.
Proof.
  unfold collapseNewlines, replace. cbn [re_ignoreCase].
  induction l as [|c l IH]; intros H; [done|].
  cbn [no_lf forallb] in H. apply andb_true_iff in H as [Hc H].
  cbn [app]. rewrite replaceFrom_no_match; [by rewrite IH|].
  rewrite exec_newlines. apply negb_true_iff in Hc.
  destruct (l ++ s); by rewrite ?Hc.
Qed.

Lemma solid_not_lf s : solid s = true -> exists x t, s = x :: t /\ (x =? LF) = false.
Proof.
  destruct s as [|x t]; [done|]. intros H. exists x, t. split; [done|].
  destruct (x =? LF) eqn:E; [|done]. apply N.eqb_eq in E as ->. done.
Qed.

Lemma cn_single s :
  solid s = true -> collapseNewlines (LF :: s) = LF :: collapseNewlines s.
Proof.
  intros H. apply solid_not_lf in H as (x & t & -> & Hx).
  unfold collapseNewlines, replace. cbn [re_ignoreCase].
  apply replaceFrom_no_match. rewrite exec_newlines. by rewrite Hx, andb_false_r.
Qed.

Lemma cn_double s :
  solid s = true -> collapseNewlines (LF :: LF :: s) = LF :: collapseNewlines s.
Proof.
  intros H. apply solid_not_lf in H as (x & t & -> & Hx).
  unfold collapseNewlines, replace. cbn [re_ignoreCase].
  pose proof (exec_newlines (LF :: LF :: x :: t)) as E. cbv beta iota in E.
  change (LF =? LF) with true in E. cbn [andb skip] in E. rewrite Hx in E.
  change (LF :: LF :: x :: t) with (LF :: [LF] ++ x :: t) in E |- *.
  by rewrite (replaceFrom_match _ _ _ _ _ _ _ E).
Qed.

Lemma solid_join_set_off l ls :
  trimmed_line l -> solid (join_lines (l :: map set_off ls)) = true.
Proof. intros H. by apply solid_join, trimmed_line_solid. Qed.

(** Line 221 takes the empty lines out again. *)
Lemma cn_set_off ls : forall l,
  Forall trimmed_line (l :: ls) ->
  collapseNewlines (join_lines (l :: map set_off ls)) = join_lines (l :: ls).
Proof.
  induction ls as [|l2 ls IH]; intros l H; inversion H as [|? ? Hl Hls]; subst.
  - apply collapseNewlines_id, lf_tight_no_lf. by destruct Hl as (_ & _ & _ & ?).
  - inversion Hls as [|? ? Hl2 _]; subst.
    cbn [map]. rewrite !join_cons.
    rewrite cn_line by (by destruct Hl as (_ & _ & _ & ?)). f_equal.
    unfold set_off at 1. destruct (starts_with disclaimer l2).
    + rewrite join_cons_char, cn_double by (by apply solid_join_set_off).
      f_equal. by apply IH.
    + rewrite cn_single by (by apply solid_join_set_off). f_equal. by apply IH.
Qed.

Lemma cleanWhitespace_set_off ls :
  Forall trimmed_line ls ->
  separateDisclaimer (join_lines ls) = join_lines (map set_off ls) ->
  double_space (trim (separateDisclaimer (join_lines ls))) = false ->
  cleanWhitespace (trim (separateDisclaimer (join_lines ls))) =
  trim (separateDisclaimer (join_lines ls)).
Proof.
  intros Hls Hm Hd. destruct ls as [|l ls]; [done|].
  rewrite Hm in *. rewrite trim_set_off in * by done.
  unfold cleanWhitespace. rewrite collapseSpaces_id by done.
  rewrite cn_set_off, trimLines_join_id by done.
  rewrite Hm. by apply trim_set_off.
Qed.

Lemma broken_blank post :
  forallb isSpace post = true -> broken_before_marker post = false.
Proof.
  induction post as [|c post IH]; intros H; [done|].
  cbn [forallb] in H. apply andb_true_iff in H as [_ H].
  cbn [broken_before_marker]. rewrite IH, orb_false_r by done.
  destruct post as [|d post]; [by rewrite andb_false_r|].
  cbn [starts_with forallb] in *. apply andb_true_iff in H as [_ H].
  by rewrite (disclaimer_not_at_blank _ H), !andb_false_r.
Qed.

Lemma broken_trimEnd a post :
  forallb isSpace post = true ->
  broken_before_marker (a ++ post) = true -> broken_before_marker a = true.
Proof.
  intros Hp. induction a as [|c a IH];
    [cbn [app]; intros H; by rewrite (broken_blank _ Hp) in H|].
  cbn [app broken_before_marker]. intros H.
  apply orb_true_iff in H as [H|H]; [|rewrite IH by done; apply orb_true_r].
  apply andb_true_iff in H as [-> H]. cbn [andb].
  destruct a as [|x a].
  - exfalso. cbn [app] in H. destruct post as [|d post]; [done|].
    cbn [starts_with forallb] in *. apply andb_true_iff in Hp as [_ Hp].
    apply andb_true_iff in H as [_ H]. by rewrite (disclaimer_not_at_blank _ Hp) in H.
  - cbn [app starts_with] in *. apply andb_true_iff in H as [-> H].
    by rewrite (starts_with_cut disclaimer a post disclaimer_solid Hp H).
Qed.

Lemma mark_head s :
  solid s = true ->
  solid (separateDisclaimer s) = true \/
  exists r, separateDisclaimer s = LF :: disclaimer ++ r.
Proof.
  intros H. destruct s as [|c s]; [done|].
  destruct (starts_with disclaimer (c :: s)) eqn:E.
  - right. apply starts_with_split in E. rewrite E, mark_match. by eexists.
  - left. by rewrite mark_no_match.
Qed.

(** [trim] does not hide a line that was broken in front of the marker. *)
Lemma broken_trim ls :
  Forall trimmed_line ls ->
  broken_before_marker (separateDisclaimer (join_lines ls)) = true ->
  broken_before_marker (trim (separateDisclaimer (join_lines ls))) = true.
Proof.
  intros Hls Hb. destruct ls as [|l ls]; [done|].
  assert (solid (join_lines (l :: ls)) = true) as Hs.
  { inversion Hls; subst. by apply solid_join, trimmed_line_solid. }
  unfold trim.
  destruct (trimEnd_split (trimStart (separateDisclaimer (join_lines (l :: ls)))))
    as (post & E & Hp).
  apply (broken_trimEnd _ post Hp). rewrite <- E.
  destruct (mark_head _ Hs) as [H|(r & H)].
  - rewrite trimStart_id; [done|]. destruct (separateDisclaimer _) as [|c t]; [done|].
    simpl in *. by apply negb_true_iff in H.
  - rewrite H in *. cbn [trimStart]. change (isSpace LF) with true. cbv iota.
    rewrite trimStart_id by done. exact Hb.
Qed.

End SecondPass.

Lemma cleanWhitespace_again t :
  broken_before_marker (cleanWhitespace t) = false ->
  cleanWhitespace (cleanWhitespace t) = cleanWhitespace t.
Proof.
  intros H. pose proof (cleanWhitespace_single t) as Hd.
  unfold cleanWhitespace in H, Hd |- * at 2 3.
  destruct (trimLines_lines (collapseNewlines (collapseSpaces t))) as (ls & E & Hls).
  rewrite E in *.
  apply cleanWhitespace_set_off; [done| |done].
  apply mark_sets_off; [done|].
  destruct (broken_before_marker (separateDisclaimer (join_lines ls))) eqn:Hb; [|done].
  by rewrite (broken_trim ls Hls Hb) in H.
Qed.

(** C7, as far as it holds.  Normalizing a normalized text changes nothing
    when that text holds no [<], is left as it is by the decoder of the
    browser, and has no line broken in front of the marker (the marker at the
    start of the text, after an empty line, or nowhere at all is fine). *)
Theorem normalizing_twice (decode : jsstring -> jsstring) (x : jsstring) :
  free_of 60 (stripHtmlTags decode x) = true ->
  decode (stripHtmlTags decode x) = stripHtmlTags decode x ->
  broken_before_marker (stripHtmlTags decode x) = false ->
  stripHtmlTags decode (stripHtmlTags decode x) = stripHtmlTags decode x.
Proof.
  intros Hlt Hdec Hm.
  destruct (stripHtmlTags decode x) as [|c y] eqn:Ey; [done|]. rewrite <- Ey in *.
  rewrite (stripHtmlTags_nonempty decode (stripHtmlTags decode x)) by (by rewrite Ey).
  rewrite convertMarkup_plain, Hdec by done.
  destruct x as [|c0 x]; [done|]. cbn [stripHtmlTags] in *. by apply cleanWhitespace_again.
Qed.

Lemma normalizing_twice_witness :
  stripHtmlTags decodeBasic
    (stripHtmlTags decodeBasic (js "<h1>Title</h1><p>Body  text</p><p>**Disclaimer:** none</p>")) =
  stripHtmlTags decodeBasic (js "<h1>Title</h1><p>Body  text</p><p>**Disclaimer:** none</p>").
Proof.
  apply (normalizing_twice decodeBasic
           (js "<h1>Title</h1><p>Body  text</p><p>**Disclaimer:** none</p>"));
    vm_compute; reflexivity.
Defined.

(** C7 as stated fails: plain text with the marker inside a line.  The first
    pass breaks the line before the marker and leaves the space in front of
    the break; the second pass trims that space and adds a blank line.  A
    second pass also decodes what the first pass left of a doubly escaped
    reference, and strips a tag that the first pass decoded into being. *)
Lemma marker_inside_a_line_moves :
  stripHtmlTags decodeBasic (js "a **Disclaimer:** b") =
    js "a " ++ [LF] ++ js "**Disclaimer:** b" /\
  stripHtmlTags decodeBasic (stripHtmlTags decodeBasic (js "a **Disclaimer:** b")) =
    js "a" ++ [LF; LF] ++ js "**Disclaimer:** b" /\
  stripHtmlTags decodeBasic (stripHtmlTags decodeBasic (js "a **Disclaimer:** b")) <>
    stripHtmlTags decodeBasic (js "a **Disclaimer:** b") /\
  stripHtmlTags decodeBasic (js "&amp;amp;") = js "&amp;" /\
  stripHtmlTags decodeBasic (js "&amp;") = js "&" /\
  stripHtmlTags decodeBasic (js "&lt;i&gt;x") = js "<i>x" /\
  stripHtmlTags decodeBasic (js "<i>x") = js "x".
Proof. repeat split; by vm_compute. Qed.
(** ** The client: facts *)

Section ClientFacts.

Variable w : world.
Variable p : page.

Arguments trim : simpl never.
Arguments stripHtmlTags : simpl never.
Arguments js : simpl never.
Arguments build_headers : simpl never.
Arguments API_URL : simpl never.
Arguments decimal : simpl never.
Arguments request_for : simpl never.
Arguments blank : simpl never.
Arguments toString : simpl never.
Arguments stored_key : simpl never.

Lemma solveCell_catch st :
  solveCell w st =
  match batch w (stored_key w) st with
  | (Returned a, st') => (Returned a, st')
  | (Threw e, st') => (Returned tt, reported e (calls st'))
  end.
Proof.
  unfold solveCell, try_catch. destruct (batch w (stored_key w) st) as [[a|e] st']; reflexivity.
Qed.

Lemma batch_first_sync_rejects k e :
  first_sync w = Some e ->
  batch w k (begin p) = (Threw e, State p opening).
Proof. intros H. unfold batch. rewrite H. reflexivity. Qed.

Lemma batch_blank k :
  first_sync w = None -> blank w (selected_value w) = true ->
  batch w k (begin p) =
  (Returned tt,
   State (error_page (js "Selected cell is empty. Please select a cell with a question.")
                     (solve_btn_disabled p)) opening).
Proof. intros H Hb. unfold batch. rewrite H, Hb. reflexivity. Qed.

Lemma batch_fetch_rejects e :
  first_sync w = None -> blank w (selected_value w) = false ->
  fetch_outcome w = inl e ->
  batch w (stored_key w) (begin p) = (Threw e, State loading_page (posted w)).
Proof. intros H Hb Hf. unfold batch. rewrite H, Hb, Hf. reflexivity. Qed.

Lemma batch_response r :
  first_sync w = None -> blank w (selected_value w) = false ->
  fetch_outcome w = inr r ->
  batch w (stored_key w) (begin p) = handle_response w r (State loading_page (posted w)).
Proof. intros H Hb Hf. unfold batch. rewrite H, Hb, Hf. reflexivity. Qed.

Lemma writes_app (l1 l2 : list call) : writes (l1 ++ l2) = writes l1 ++ writes l2.
Proof. apply List.filter_app. Qed.

Lemma fetches_app (l1 l2 : list call) : fetches (l1 ++ l2) = fetches l1 ++ fetches l2.
Proof. apply List.filter_app. Qed.

Lemma get_not_null (v : json) name st :
  v <> JNull -> get w v name st = (Returned (prop v name), st).
Proof. destruct v; try reflexivity. congruence. Qed.

Lemma truthy_prop_not_null (v : json) name : truthy (prop v name) = true -> v <> JNull.
Proof. intros H ->. discriminate. Qed.

Lemma raw_answer_run (result : json) st :
  result <> JNull -> raw_answer w result st = (Returned (answer_of w result), st).
Proof.
  intros Hn. unfold raw_answer, bind, answer_of.
  rewrite (get_not_null _ _ _ Hn).
  destruct (truthy (prop result (js "analysis"))) eqn:E.
  - unfold or_else at 1. rewrite E. reflexivity.
  - rewrite (get_not_null _ _ _ Hn). unfold or_else at 2. rewrite E. reflexivity.
Qed.

Lemma check_status_ok r st : ok r = true -> check_status w r st = (Returned tt, st).
Proof. intros H. unfold check_status. rewrite H. reflexivity. Qed.

Lemma check_status_throws r st :
  ok r = false ->
  exists e l, check_status w r st = (Threw e, State (dom st) (calls st ++ l)) /\ writes l = [].
Proof.
  intros H. unfold check_status. rewrite H. simpl.
  destruct (status r =? 401); [exists (Error (js "Invalid API key. Please check your API key.")), []; rewrite app_nil_r; destruct st; done|].
  destruct (status r =? 429); [eexists _, []; rewrite app_nil_r; destruct st; done|].
  destruct (status r =? 400); [|eexists _, []; rewrite app_nil_r; destruct st; done].
  unfold bind. simpl. destruct (json_body r) as [e|d]; simpl.
  - by exists e, [Response_json].
  - destruct d; simpl; by eexists _, [Response_json].
Qed.

Lemma after_click_settle : after_click w p = settle (batch w (stored_key w) (begin p)).
Proof.
  unfold after_click. rewrite solveCell_catch.
  destruct (batch w (stored_key w) (begin p)) as [[[]|e] st']; reflexivity.
Qed.

Lemma writes_reported e l : writes (calls (reported e l)) = writes l.
Proof. unfold reported. simpl. rewrite writes_app. simpl. apply app_nil_r. Qed.

Lemma fetches_reported e l : fetches (calls (reported e l)) = fetches l.
Proof. unfold reported. simpl. rewrite fetches_app. simpl. apply app_nil_r. Qed.

Lemma or_else_truthy (a b : option json) : truthy b = true -> truthy (or_else a b) = true.
Proof. intros H. unfold or_else. destruct (truthy a) eqn:E; congruence. Qed.

Lemma answer_of_truthy (result : json) : truthy (answer_of w result) = true.
Proof. unfold answer_of. do 2 apply or_else_truthy. reflexivity. Qed.

Ltac count_writes H :=
  simpl; rewrite ?writes_reported; simpl; rewrite ?writes_app, ?H; reflexivity.

Lemma handle_response_writes r pg l :
  writes l = [] ->
  writes (calls (settle (handle_response w r (State pg l)))) =
  if ok r then
    match json_body r with
    | inl _ => []
    | inr result =>
        if truthy (prop result (js "success")) then
          match answer_of w result with
          | Some (JStr s) => cell_writes (stripHtmlTags (decodeEntities w) s)
          | _ => []
          end
        else []
    end
  else [].
Proof.
  intros Hl. unfold handle_response. unfold bind at 1.
  destruct (ok r) eqn:Hok.
  - rewrite check_status_ok by done.
    unfold bind at 1. simpl. unfold bind at 1.
    destruct (json_body r) as [e|result]; [count_writes Hl|]. simpl.
    unfold bind at 1.
    destruct (truthy (prop result (js "success"))) eqn:Hs.
    + rewrite get_not_null by (by eapply truthy_prop_not_null).
      rewrite Hs. simpl. unfold bind at 1.
      rewrite raw_answer_run by (by eapply truthy_prop_not_null).
      unfold bind at 1.
      pose proof (answer_of_truthy result) as Ht.
      destruct (answer_of w result) as [[]|] eqn:Ha; unfold stripHtmlTags_of;
        try (rewrite Ht; count_writes Hl); try discriminate Ht.
      unfold ret, write_answer, bind, host, context_sync, bind, host. simpl.
      destruct (last_sync w); count_writes Hl.
    + destruct result; simpl in *; try discriminate;
        rewrite ?Hs; count_writes Hl.
  - destruct (check_status_throws r (State pg l) Hok) as (e & l' & -> & Hl').
    unfold settle. rewrite writes_reported. simpl. rewrite writes_app, Hl, Hl'. reflexivity.
Qed.

Lemma writes_after_click : writes (calls (after_click w p)) = written w.
Proof.
  rewrite after_click_settle. unfold written.
  destruct (first_sync w) as [e|] eqn:Hs.
  { rewrite (batch_first_sync_rejects _ _ Hs). reflexivity. }
  destruct (blank w (selected_value w)) eqn:Hb.
  { rewrite (batch_blank _ Hs Hb). reflexivity. }
  destruct (fetch_outcome w) as [e|r] eqn:Hf.
  { rewrite (batch_fetch_rejects _ Hs Hb Hf). reflexivity. }
  rewrite (batch_response _ Hs Hb Hf). apply handle_response_writes. reflexivity.
Qed.

Ltac count_fetches H :=
  simpl; rewrite ?fetches_reported; simpl; rewrite ?fetches_app, ?H; simpl;
  rewrite ?app_nil_r; reflexivity.

Lemma check_status_fetches r st :
  fetches (calls (snd (check_status w r st))) = fetches (calls st).
Proof.
  unfold check_status.
  destruct (ok r); cbn [negb]; [reflexivity|].
  destruct (status r =? 401); [reflexivity|].
  destruct (status r =? 429); [reflexivity|].
  destruct (status r =? 400); [|reflexivity].
  unfold bind. simpl. destruct (json_body r) as [e|d]; simpl.
  - rewrite fetches_app. apply app_nil_r.
  - destruct d; simpl; rewrite fetches_app; apply app_nil_r.
Qed.

Lemma handle_response_fetches r pg l :
  fetches (calls (settle (handle_response w r (State pg l)))) = fetches l.
Proof.
  unfold handle_response. unfold bind at 1.
  destruct (ok r) eqn:Hok.
  - rewrite check_status_ok by done.
    unfold bind at 1. simpl. unfold bind at 1.
    destruct (json_body r) as [e|result]; [count_fetches Hok|]. simpl.
    unfold bind at 1.
    destruct (truthy (prop result (js "success"))) eqn:Hs.
    + rewrite get_not_null by (by eapply truthy_prop_not_null).
      rewrite Hs. simpl. unfold bind at 1.
      rewrite raw_answer_run by (by eapply truthy_prop_not_null).
      unfold bind at 1.
      pose proof (answer_of_truthy result) as Ht.
      destruct (answer_of w result) as [[]|] eqn:Ha; unfold stripHtmlTags_of;
        try (rewrite Ht; count_fetches Hok); try discriminate Ht.
      unfold ret, write_answer, bind, host, context_sync, bind, host. simpl.
      destruct (last_sync w); count_fetches Hok.
    + destruct result; simpl in *; try discriminate;
        rewrite ?Hs; count_fetches Hok.
  - destruct (check_status_throws r (State pg l) Hok) as (e & l' & Hc & Hl').
    pose proof (check_status_fetches r (State pg l)) as Hf.
    rewrite Hc in *. simpl in Hf. unfold settle. rewrite fetches_reported. exact Hf.
Qed.

(** The network calls of a click, read off the world. *)
Lemma fetches_after_click :
  fetches (calls (after_click w p)) =
  match first_sync w with
  | Some _ => []
  | None =>
      if blank w (selected_value w) then []
      else [Fetch (API_URL w) (request_for w (stored_key w) (selected_value w))]
  end.
Proof.
  rewrite after_click_settle.
  destruct (first_sync w) as [e|] eqn:Hs.
  { rewrite (batch_first_sync_rejects _ _ Hs). reflexivity. }
  destruct (blank w (selected_value w)) eqn:Hb.
  { rewrite (batch_blank _ Hs Hb). reflexivity. }
  destruct (fetch_outcome w) as [e|r] eqn:Hf.
  { rewrite (batch_fetch_rejects _ Hs Hb Hf). reflexivity. }
  rewrite (batch_response _ Hs Hb Hf). rewrite handle_response_fetches. reflexivity.
Qed.

Lemma blank_text q : blank w (CStr q) = negb (nonempty (trim q)).
Proof.
  unfold blank. simpl. destruct q as [|c q]; [reflexivity|]. reflexivity.
Qed.

Lemma handle_response_success r pg l result s :
  ok r = true -> json_body r = inr result ->
  truthy (prop result (js "success")) = true ->
  answer_of w result = Some (JStr s) -> last_sync w = None ->
  handle_response w r (State pg l) =
  (Returned tt,
   State (Page (js "Solution computed successfully!") (js "status success") (js "block")
               (solve_btn_disabled pg))
         (l ++ [Response_json; Range_getOffsetRange 0 1]
            ++ cell_writes (stripHtmlTags (decodeEntities w) s)
            ++ [Context_sync; SetTimeout EnableAndHide 3000])).
Proof.
  intros Hok Hj Hs Ha Hl. unfold handle_response. unfold bind at 1.
  rewrite check_status_ok by done.
  unfold bind at 1. simpl. unfold bind at 1. rewrite Hj. simpl.
  unfold bind at 1. rewrite get_not_null by (by eapply truthy_prop_not_null).
  rewrite Hs. simpl. unfold bind at 1.
  rewrite raw_answer_run by (by eapply truthy_prop_not_null).
  rewrite Ha. unfold bind at 1. simpl.
  unfold write_answer, bind, host, context_sync, bind, host. rewrite Hl. simpl.
  rewrite <- !app_assoc. reflexivity.
Qed.

Lemma handle_response_400 r pg l :
  status r = 400 ->
  handle_response w r (State pg l) =
  match json_body r with
  | inl e => (Threw e, State pg (l ++ [Response_json]))
  | inr JNull => (Threw (type_error w (ReadOfNull (js "error"))), State pg (l ++ [Response_json]))
  | inr d =>
      (Threw (new_Error w (or_else (prop d (js "error"))
                             (Some (JStr (js "Invalid question format"))))),
       State pg (l ++ [Response_json]))
  end.
Proof.
  intros H. unfold handle_response, check_status, ok. rewrite H.
  change (negb ((200 <=? 400) && (400 <=? 299))) with true.
  change (400 =? 401) with false. change (400 =? 429) with false.
  change (400 =? 400) with true. cbv iota.
  unfold bind, host. simpl.
  destruct (json_body r) as [e|[]]; reflexivity.
Qed.

End ClientFacts.

(** C1.  A question that is empty or blank after trimming is refused on the
    spot: the handler shows "Selected cell is empty. ..." as an error and
    [fetch] is never called. *)
Theorem empty_question_is_refused (w : world) (p : page) (q : jsstring) :
  selected_value w = CStr q -> trim q = [] ->
  fetches (calls (after_click w p)) = [] /\
  (first_sync w = None ->
   after_click w p =
   State (error_page (js "Selected cell is empty. Please select a cell with a question.")
                     (solve_btn_disabled p)) opening).
Proof.
  intros Hq Ht.
  assert (blank w (selected_value w) = true) as Hb.
  { rewrite Hq, blank_text, Ht. reflexivity. }
  split.
  - rewrite fetches_after_click, Hb. by destruct (first_sync w).
  - intros Hs. rewrite after_click_settle, (batch_blank _ _ _ Hs Hb). reflexivity.
Qed.

Lemma empty_question_is_refused_witness :
  fetches (calls (after_click (sample_world (CStr (js "   ")) None (inl (Error []))) fresh_page)) = [] /\
  (first_sync (sample_world (CStr (js "   ")) None (inl (Error []))) = None ->
   after_click (sample_world (CStr (js "   ")) None (inl (Error []))) fresh_page =
   State (error_page (js "Selected cell is empty. Please select a cell with a question.")
                     (solve_btn_disabled fresh_page)) opening).
Proof.
  apply (empty_question_is_refused
           (sample_world (CStr (js "   ")) None (inl (Error []))) fresh_page (js "   "));
    reflexivity.
Defined.

Lemma build_headers_content_type (k : jsstring) :
  build_headers k !! js "Content-Type" = Some (js "application/json").
Proof.
  unfold build_headers. destruct (nonempty k).
  - rewrite lookup_insert_ne by (by vm_compute). apply lookup_singleton_eq.
  - apply lookup_singleton_eq.
Qed.

Lemma build_headers_authorization (k : jsstring) :
  build_headers k !! js "Authorization" =
  if nonempty k then Some (js "Bearer " ++ k) else None.
Proof.
  unfold build_headers. destruct (nonempty k).
  - apply lookup_insert_eq.
  - apply lookup_singleton_ne. by vm_compute.
Qed.

Lemma fetch_in_log (w : world) (p : page) url init :
  Fetch url init ∈ calls (after_click w p) ->
  url = API_URL w /\ init = request_for w (stored_key w) (selected_value w).
Proof.
  intros Hin.
  assert (In (Fetch url init) (fetches (calls (after_click w p)))) as Hf.
  { apply List.filter_In. split; [by apply list_elem_of_In | reflexivity]. }
  rewrite fetches_after_click in Hf.
  destruct (first_sync w); [destruct Hf|].
  destruct (blank w (selected_value w)); [destruct Hf|].
  destruct Hf as [Hf|[]]. by inversion Hf.
Qed.

(** C8.  Every request that a click sends carries the header
    Content-Type: application/json, and carries Authorization: Bearer
    followed by the stored credential exactly when a non-empty credential is
    stored; a question that is not blank is posted once, and the body is the
    JSON text of an object whose [question] is the text of the cell as it
    stands. *)
Theorem request_headers_and_body (w : world) (p : page) :
  (forall url init, Fetch url init ∈ calls (after_click w p) ->
     req_method init = js "POST" /\
     req_headers init !! js "Content-Type" = Some (js "application/json") /\
     req_headers init !! js "Authorization" =
       match localStorage w !! js "grantmath_api_key" with
       | Some k => if nonempty k then Some (js "Bearer " ++ k) else None
       | None => None
       end) /\
  (forall q, selected_value w = CStr q -> trim q <> [] -> first_sync w = None ->
     fetches (calls (after_click w p)) =
     [Fetch (API_URL w)
        (Request (js "POST") (build_headers (stored_key w))
           (JSON_stringify w (JObj [(js "question", JStr q)])))]).
Proof.
  split.
  - intros url init Hin. apply fetch_in_log in Hin as [_ ->].
    unfold request_for. simpl. split; [reflexivity|]. split.
    + apply build_headers_content_type.
    + rewrite build_headers_authorization. unfold stored_key.
      by destruct (localStorage w !! js "grantmath_api_key").
  - intros q Hq Ht Hs. rewrite fetches_after_click, Hs, Hq, blank_text.
    destruct (trim q); [done|]. reflexivity.
Qed.

Lemma request_headers_and_body_witness :
  fetches (calls (after_click
     (sample_world (CStr (js " 2+2 ")) (Some (js "sk-1")) (inl (Error (js "Failed to fetch"))))
     fresh_page)) =
  [Fetch GRANTMATH_API_URL
     (Request (js "POST") (build_headers (js "sk-1"))
        (js "{" ++ quote (js "question") ++ js ":" ++ quote (js " 2+2 ") ++ js "}"))].
Proof.
  apply (proj2 (request_headers_and_body
           (sample_world (CStr (js " 2+2 ")) (Some (js "sk-1"))
              (inl (Error (js "Failed to fetch")))) fresh_page) (js " 2+2 "));
    [reflexivity | by vm_compute | reflexivity].
Defined.

(** C9.  On a failure path -- an empty selected cell, a transport error, a
    status outside 200-299, a 2xx body whose [success] is not truthy -- the
    click assigns nothing to the output cell, neither a value nor a format;
    whenever something is assigned, the click is on the success path. *)
Theorem writes_only_on_success (w : world) (p : page) :
  (failure_path w -> writes (calls (after_click w p)) = []) /\
  (writes (calls (after_click w p)) <> [] -> success_path w).
Proof.
  rewrite writes_after_click. unfold written, failure_path, success_path. split.
  - intros H. destruct (first_sync w); [reflexivity|].
    destruct H as [Hb|[(e & He)|[(r & Hr & Hok)|(r & result & Hr & Hok & Hj & Hs)]]].
    + by rewrite Hb.
    + rewrite He. by destruct (blank _ _).
    + rewrite Hr, Hok. by destruct (blank _ _).
    + rewrite Hr, Hok, Hj, Hs. by destruct (blank _ _).
  - intros H. destruct (first_sync w); [done|].
    destruct (blank w (selected_value w)); [done|].
    destruct (fetch_outcome w) as [e|r]; [done|].
    destruct (ok r) eqn:Hok; [|done].
    destruct (json_body r) as [e|result] eqn:Hj; [done|].
    destruct (truthy (prop result (js "success"))) eqn:Hs; [|done].
    repeat split. exists r, result. by rewrite Hj.
Qed.

Lemma writes_only_on_success_witness :
  writes (calls (after_click
     (sample_world (CStr (js "2+2")) None
        (json_response 200 "OK" (JObj [(js "success", JBool false); (js "error", JStr (js "oops"))])))
     fresh_page)) = [].
Proof.
  apply (proj1 (writes_only_on_success _ fresh_page)).
  right. right. right. eexists _, _. repeat split; reflexivity.
Defined.

Lemma answer_of_cases (w : world) (result : json) :
  (truthy (prop result (js "analysis")) = true ->
   answer_of w result = prop result (js "analysis")) /\
  (truthy (prop result (js "analysis")) = false ->
   truthy (prop result (js "formatted_answer")) = true ->
   answer_of w result = prop result (js "formatted_answer")) /\
  (truthy (prop result (js "analysis")) = false ->
   truthy (prop result (js "formatted_answer")) = false ->
   answer_of w result = Some (JStr (js "No answer returned"))).
Proof.
  unfold answer_of, or_else. repeat split; intros; by repeat match goal with H : _ = _ |- _ => rewrite H end.
Qed.

(** C2, as the handler has it.  For a 2xx response whose body has a truthy
    [success], line 156 takes [analysis] when that is truthy (for a string:
    not empty), else [formatted_answer] when that is truthy, else the text
    "No answer returned"; it does so without touching the page.  When the
    value taken is a string and the last [context.sync()] succeeds, the click
    ends in the success state, and what it writes to the cell is that string
    run through [stripHtmlTags]. *)
Theorem answer_is_first_truthy_field (w : world) (p : page) (r : response) (result : json) :
  first_sync w = None -> blank w (selected_value w) = false ->
  fetch_outcome w = inr r -> ok r = true -> json_body r = inr result ->
  truthy (prop result (js "success")) = true ->
  (forall st, raw_answer w result st = (Returned (answer_of w result), st)) /\
  (truthy (prop result (js "analysis")) = true ->
   answer_of w result = prop result (js "analysis")) /\
  (truthy (prop result (js "analysis")) = false ->
   truthy (prop result (js "formatted_answer")) = true ->
   answer_of w result = prop result (js "formatted_answer")) /\
  (truthy (prop result (js "analysis")) = false ->
   truthy (prop result (js "formatted_answer")) = false ->
   answer_of w result = Some (JStr (js "No answer returned"))) /\
  (forall s, answer_of w result = Some (JStr s) -> last_sync w = None ->
   after_click w p =
   State success_page (success_calls w (stripHtmlTags (decodeEntities w) s))).
Proof.
  intros Hs Hb Hf Hok Hj Ht. split; [|split; [|split; [|split]]].
  - intros st. apply raw_answer_run. by eapply truthy_prop_not_null.
  - apply answer_of_cases.
  - apply answer_of_cases.
  - apply answer_of_cases.
  - intros s Ha Hl. rewrite after_click_settle, (batch_response _ _ _ Hs Hb Hf).
    rewrite (handle_response_success _ _ _ _ _ _ Hok Hj Ht Ha Hl).
    reflexivity.
Qed.

Lemma answer_is_first_truthy_field_witness :
  after_click
    (sample_world (CStr (js "2+2")) None
       (json_response 200 "OK"
          (JObj [(js "success", JBool true); (js "analysis", JStr (js "<p>Hi</p>"))])))
    fresh_page =
  State success_page
    (success_calls
       (sample_world (CStr (js "2+2")) None
          (json_response 200 "OK"
             (JObj [(js "success", JBool true); (js "analysis", JStr (js "<p>Hi</p>"))])))
       (stripHtmlTags decodeBasic (js "<p>Hi</p>"))).
Proof.
  refine (proj2 (proj2 (proj2 (proj2
    (answer_is_first_truthy_field
       (sample_world (CStr (js "2+2")) None
          (json_response 200 "OK"
             (JObj [(js "success", JBool true); (js "analysis", JStr (js "<p>Hi</p>"))])))
       fresh_page
       (Response 200 (js "OK")
          (inr (JObj [(js "success", JBool true); (js "analysis", JStr (js "<p>Hi</p>"))])))
       (JObj [(js "success", JBool true); (js "analysis", JStr (js "<p>Hi</p>"))])
       _ _ _ _ _ _)))) (js "<p>Hi</p>") _ _); reflexivity.
Defined.

(** C2 as stated fails: with a body in which [analysis] is present and is
    the empty string, the specification promises that string, and the handler
    writes the [formatted_answer]. *)
Lemma present_but_empty_analysis_is_skipped :
  prop (JObj [(js "success", JBool true); (js "analysis", JStr []);
              (js "formatted_answer", JStr (js "x"))]) (js "analysis") = Some (JStr []) /\
  spec_answer (JObj [(js "success", JBool true); (js "analysis", JStr []);
                     (js "formatted_answer", JStr (js "x"))]) = JStr [] /\
  writes (calls (after_click
    (sample_world (CStr (js "2+2")) None
       (json_response 200 "OK"
          (JObj [(js "success", JBool true); (js "analysis", JStr []);
                 (js "formatted_answer", JStr (js "x"))])))
    fresh_page)) = cell_writes (js "x") /\
  cell_writes (js "x") <> cell_writes (stripHtmlTags decodeBasic []).
Proof. repeat split; by vm_compute. Qed.





(** ** The client: the other paths of a click *)

Section ClickPaths.

Variable w : world.

Arguments trim : simpl never.
Arguments stripHtmlTags : simpl never.
Arguments js : simpl never.
Arguments build_headers : simpl never.
Arguments API_URL : simpl never.
Arguments decimal : simpl never.
Arguments request_for : simpl never.
Arguments blank : simpl never.
Arguments toString : simpl never.
Arguments stored_key : simpl never.


(** A status outside 200-299 other than 400 throws without reading the
    body. *)
Lemma handle_response_status r st :
  ok r = false -> (status r =? 400) = false ->
  handle_response w r st =
  (Threw (if status r =? 401
          then Error (js "Invalid API key. Please check your API key.")
          else if status r =? 429
          then Error (js "Rate limit exceeded. Please wait or upgrade to Pro tier.")
          else Error (js "API error: " ++ decimal (status r) ++ 32 :: statusText r)),
   st).
Proof.
  intros Hok H4. unfold handle_response, check_status, bind. rewrite Hok, H4. cbn [negb].
  destruct (status r =? 401); [reflexivity|]. destruct (status r =? 429); reflexivity.
Qed.

(** After a 2xx status the body is read; these are the ways on from there. *)
Lemma handle_response_ok r pg l :
  ok r = true ->
  handle_response w r (State pg l) =
  match json_body r with
  | inl e => (Threw e, State pg (l ++ [Response_json]))
  | inr JNull =>
      (Threw (type_error w (ReadOfNull (js "success"))), State pg (l ++ [Response_json]))
  | inr result =>
      if truthy (prop result (js "success")) then
        match answer_of w result with
        | Some (JStr s) =>
            write_answer w (stripHtmlTags (decodeEntities w) s)
              (State pg (l ++ [Response_json]))
        | _ => (Threw (type_error w (NotAFunction (js "replace"))),
                State pg (l ++ [Response_json]))
        end
      else
        (Returned tt,
         State (error_page
                  (text_of w (or_else (prop result (js "error"))
                                (Some (JStr (js "Unknown error occurred"))))) false)
               (l ++ [Response_json]))
  end.
Proof.
  intros Hok. unfold handle_response. unfold bind at 1. rewrite check_status_ok by done.
  unfold bind at 1. simpl. unfold bind at 1.
  destruct (json_body r) as [e|result]; [reflexivity|]. simpl.
  assert (result = JNull \/ result <> JNull) as [->|Hn];
    [destruct result; by (left + right)|reflexivity|].
  unfold bind at 1. rewrite get_not_null by done.
  destruct (truthy (prop result (js "success"))) eqn:Hs.
  - cbn [negb]. unfold bind at 1. rewrite raw_answer_run by done.
    unfold bind at 1. pose proof (answer_of_truthy w result) as Ht.
    destruct (answer_of w result) as [[]|] eqn:Ha; unfold stripHtmlTags_of;
      try (rewrite Ht; by destruct result); try discriminate Ht.
    by destruct result.
  - cbn [negb]. unfold bind at 1. rewrite get_not_null by done.
    by destruct result.
Qed.

Lemma write_answer_run answer pg l :
  write_answer w answer (State pg l) =
  match last_sync w with
  | Some e =>
      (Threw e, State pg (l ++ [Range_getOffsetRange 0 1] ++ cell_writes answer
                            ++ [Context_sync]))
  | None =>
      (Returned tt,
       State (Page (js "Solution computed successfully!") (js "status success") (js "block")
                   (solve_btn_disabled pg))
             (l ++ [Range_getOffsetRange 0 1] ++ cell_writes answer
                ++ [Context_sync; SetTimeout EnableAndHide 3000]))
  end.
Proof.
  unfold write_answer, bind, host, context_sync, bind, host. simpl.
  destruct (last_sync w); simpl; rewrite <- !app_assoc; reflexivity.
Qed.

End ClickPaths.

Lemma after_click_status (w : world) (p : page) (r : response) :
  first_sync w = None -> blank w (selected_value w) = false ->
  fetch_outcome w = inr r -> ok r = false -> (status r =? 400) = false ->
  after_click w p =
  reported (if status r =? 401
            then Error (js "Invalid API key. Please check your API key.")
            else if status r =? 429
            then Error (js "Rate limit exceeded. Please wait or upgrade to Pro tier.")
            else Error (js "API error: " ++ decimal (status r) ++ 32 :: statusText r))
           (posted w).
Proof.
  intros Hs Hb Hf Hok H4.
  by rewrite after_click_settle, (batch_response _ _ _ Hs Hb Hf), handle_response_status.
Qed.

Lemma after_click_ok (w : world) (p : page) (r : response) :
  first_sync w = None -> blank w (selected_value w) = false ->
  fetch_outcome w = inr r -> ok r = true ->
  after_click w p = settle (handle_response w r (State loading_page (posted w))).
Proof. intros Hs Hb Hf Hok. by rewrite after_click_settle, (batch_response _ _ _ Hs Hb Hf). Qed.

(** How a click can end: with an error shown and the button enabled; on the
    early return for an empty cell, with the button as it was; or with the
    success shown and the timer set. *)
Lemma click_end (w : world) (p : page) :
  (exists msg, dom (after_click w p) = error_page msg false) \/
  (first_sync w = None /\ blank w (selected_value w) = true /\
   dom (after_click w p) =
   error_page (js "Selected cell is empty. Please select a cell with a question.")
              (solve_btn_disabled p)) \/
  (dom (after_click w p) = success_page /\
   exists l, calls (after_click w p) = l ++ [SetTimeout EnableAndHide 3000]).
Proof.
  destruct (first_sync w) as [e|] eqn:Hs.
  { left. rewrite after_click_settle, (batch_first_sync_rejects _ _ _ _ Hs). by eexists. }
  destruct (blank w (selected_value w)) eqn:Hb.
  { right. left. rewrite after_click_settle, (batch_blank _ _ _ Hs Hb). done. }
  destruct (fetch_outcome w) as [e|r] eqn:Hf.
  { left. rewrite after_click_settle, (batch_fetch_rejects _ _ _ Hs Hb Hf). by eexists. }
  destruct (ok r) eqn:Hok.
  - rewrite (after_click_ok _ _ _ Hs Hb Hf Hok), handle_response_ok by done.
    destruct (json_body r) as [e|result]; [left; by eexists|].
    assert (result = JNull \/ result <> JNull) as [->|Hn];
      [destruct result; by (left + right)|left; by eexists|].
    destruct (truthy (prop result (js "success"))).
    + destruct (answer_of w result) as [[]|]; try (destruct result; left; by eexists).
      rewrite write_answer_run. destruct (last_sync w).
      * destruct result; left; by eexists.
      * destruct result; try done; right; right; (split; [reflexivity|]);
          eexists; cbn [settle calls];
          change [Context_sync; SetTimeout EnableAndHide 3000]
            with ([Context_sync] ++ [SetTimeout EnableAndHide 3000]);
          rewrite !app_assoc; reflexivity.
    + destruct result; left; by eexists.
  - left. destruct (status r =? 400) eqn:H4.
    + apply N.eqb_eq in H4.
      rewrite after_click_settle, (batch_response _ _ _ Hs Hb Hf), handle_response_400 by done.
      destruct (json_body r) as [e|[]]; by eexists.
    + rewrite (after_click_status _ _ _ Hs Hb Hf Hok H4). by eexists.
Qed.


(** X2.  A click on an enabled button leaves the button disabled on the
    success path only, and then with the timer set that enables it again;
    when that timer fires the button is enabled and the status hidden. *)
Theorem button_is_released (w : world) (p : page) :
  solve_btn_disabled p = false ->
  (solve_btn_disabled (dom (after_click w p)) = true ->
   dom (after_click w p) = success_page /\
   exists l, calls (after_click w p) = l ++ [SetTimeout EnableAndHide 3000]) /\
  solve_btn_disabled (dom (snd (run_timer EnableAndHide (after_click w p)))) = false /\
  status_display (dom (snd (run_timer EnableAndHide (after_click w p)))) = js "none".
Proof.
  intros Hp. split; [|done].
  destruct (click_end w p) as [[msg E]|[(_ & _ & E)|H]]; [| |done];
    rewrite E; cbn [error_page solve_btn_disabled]; congruence.
Qed.

Lemma button_is_released_witness :
  solve_btn_disabled (dom (snd (run_timer EnableAndHide
    (after_click (sample_world (CStr (js "2+2")) None
       (json_response 200 "OK"
          (JObj [(js "success", JBool true); (js "analysis", JStr (js "4"))])))
       fresh_page)))) = false.
Proof.
  exact (proj1 (proj2 (button_is_released
    (sample_world (CStr (js "2+2")) None
       (json_response 200 "OK"
          (JObj [(js "success", JBool true); (js "analysis", JStr (js "4"))])))
    fresh_page eq_refl))).
Defined.

(** X3.  Status 401 and status 429 each show their own fixed message, whatever
    the body holds: the body is not read, nothing is written, the failure is
    logged to the console and the button enabled. *)
Theorem unauthorized_and_rate_limited (w : world) (p : page) (r : response) :
  first_sync w = None -> blank w (selected_value w) = false ->
  fetch_outcome w = inr r ->
  (status r = 401 ->
   after_click w p =
   State (error_page (js "Invalid API key. Please check your API key.") false)
     (posted w ++ [Console_error (js "Error solving question:")
                     (Error (js "Invalid API key. Please check your API key."))])) /\
  (status r = 429 ->
   after_click w p =
   State (error_page (js "Rate limit exceeded. Please wait or upgrade to Pro tier.") false)
     (posted w ++ [Console_error (js "Error solving question:")
                     (Error (js "Rate limit exceeded. Please wait or upgrade to Pro tier."))])).
Proof.
  intros Hs Hb Hf. split; intros H4;
    rewrite (after_click_status _ _ _ Hs Hb Hf) by (unfold ok; by rewrite H4);
    by rewrite H4.
Qed.

Lemma unauthorized_and_rate_limited_witness :
  after_click
    (sample_world (CStr (js "2+2")) (Some (js "bad"))
       (json_response 401 "Unauthorized" (JObj [(js "error", JStr (js "ignored"))])))
    fresh_page =
  State (error_page (js "Invalid API key. Please check your API key.") false)
    (posted (sample_world (CStr (js "2+2")) (Some (js "bad"))
               (json_response 401 "Unauthorized" (JObj [(js "error", JStr (js "ignored"))])))
     ++ [Console_error (js "Error solving question:")
           (Error (js "Invalid API key. Please check your API key."))]).
Proof.
  refine (proj1 (unauthorized_and_rate_limited
    (sample_world (CStr (js "2+2")) (Some (js "bad"))
       (json_response 401 "Unauthorized" (JObj [(js "error", JStr (js "ignored"))])))
    fresh_page
    (Response 401 (js "Unauthorized") (inr (JObj [(js "error", JStr (js "ignored"))])))
    _ _ _) _); reflexivity.
Defined.

(** X4.  Any other status outside 200-299 (not 400, 401 or 429) shows
    "API error: ", the status code in decimal, a space and the status text;
    the body is not read. *)
Theorem other_status_is_reported (w : world) (p : page) (r : response) :
  first_sync w = None -> blank w (selected_value w) = false ->
  fetch_outcome w = inr r ->
  ok r = false -> status r <> 400 -> status r <> 401 -> status r <> 429 ->
  after_click w p =
  State (error_page (js "API error: " ++ decimal (status r) ++ 32 :: statusText r) false)
    (posted w ++ [Console_error (js "Error solving question:")
                    (Error (js "API error: " ++ decimal (status r) ++ 32 :: statusText r))]).
Proof.
  intros Hs Hb Hf Hok H400 H401 H429.
  apply N.eqb_neq in H400, H401, H429.
  by rewrite (after_click_status _ _ _ Hs Hb Hf Hok H400), H401, H429.
Qed.

Lemma other_status_is_reported_witness :
  status_textContent (dom (after_click
    (sample_world (CStr (js "2+2")) None
       (inr (Response 503 (js "Service Unavailable") (inl (Error (js "not read"))))))
    fresh_page)) = js "API error: 503 Service Unavailable".
Proof.
  exact (f_equal (fun st => status_textContent (dom st))
    (other_status_is_reported
       (sample_world (CStr (js "2+2")) None
          (inr (Response 503 (js "Service Unavailable") (inl (Error (js "not read"))))))
       fresh_page
       (Response 503 (js "Service Unavailable") (inl (Error (js "not read"))))
       eq_refl eq_refl eq_refl eq_refl
       ltac:(discriminate) ltac:(discriminate) ltac:(discriminate))).
Defined.



(** X6.  A 2xx response that cannot be used ends in the [catch] block with
    nothing written: a body that does not parse shows the parser's error, a
    body that is [null] the engine's error for reading [success] of null,
    and an answer that is truthy without being a string (a number, an
    array, an object, [true]) the engine's error for calling [replace]. *)
Theorem unusable_body_is_an_error (w : world) (p : page) (r : response) :
  first_sync w = None -> blank w (selected_value w) = false ->
  fetch_outcome w = inr r -> ok r = true ->
  (forall e, json_body r = inl e ->
     after_click w p = reported e (posted w ++ [Response_json])) /\
  (json_body r = inr JNull ->
     after_click w p =
     reported (type_error w (ReadOfNull (js "success"))) (posted w ++ [Response_json])) /\
  (forall result v, json_body r = inr result ->
     truthy (prop result (js "success")) = true ->
     answer_of w result = Some v -> (forall s, v <> JStr s) ->
     after_click w p =
     reported (type_error w (NotAFunction (js "replace"))) (posted w ++ [Response_json])).
Proof.
  intros Hs Hb Hf Hok.
  rewrite (after_click_ok _ _ _ Hs Hb Hf Hok), handle_response_ok by done.
  split; [|split].
  - by intros e ->.
  - by intros ->.
  - intros result v -> Ht Ha Hv. rewrite Ht, Ha.
    destruct result; try done. destruct v; try done. by destruct (Hv s).
Qed.

Lemma unusable_body_is_an_error_witness :
  after_click
    (sample_world (CStr (js "2+2")) None
       (json_response 200 "OK"
          (JObj [(js "success", JBool true); (js "analysis", JArr [JStr (js "4")])])))
    fresh_page =
  reported (Error (js "html.replace is not a function"))
    (posted (sample_world (CStr (js "2+2")) None
       (json_response 200 "OK"
          (JObj [(js "success", JBool true); (js "analysis", JArr [JStr (js "4")])])))
     ++ [Response_json]).
Proof.
  refine (proj2 (proj2 (unusable_body_is_an_error
    (sample_world (CStr (js "2+2")) None
       (json_response 200 "OK"
          (JObj [(js "success", JBool true); (js "analysis", JArr [JStr (js "4")])])))
    fresh_page
    (Response 200 (js "OK")
       (inr (JObj [(js "success", JBool true); (js "analysis", JArr [JStr (js "4")])])))
    eq_refl eq_refl eq_refl eq_refl))
    (JObj [(js "success", JBool true); (js "analysis", JArr [JStr (js "4")])])
    (JArr [JStr (js "4")]) eq_refl eq_refl eq_refl _).
  discriminate.
Defined.

(** X7.  When the second [context.sync()] is rejected the four assignments to
    the output cell have been queued already; the success message is not
    shown and no timer is set: the rejection is logged and shown as the
    error, with the button enabled. *)
Theorem failed_write_is_an_error (w : world) (p : page) (r : response)
    (result : json) (s : jsstring) (e : js_error) :
  first_sync w = None -> blank w (selected_value w) = false ->
  fetch_outcome w = inr r -> ok r = true -> json_body r = inr result ->
  truthy (prop result (js "success")) = true ->
  answer_of w result = Some (JStr s) ->
  last_sync w = Some e ->
  after_click w p =
  reported e (posted w ++ [Response_json; Range_getOffsetRange 0 1]
              ++ cell_writes (stripHtmlTags (decodeEntities w) s) ++ [Context_sync]).
Proof.
  intros Hs Hb Hf Hok Hj Ht Ha Hl.
  rewrite (after_click_ok _ _ _ Hs Hb Hf Hok), handle_response_ok, Hj by done.
  assert (result <> JNull) as Hn by (intros ->; done).
  destruct result; try done; rewrite Ht, Ha, write_answer_run, Hl;
    cbn [settle calls]; by rewrite <- !app_assoc.
Qed.

Lemma failed_write_is_an_error_witness :
  status_textContent (dom (after_click
    (World (js "grantmath.example") ∅ (CStr (js "2+2")) None
       (json_response 200 "OK"
          (JObj [(js "success", JBool true); (js "analysis", JStr (js "4"))]))
       (Some (Error (js "The sheet is protected")))
       engine_error decodeBasic no_digits stringify)
    fresh_page)) = js "The sheet is protected".
Proof.
  exact (f_equal (fun st => status_textContent (dom st))
    (failed_write_is_an_error
      (World (js "grantmath.example") ∅ (CStr (js "2+2")) None
         (json_response 200 "OK"
            (JObj [(js "success", JBool true); (js "analysis", JStr (js "4"))]))
         (Some (Error (js "The sheet is protected")))
         engine_error decodeBasic no_digits stringify)
      fresh_page
      (Response 200 (js "OK")
         (inr (JObj [(js "success", JBool true); (js "analysis", JStr (js "4"))])))
      (JObj [(js "success", JBool true); (js "analysis", JStr (js "4"))])
      (js "4") (Error (js "The sheet is protected"))
      eq_refl eq_refl eq_refl eq_refl eq_refl eq_refl eq_refl eq_refl)).
Defined.

(** X8.  A rejected first [context.sync()] and a rejected [fetch] both end in
    the [catch] block: the thrown value is logged, its message is shown, or
    the support text when it has no message, and the button is enabled.
    After a rejected first synchronization no request has been sent. *)
Theorem rejections_are_reported (w : world) (p : page) (e : js_error) :
  (first_sync w = Some e ->
   after_click w p = reported e opening /\ fetches (calls (after_click w p)) = []) /\
  (first_sync w = None -> blank w (selected_value w) = false ->
   fetch_outcome w = inl e -> after_click w p = reported e (posted w)) /\
  status_textContent (dom (reported e [])) =
    match message e with
    | [] => js "Failed to compute solution. Please contact support@solonai.com"
    | m => m
    end.
Proof.
  split; [|split].
  - intros Hs.
    assert (after_click w p = reported e opening) as E
      by (by rewrite after_click_settle, (batch_first_sync_rejects _ _ _ _ Hs)).
    by rewrite E.
  - intros Hs Hb Hf. by rewrite after_click_settle, (batch_fetch_rejects _ _ _ Hs Hb Hf).
  - by destruct e as [[|c m]].
Qed.

(** X9.  What JavaScript counts as falsy is an empty cell for the handler:
    the number zero, NaN and the boolean false are refused like the empty
    string, before any request; the boolean true is sent as the question
    "true". *)
Theorem falsy_cells_are_empty (w : world) (p : page) :
  first_sync w = None ->
  ((selected_value w = CBool false \/
    exists x, selected_value w = CNum x /\ number_truthy x = false) ->
   after_click w p =
   State (error_page (js "Selected cell is empty. Please select a cell with a question.")
                     (solve_btn_disabled p)) opening) /\
  (selected_value w = CBool true ->
   fetches (calls (after_click w p)) =
   [Fetch (API_URL w)
      (Request (js "POST") (build_headers (stored_key w))
         (JSON_stringify w (JObj [(js "question", JStr (js "true"))])))]).
Proof.
  intros Hs. split.
  - intros H.
    assert (blank w (selected_value w) = true) as Hb.
    { destruct H as [->|(x & -> & Hx)]; unfold blank; cbn [cell_truthy]; [done|].
      by rewrite Hx. }
    by rewrite after_click_settle, (batch_blank _ _ _ Hs Hb).
  - intros Hv. rewrite fetches_after_click, Hs, Hv. reflexivity.
Qed.

Lemma falsy_cells_are_empty_witness :
  after_click (sample_world (CNum 0%float) None (inl (Error (js "not reached")))) fresh_page =
  State (error_page (js "Selected cell is empty. Please select a cell with a question.")
                    false) opening.
Proof.
  refine (proj1 (falsy_cells_are_empty
    (sample_world (CNum 0%float) None (inl (Error (js "not reached")))) fresh_page eq_refl) _).
  right. exists 0%float. split; reflexivity.
Defined.

Lemma rejections_are_reported_witness :
  after_click (sample_world (CStr (js "2+2")) None (inl (Error (js "Failed to fetch"))))
              fresh_page =
  reported (Error (js "Failed to fetch"))
    (posted (sample_world (CStr (js "2+2")) None (inl (Error (js "Failed to fetch"))))).
Proof.
  exact (proj1 (proj2 (rejections_are_reported
    (sample_world (CStr (js "2+2")) None (inl (Error (js "Failed to fetch"))))
    fresh_page (Error (js "Failed to fetch")))) eq_refl eq_refl eq_refl).
Defined.

(** ** The key panel *)

Section KeyPanelFacts.

Variable b : browser.

Lemma trimStart_blank v : forallb isSpace v = true -> trimStart v = [].
Proof.
  induction v as [|c v IH]; simpl; [done|].
  intros H. apply andb_true_iff in H as [-> H]. by apply IH.
Qed.

Lemma trim_blank v : forallb isSpace v = true -> trim v = [].
Proof. intros H. unfold trim. by rewrite trimStart_blank. Qed.

Lemma trim_nonempty v : nonempty (trim v) = negb (forallb isSpace v).
Proof.
  destruct (forallb isSpace v) eqn:H; [by rewrite trim_blank|].
  destruct (trim_split v) as (pre & post & E & Hpre & Hpost).
  destruct (trim v) as [|c t]; [|done].
  simpl in E. rewrite E, forallb_app, Hpre, Hpost in H. done.
Qed.

Lemma trim_trim v : trim (trim v) = trim v.
Proof. apply trim_id; [apply trim_leading|apply trim_trailing]. Qed.

Lemma trim_clean v : forallb isSpace v = false -> clean_key (trim v).
Proof.
  intros H. split; [|apply trim_trim].
  pose proof (trim_nonempty v) as Hn. rewrite H in Hn. by destruct (trim v).
Qed.

Lemma nonempty_length (k : jsstring) : nonempty k && (0 <? length k)%nat = nonempty k.
Proof. by destruct k. Qed.

Lemma updateKeyIndicator_run s :
  updateKeyIndicator s =
  Pane (State (Page (status_textContent (dom (doc s))) (status_className (dom (doc s)))
                    (status_display (dom (doc s))) false) (calls (doc s)))
       (api_key_value s)
       (if forallb isSpace (api_key_value s)
        then key_indicator s ∖ {[ js "active" ]}
        else key_indicator s ∪ {[ js "active" ]})
       (storage s) (save_onclick s) (solve_onclick s) (input_listeners s)
       (console s) (timers s).
Proof.
  unfold updateKeyIndicator. rewrite nonempty_length, trim_nonempty.
  by destruct (forallb isSpace (api_key_value s)).
Qed.

Lemma saveApiKey_blank s :
  forallb isSpace (api_key_value s) = true ->
  saveApiKey b s =
  (Returned tt, on_doc (showStatus (js "Please enter an API key") (js "error")) s).
Proof. intros H. unfold saveApiKey. by rewrite trim_nonempty, H. Qed.

Lemma saveApiKey_refused s e :
  forallb isSpace (api_key_value s) = false ->
  setItem_throws b (storage s) (js "grantmath_api_key") (trim (api_key_value s)) = Some e ->
  saveApiKey b s = (Threw e, s).
Proof. intros H He. unfold saveApiKey. by rewrite trim_nonempty, H, He. Qed.

Lemma saveApiKey_saved s :
  forallb isSpace (api_key_value s) = false ->
  setItem_throws b (storage s) (js "grantmath_api_key") (trim (api_key_value s)) = None ->
  saveApiKey b s =
  (Returned tt,
   Pane (State (Page (js "API key saved successfully") (js "status success") (js "block") false)
               (calls (doc s)))
        (api_key_value s) (key_indicator s ∪ {[ js "active" ]})
        (<[ js "grantmath_api_key" := trim (api_key_value s) ]> (storage s))
        (save_onclick s) (solve_onclick s) (input_listeners s) (console s)
        (timers s ++ [(HideStatus, 3000%Z)])).
Proof.
  intros H He. unfold saveApiKey. rewrite trim_nonempty, H, He. cbn [negb].
  rewrite updateKeyIndicator_run. cbn [api_key_value setItem]. by rewrite H.
Qed.

(** What a listener does to the store: nothing, or it puts a clean key
    under the name of the key. *)
Lemma call_listener_storage w l s :
  storage (call_listener b w l s) = storage s \/
  exists k, clean_key k /\
    storage (call_listener b w l s) = <[ js "grantmath_api_key" := k ]> (storage s).
Proof.
  destruct l; cbn [call_listener]; [|by left|left; by rewrite updateKeyIndicator_run].
  destruct (forallb isSpace (api_key_value s)) eqn:H.
  { left. by rewrite saveApiKey_blank. }
  destruct (setItem_throws b (storage s) (js "grantmath_api_key") (trim (api_key_value s)))
    as [e|] eqn:He.
  { left. by rewrite (saveApiKey_refused _ e). }
  right. exists (trim (api_key_value s)). split; [by apply trim_clean|].
  by rewrite saveApiKey_saved.
Qed.

(** A property of the store that holds when a clean key is put under the
    name of the key is kept by every event. *)
Lemma handle_storage (P : gmap (list N) (list N) -> Prop) :
  (forall m k, P m -> clean_key k -> P (<[ js "grantmath_api_key" := k ]> m)) ->
  forall s we, P (storage s) -> P (storage (handle b s we)).
Proof.
  intros HP.
  assert (forall w l s, P (storage s) -> P (storage (call_listener b w l s))) as Hl.
  { intros w l s H. destruct (call_listener_storage w l s) as [->|(k & Hk & ->)]; auto. }
  intros s [w e] H. destruct e as [host|v| | |[]|cb]; cbn [handle].
  - unfold onReady. destruct host as [[]|]; try done.
    unfold loadApiKey. cbn [storage addEventListener set_solve_onclick set_save_onclick console_log].
    destruct (storage s !! js "grantmath_api_key") as [k|]; [|done].
    destruct (nonempty k); [|done]. by rewrite updateKeyIndicator_run.
  - assert (P (storage (type_value v s))) as H' by done.
    revert H'. generalize (type_value v s). induction (input_listeners s) as [|l ls IH]; [done|].
    intros s0 H0. cbn [fold_left]. apply IH, Hl, H0.
  - destruct (save_onclick s); [by apply Hl|done].
  - destruct (solve_btn_disabled (dom (doc s))); [done|].
    destruct (solve_onclick s); [by apply Hl|done].
  - done.
  - done.
Qed.

Lemma run_storage (P : gmap (list N) (list N) -> Prop) :
  (forall m k, P m -> clean_key k -> P (<[ js "grantmath_api_key" := k ]> m)) ->
  forall events s, P (storage s) -> P (storage (run b events s)).
Proof.
  intros HP events. induction events as [|we events IH]; [done|].
  intros s H. apply IH. by apply handle_storage.
Qed.

End KeyPanelFacts.

(** X10.  An input that holds white space only counts as no key: [saveApiKey]
    shows "Please enter an API key" as an error and returns; the store, the
    indicator, the button and the timers are as they were. *)
Theorem blank_key_is_not_saved (b : browser) (s : pane) :
  forallb isSpace (api_key_value s) = true ->
  fst (saveApiKey b s) = Returned tt /\
  storage (snd (saveApiKey b s)) = storage s /\
  key_indicator (snd (saveApiKey b s)) = key_indicator s /\
  timers (snd (saveApiKey b s)) = timers s /\
  dom (doc (snd (saveApiKey b s))) =
    Page (js "Please enter an API key") (js "status error") (js "block")
         (solve_btn_disabled (dom (doc s))).
Proof. intros H. by rewrite saveApiKey_blank. Qed.

Lemma blank_key_is_not_saved_witness :
  storage (snd (saveApiKey plain_browser (type_value (js "   ") (loaded_pane ∅)))) = ∅.
Proof.
  exact (proj1 (proj2 (blank_key_is_not_saved plain_browser
    (type_value (js "   ") (loaded_pane ∅)) eq_refl))).
Defined.

(** X11.  An input with something other than white space in it, and a store
    that takes the item: the key is stored trimmed, and what is stored is
    not empty and has no white space around it; the indicator is active,
    the button enabled, the success shown and a timer set to hide it.  The
    input itself keeps its value untrimmed. *)
Theorem saved_key_is_trimmed_input (b : browser) (s : pane) :
  forallb isSpace (api_key_value s) = false ->
  setItem_throws b (storage s) (js "grantmath_api_key") (trim (api_key_value s)) = None ->
  fst (saveApiKey b s) = Returned tt /\
  storage (snd (saveApiKey b s)) =
    <[ js "grantmath_api_key" := trim (api_key_value s) ]> (storage s) /\
  clean_key (trim (api_key_value s)) /\
  active (snd (saveApiKey b s)) /\
  dom (doc (snd (saveApiKey b s))) =
    Page (js "API key saved successfully") (js "status success") (js "block") false /\
  timers (snd (saveApiKey b s)) = timers s ++ [(HideStatus, 3000%Z)] /\
  api_key_value (snd (saveApiKey b s)) = api_key_value s.
Proof.
  intros H He. rewrite saveApiKey_saved by done. cbn [fst snd storage doc dom timers api_key_value].
  repeat split; try done; try by apply trim_clean.
  unfold active. cbn [key_indicator]. set_solver.
Qed.

Lemma saved_key_is_trimmed_input_witness :
  saved_key (snd (saveApiKey plain_browser (type_value (js " gm-123 ") (loaded_pane ∅)))) =
  Some (js "gm-123").
Proof.
  exact (f_equal (fun m => m !! js "grantmath_api_key")
    (proj1 (proj2 (saved_key_is_trimmed_input plain_browser
       (type_value (js " gm-123 ") (loaded_pane ∅)) eq_refl eq_refl)))).
Defined.

(** X12.  Whatever happens in the task pane, a key that the store holds stays
    a key as [saveApiKey] writes it (not empty, no white space around it),
    and no other item of the store is touched. *)
Theorem stored_key_stays_clean (b : browser) (events : list (world * event)) (s : pane) :
  (forall k, saved_key s = Some k -> clean_key k) ->
  (forall k, saved_key (run b events s) = Some k -> clean_key k) /\
  (forall name, name <> js "grantmath_api_key" ->
     storage (run b events s) !! name = storage s !! name).
Proof.
  intros H. split.
  - apply (run_storage b (fun m => forall k, m !! js "grantmath_api_key" = Some k -> clean_key k));
      [|exact H].
    intros m k0 _ Hk k. rewrite lookup_insert_eq. by intros [= <-].
  - intros name Hn.
    apply (run_storage b (fun m => m !! name = storage s !! name)); [|done].
    intros m k Hm _. by rewrite lookup_insert_ne.
Qed.

Lemma stored_key_stays_clean_witness :
  saved_key (run plain_browser
    [(sample_world (CStr []) None (inl (Error [])), Input (js "  gm-2 "));
     (sample_world (CStr []) None (inl (Error [])), ClickSave)]
    (onReady plain_browser (Some Excel) (loaded_pane {[ js "grantmath_api_key" := js "gm-1" ]})))
  = Some (js "gm-2") /\ clean_key (js "gm-2").
Proof.
  split; [reflexivity|].
  refine (proj1 (stored_key_stays_clean plain_browser
    [(sample_world (CStr []) None (inl (Error [])), Input (js "  gm-2 "));
     (sample_world (CStr []) None (inl (Error [])), ClickSave)]
    (onReady plain_browser (Some Excel) (loaded_pane {[ js "grantmath_api_key" := js "gm-1" ]}))
    _) (js "gm-2") eq_refl).
  intros k H. vm_compute in H. injection H as <-. split; [discriminate|reflexivity].
Defined.

Section PanelRuns.

Variable b : browser.

Lemma onReady_loaded store :
  onReady b (Some Excel) (loaded_pane store) =
  Pane (State fresh_page [])
       (match store !! js "grantmath_api_key" with
        | Some k => if nonempty k then sanitize b k else []
        | None => []
        end)
       (match store !! js "grantmath_api_key" with
        | Some k => if nonempty k && negb (forallb isSpace (sanitize b k))
                    then {[ js "active" ]} else ∅
        | None => ∅
        end)
       store (Some SaveApiKey) (Some SolveCell) [UpdateKeyIndicator]
       [js "GrantMath Excel Add-in loaded"] [].
Proof.
  unfold onReady, loadApiKey.
  cbn [storage addEventListener set_solve_onclick set_save_onclick console_log loaded_pane].
  destruct (store !! js "grantmath_api_key") as [k|]; [|reflexivity].
  destruct (nonempty k); [|reflexivity].
  rewrite updateKeyIndicator_run. cbn [api_key_value set_value key_indicator].
  destruct (forallb isSpace (sanitize b k)); cbn [andb negb]; unfold updateSolveButtonState, on_doc;
    cbn; f_equal; set_solver.
Qed.

Lemma blank_world_of w s q : blank (world_of w s) q = blank w q.
Proof. by destruct q as [| |[]]. Qed.

(** The request of a click on the solve button of a pane that has made no
    call yet. *)
Lemma click_fetches w s :
  solve_onclick s = Some SolveCell -> solve_btn_disabled (dom (doc s)) = false ->
  calls (doc s) = [] ->
  first_sync w = None -> blank w (selected_value w) = false ->
  fetches (calls (doc (handle b s (w, ClickSolve)))) =
  [Fetch (API_URL w)
     (Request (js "POST")
        (build_headers (match saved_key s with Some k => k | None => [] end))
        (JSON_stringify w (JObj [(js "question", JStr (cell_toString w (selected_value w)))])))].
Proof.
  intros Hl Hd Hc Hs Hb. cbn [handle]. rewrite Hd, Hl. cbn [on_click call_listener on_doc doc snd].
  destruct (doc s) as [pg l] eqn:E. cbn in Hc. subst l.
  change (solveCell (world_of w s) (State pg [])) with (solveCell (world_of w s) (begin pg)).
  change (snd (solveCell (world_of w s) (begin pg))) with (after_click (world_of w s) pg).
  rewrite fetches_after_click. cbn [first_sync world_of selected_value]. rewrite Hs.
  change (selected_value w) with (selected_value (world_of w s)) at 1.
  rewrite blank_world_of. cbn [selected_value world_of]. rewrite Hb.
  unfold request_for. by do 3 f_equal.
Qed.

Lemma run_snoc events we s : run b (events ++ [we]) s = handle b (run b events s) we.
Proof. unfold run. by rewrite fold_left_app. Qed.

Lemma ready_then_input w0 w1 store v :
  run b [(w0, Ready (Some Excel)); (w1, Input v)] (loaded_pane store) =
  Pane (State fresh_page []) v
       (if forallb isSpace v
        then key_indicator (onReady b (Some Excel) (loaded_pane store)) ∖ {[ js "active" ]}
        else key_indicator (onReady b (Some Excel) (loaded_pane store)) ∪ {[ js "active" ]})
       store (Some SaveApiKey) (Some SolveCell) [UpdateKeyIndicator]
       [js "GrantMath Excel Add-in loaded"] [].
Proof.
  unfold run. cbn [fold_left handle]. rewrite onReady_loaded.
  cbn [input_listeners fold_left call_listener]. by rewrite updateKeyIndicator_run.
Qed.

Lemma ready_input_save w0 w1 w2 store v :
  forallb isSpace v = false ->
  setItem_throws b store (js "grantmath_api_key") (trim v) = None ->
  run b [(w0, Ready (Some Excel)); (w1, Input v); (w2, ClickSave)] (loaded_pane store) =
  Pane (State (Page (js "API key saved successfully") (js "status success") (js "block") false)
              [])
       v
       ((key_indicator (onReady b (Some Excel) (loaded_pane store)) ∪ {[ js "active" ]})
        ∪ {[ js "active" ]})
       (<[ js "grantmath_api_key" := trim v ]> store)
       (Some SaveApiKey) (Some SolveCell) [UpdateKeyIndicator]
       [js "GrantMath Excel Add-in loaded"] [(HideStatus, 3000%Z)].
Proof.
  intros Hv He.
  change [(w0, Ready (Some Excel)); (w1, Input v); (w2, ClickSave)]
    with ([(w0, Ready (Some Excel)); (w1, Input v)] ++ [(w2, ClickSave)]).
  rewrite run_snoc, ready_then_input, Hv.
  cbn [handle save_onclick on_click call_listener].
  by rewrite saveApiKey_saved.
Qed.

End PanelRuns.

(** X13.  Typing a key does not save it.  After the pane is ready in Excel
    with no key in the store, an input event with a key in the input turns
    the indicator active and leaves the store without a key; the request of
    a click on the solve button then carries no Authorization header. *)
Theorem typing_does_not_store (b : browser) (w0 w1 w2 : world)
    (store : gmap (list N) (list N)) (v : jsstring) :
  store !! js "grantmath_api_key" = None ->
  forallb isSpace v = false ->
  first_sync w2 = None -> blank w2 (selected_value w2) = false ->
  active (run b [(w0, Ready (Some Excel)); (w1, Input v)] (loaded_pane store)) /\
  saved_key (run b [(w0, Ready (Some Excel)); (w1, Input v)] (loaded_pane store)) = None /\
  fetches (calls (doc (run b [(w0, Ready (Some Excel)); (w1, Input v); (w2, ClickSolve)]
                            (loaded_pane store)))) =
  [Fetch (API_URL w2)
     (Request (js "POST") {[ js "Content-Type" := js "application/json" ]}
        (JSON_stringify w2 (JObj [(js "question", JStr (cell_toString w2 (selected_value w2)))])))].
Proof.
  intros Hk Hv Hs Hb.
  change [(w0, Ready (Some Excel)); (w1, Input v); (w2, ClickSolve)]
    with ([(w0, Ready (Some Excel)); (w1, Input v)] ++ [(w2, ClickSolve)]).
  rewrite run_snoc, ready_then_input, Hv.
  split; [unfold active; cbn [key_indicator]; set_solver|]. split; [exact Hk|].
  rewrite click_fetches by done. unfold saved_key. cbn [storage]. by rewrite Hk.
Qed.

Lemma typing_does_not_store_witness :
  saved_key (run plain_browser
    [(sample_world (CStr (js "2+2")) None (inl (Error [])), Ready (Some Excel));
     (sample_world (CStr (js "2+2")) None (inl (Error [])), Input (js "gm-123"))]
    (loaded_pane ∅)) = None.
Proof.
  exact (proj1 (proj2 (typing_does_not_store plain_browser
    (sample_world (CStr (js "2+2")) None (inl (Error [])))
    (sample_world (CStr (js "2+2")) None (inl (Error [])))
    (sample_world (CStr (js "2+2")) None (inl (Error [])))
    ∅ (js "gm-123") eq_refl eq_refl eq_refl eq_refl))).
Defined.

(** X14.  A saved key is the key of the next request.  After the pane is
    ready in Excel, a key typed into the input and saved is sent by a click
    on the solve button as "Bearer " followed by the trimmed input, whatever
    the store held before. *)
Theorem saved_key_is_sent (b : browser) (w0 w1 w2 w3 : world)
    (store : gmap (list N) (list N)) (v : jsstring) :
  forallb isSpace v = false ->
  setItem_throws b store (js "grantmath_api_key") (trim v) = None ->
  first_sync w3 = None -> blank w3 (selected_value w3) = false ->
  fetches (calls (doc (run b [(w0, Ready (Some Excel)); (w1, Input v); (w2, ClickSave);
                              (w3, ClickSolve)] (loaded_pane store)))) =
  [Fetch (API_URL w3)
     (Request (js "POST")
        (<[ js "Authorization" := js "Bearer " ++ trim v ]>
           {[ js "Content-Type" := js "application/json" ]})
        (JSON_stringify w3 (JObj [(js "question", JStr (cell_toString w3 (selected_value w3)))])))].
Proof.
  intros Hv He Hs Hb.
  change [(w0, Ready (Some Excel)); (w1, Input v); (w2, ClickSave); (w3, ClickSolve)]
    with ([(w0, Ready (Some Excel)); (w1, Input v); (w2, ClickSave)] ++ [(w3, ClickSolve)]).
  rewrite run_snoc, ready_input_save by done.
  rewrite click_fetches by done. unfold saved_key. cbn [storage api_key_value].
  rewrite lookup_insert_eq. unfold build_headers.
  pose proof (trim_nonempty v) as Hn. rewrite Hv in Hn. by rewrite Hn.
Qed.

Lemma saved_key_is_sent_witness :
  fetches (calls (doc (run plain_browser
    [(sample_world (CStr (js "2+2")) None (inl (Error [])), Ready (Some Excel));
     (sample_world (CStr (js "2+2")) None (inl (Error [])), Input (js " gm-123 "));
     (sample_world (CStr (js "2+2")) None (inl (Error [])), ClickSave);
     (sample_world (CStr (js "2+2")) None (inl (Error [])), ClickSolve)]
    (loaded_pane {[ js "grantmath_api_key" := js "old" ]})))) =
  [Fetch GRANTMATH_API_URL
     (Request (js "POST")
        (<[ js "Authorization" := js "Bearer gm-123" ]>
           {[ js "Content-Type" := js "application/json" ]})
        (stringify (JObj [(js "question", JStr (js "2+2"))])))].
Proof.
  exact (saved_key_is_sent plain_browser
    (sample_world (CStr (js "2+2")) None (inl (Error [])))
    (sample_world (CStr (js "2+2")) None (inl (Error [])))
    (sample_world (CStr (js "2+2")) None (inl (Error [])))
    (sample_world (CStr (js "2+2")) None (inl (Error [])))
    {[ js "grantmath_api_key" := js "old" ]} (js " gm-123 ")
    eq_refl eq_refl eq_refl eq_refl).
Defined.

(** X15.  A saved key comes back when the task pane is opened again: with the
    store that [saveApiKey] left, [Office.onReady] in Excel puts the stored
    key through the input; when the input keeps it as it is, the indicator
    is active and saving once more stores the same key. *)
Theorem saved_key_is_loaded_again (b : browser) (s : pane) :
  forallb isSpace (api_key_value s) = false ->
  setItem_throws b (storage s) (js "grantmath_api_key") (trim (api_key_value s)) = None ->
  api_key_value (onReady b (Some Excel) (loaded_pane (storage (snd (saveApiKey b s))))) =
    sanitize b (trim (api_key_value s)) /\
  (sanitize b (trim (api_key_value s)) = trim (api_key_value s) ->
   active (onReady b (Some Excel) (loaded_pane (storage (snd (saveApiKey b s))))) /\
   trim (api_key_value (onReady b (Some Excel) (loaded_pane (storage (snd (saveApiKey b s))))))
   = trim (api_key_value s)).
Proof.
  intros Hv He. rewrite saveApiKey_saved by done. cbn [snd storage].
  rewrite onReady_loaded, lookup_insert_eq. cbn [api_key_value].
  pose proof (trim_nonempty (api_key_value s)) as Hn. rewrite Hv in Hn. rewrite Hn.
  cbn [negb andb].
  split; [done|]. intros Hk. rewrite Hk, trim_trim. split; [|done].
  unfold active. cbn [key_indicator andb negb].
  pose proof (trim_nonempty (trim (api_key_value s))) as Hn2.
  rewrite trim_trim, Hn in Hn2. destruct (forallb isSpace (trim (api_key_value s))); [done|].
  set_solver.
Qed.

Lemma saved_key_is_loaded_again_witness :
  api_key_value (onReady plain_browser (Some Excel)
    (loaded_pane (storage (snd (saveApiKey plain_browser
       (type_value (js " gm-123 ") (loaded_pane ∅))))))) = js "gm-123".
Proof.
  exact (proj1 (saved_key_is_loaded_again plain_browser
    (type_value (js " gm-123 ") (loaded_pane ∅)) eq_refl eq_refl)).
Defined.

(** X16.  Outside Excel nothing is wired: when [Office.onReady] reports another
    host, or none, no click, input or timer changes the pane; only the
    input holds what was typed. *)
Theorem other_hosts_are_left_alone (b : browser) (w : world) (host : option HostType)
    (events : list (world * event)) (store : gmap (list N) (list N)) :
  host <> Some Excel ->
  Forall (fun we => forall h, snd we <> Ready h) events ->
  exists v, run b ((w, Ready host) :: events) (loaded_pane store) =
            type_value v (loaded_pane store).
Proof.
  intros Hh Hev. unfold run. cbn [fold_left handle].
  assert (onReady b host (loaded_pane store) = type_value [] (loaded_pane store)) as ->
    by (by destruct host as [[]|]).
  generalize (@nil N). induction Hev as [|[w' e] events He _ IH]; intros v; [by exists v|].
  cbn [fold_left].
  destruct e as [h|v'| | |[]|[]]; [by destruct (He h)|apply (IH v')|apply (IH v)..].
Qed.

Lemma other_hosts_are_left_alone_witness :
  exists v, run plain_browser
    ((sample_world (CStr (js "2+2")) None (inl (Error [])), Ready (Some Word))
     :: [(sample_world (CStr (js "2+2")) None (inl (Error [])), Input (js "gm-123"));
         (sample_world (CStr (js "2+2")) None (inl (Error [])), ClickSave);
         (sample_world (CStr (js "2+2")) None (inl (Error [])), ClickSolve)])
    (loaded_pane ∅) = type_value v (loaded_pane ∅).
Proof.
  apply other_hosts_are_left_alone; [discriminate|].
  repeat constructor; discriminate.
Defined.

(** X17.  [updateKeyIndicator] makes the indicator follow the input, not the
    store: the class "active" is there exactly when the input holds
    something other than white space; the other classes of the indicator
    are kept, the solve button is enabled in both cases, and a second call
    changes nothing. *)
Theorem indicator_follows_input (s : pane) :
  (active (updateKeyIndicator s) <-> forallb isSpace (api_key_value s) = false) /\
  (forall c, c <> js "active" ->
     c ∈ key_indicator (updateKeyIndicator s) <-> c ∈ key_indicator s) /\
  solve_btn_disabled (dom (doc (updateKeyIndicator s))) = false /\
  storage (updateKeyIndicator s) = storage s /\
  updateKeyIndicator (updateKeyIndicator s) = updateKeyIndicator s.
Proof.
  rewrite !updateKeyIndicator_run. unfold active.
  cbn [key_indicator doc dom solve_btn_disabled storage api_key_value calls
       status_textContent status_className status_display save_onclick solve_onclick
       input_listeners console timers].
  destruct (forallb isSpace (api_key_value s)).
  - repeat split; try done.
    + rewrite elem_of_difference, elem_of_singleton. by intros [_ []].
    + rewrite elem_of_difference. by intros [].
    + intros Hc. rewrite elem_of_difference, elem_of_singleton. by split.
    + f_equal. apply set_eq. intros c. rewrite !elem_of_difference. tauto.
  - repeat split; try done.
    + intros _. rewrite elem_of_union, elem_of_singleton. by right.
    + rewrite elem_of_union, elem_of_singleton. by intros [|].
    + intros Hc. rewrite elem_of_union. by left.
    + f_equal. apply set_eq. intros c. rewrite !elem_of_union. tauto.
Qed.

(** X18.  What [Office.onReady] leaves in Excel: the three listeners are
    registered, the solve button is enabled whether or not a key is stored,
    and the input shows the stored key when the store holds one that is not
    empty; the indicator is then active unless the input shows white space
    only.  Nothing is stored and no call is made. *)
Theorem ready_loads_the_stored_key (b : browser) (store : gmap (list N) (list N)) :
  save_onclick (onReady b (Some Excel) (loaded_pane store)) = Some SaveApiKey /\
  solve_onclick (onReady b (Some Excel) (loaded_pane store)) = Some SolveCell /\
  input_listeners (onReady b (Some Excel) (loaded_pane store)) = [UpdateKeyIndicator] /\
  solve_btn_disabled (dom (doc (onReady b (Some Excel) (loaded_pane store)))) = false /\
  storage (onReady b (Some Excel) (loaded_pane store)) = store /\
  calls (doc (onReady b (Some Excel) (loaded_pane store))) = [] /\
  (forall k, store !! js "grantmath_api_key" = Some k -> k <> [] ->
     api_key_value (onReady b (Some Excel) (loaded_pane store)) = sanitize b k /\
     (active (onReady b (Some Excel) (loaded_pane store)) <->
      forallb isSpace (sanitize b k) = false)) /\
  (store !! js "grantmath_api_key" = None \/ store !! js "grantmath_api_key" = Some [] ->
     api_key_value (onReady b (Some Excel) (loaded_pane store)) = [] /\
     ~ active (onReady b (Some Excel) (loaded_pane store))).
Proof.
  rewrite onReady_loaded. unfold active.
  cbn [save_onclick solve_onclick input_listeners doc dom solve_btn_disabled storage calls
       fresh_page api_key_value key_indicator].
  repeat split; try done.
  - destruct k; [done|]. by rewrite H.
  - rewrite H. destruct k; [done|]. cbn [nonempty length Nat.eqb negb andb].
    destruct (forallb isSpace _); [set_solver|done].
  - rewrite H. destruct k; [done|]. cbn [nonempty length Nat.eqb negb andb].
    intros ->. set_solver.
  - by destruct H as [->| ->].
  - destruct H as [->| ->]; set_solver.
Qed.

Lemma indicator_follows_input_witness :
  active (updateKeyIndicator (type_value (js "gm-123") (loaded_pane ∅))).
Proof.
  exact (proj2 (proj1 (indicator_follows_input (type_value (js "gm-123") (loaded_pane ∅))))
               eq_refl).
Defined.

Lemma ready_loads_the_stored_key_witness :
  api_key_value (onReady plain_browser (Some Excel)
    (loaded_pane {[ js "grantmath_api_key" := js "gm-123" ]})) = js "gm-123".
Proof.
  refine (proj1 (proj1 (proj2 (proj2 (proj2 (proj2 (proj2 (proj2
    (ready_loads_the_stored_key plain_browser
       {[ js "grantmath_api_key" := js "gm-123" ]})))))))
    (js "gm-123") eq_refl _)).
  discriminate.
Defined.

(** ** The normalizer: the steps that the claims leave out *)

Section TagRemoval.

Lemma greedy_stop acc (k : jsstring -> result) :
  (forall c t, acc c = true -> k (c :: t) = None) ->
  forall s, greedy acc k s = k (skip acc s).
Proof.
  intros Hk. induction s as [|c s IH]; [done|]. cbn [greedy skip].
  destruct (acc c) eqn:E; [|done]. rewrite IH.
  destruct (k (skip acc s)); [done|]. by apply Hk.
Qed.

Lemma skip_all acc s : skip acc s = [] -> forallb acc s = true.
Proof.
  induction s as [|c s IH]; [done|]. simpl. destruct (acc c); [exact IH|done].
Qed.

Lemma skip_none acc s : forallb acc s = true -> skip acc s = [].
Proof.
  induction s as [|c s IH]; [done|]. simpl. destruct (acc c); [exact IH|done].
Qed.

(** [/<[^>]+>/] at the start of a text: [<], a character other than [>],
    and a [>] somewhere behind; the match ends with the first one. *)
Lemma exec_tag s :
  exec false (re_nodes re_tag) s no_slots =
  match s with
  | c :: d :: s' =>
      if (c =? 60) && negb (d =? 62) then
        match skip (fun x => negb (x =? 62)) s' with
        | _ :: rest => Some (rest, no_slots)
        | [] => None
        end
      else None
  | _ => None
  end.
Proof.
  destruct s as [|c [|d s']]; cbn [exec re_nodes re_tag accepts canonicalize plus];
    [done|by destruct (c =? 60)|].
  destruct (c =? 60); [|done]. destruct (negb (d =? 62)); [|done]. cbn [andb].
  rewrite greedy_stop.
  - change (accepts false (NotChr 62)) with (fun x => negb (x =? 62)).
    pose proof (skip_stops (fun x => negb (x =? 62)) s') as Hs.
    destruct (skip (fun x => negb (x =? 62)) s') as [|e rest]; [done|].
    apply negb_false_iff in Hs. by rewrite Hs.
  - intros x t Hx. cbn [accepts canonicalize] in Hx. apply negb_true_iff in Hx.
    cbn [exec accepts canonicalize]. by rewrite Hx.
Qed.

Lemma productive_tag : productive false (re_nodes re_tag).
Proof. apply productive_one. Qed.

Lemma removeTags_no_match c s :
  exec false (re_nodes re_tag) (c :: s) no_slots = None ->
  removeTags (c :: s) = c :: removeTags s.
Proof. apply replaceFrom_no_match. Qed.

(** A text without [>] holds no tag. *)
Lemma removeTags_no_gt s : free_of 62 s = true -> removeTags s = s.
Proof.
  induction s as [|c s IH]; intros H; [done|].
  cbn [free_of forallb] in H. apply andb_true_iff in H as [H1 H2].
  rewrite removeTags_no_match; [by rewrite IH|].
  rewrite exec_tag. destruct s as [|d s]; [done|].
  cbn [free_of forallb] in H2. apply andb_true_iff in H2 as [H3 H4].
  rewrite (skip_none _ s H4). by destruct ((c =? 60) && negb (d =? 62)).
Qed.

(** Where no tag starts at a [<]: the text ends there, a [>] follows at
    once, or no [>] follows at all. *)
Lemma no_tag_here s :
  exec false (re_nodes re_tag) (60 :: s) no_slots = None ->
  s = [] \/ (exists s', s = 62 :: s') \/ free_of 62 s = true.
Proof.
  rewrite exec_tag. destruct s as [|d s]; [by left|]. right.
  cbn [N.eqb Pos.eqb andb]. destruct (d =? 62) eqn:E.
  { left. apply N.eqb_eq in E as ->. by eexists. }
  right. cbn [negb] in H. cbn [free_of forallb]. rewrite E. cbn [negb andb].
  destruct (skip (fun x => negb (x =? 62)) s) eqn:Hs; [|done]. by apply skip_all.
Qed.

Lemma removeTags_tagless s : test re_tag (removeTags s) = false.
Proof.
  assert (forall n s, (length s < n)%nat -> test re_tag (removeTags s) = false) as H;
    [|apply (H (S (length s))); lia].
  clear s. induction n as [|n IH]; intros s Hn; [lia|].
  destruct s as [|c s]; [done|].
  destruct (exec false (re_nodes re_tag) (c :: s) no_slots) as [[rest g]|] eqn:E.
  - destruct (productive_tag _ _ _ _ E) as (c' & pre & Hs). injection Hs as <- ->.
    unfold removeTags, replace. cbn [re_ignoreCase re_tag].
    change [One (Chr 60); Rep Plus (NotChr 62); One (Chr 62)] with (re_nodes re_tag).
    rewrite (replaceFrom_match _ _ _ _ _ _ _ E). cbn [expand map concat app].
    apply (IH rest). simpl in Hn. rewrite length_app in Hn. lia.
  - rewrite removeTags_no_match by done. unfold test. cbn [test_nodes].
    change (re_ignoreCase re_tag) with false.
    assert (exec false (re_nodes re_tag) (c :: removeTags s) no_slots = None) as ->.
    { destruct (c =? 60) eqn:Ec; [|rewrite exec_tag; destruct (removeTags s); by rewrite ?Ec].
      apply N.eqb_eq in Ec as ->.
      destruct (no_tag_here s E) as [->|[[s' ->]|Hs]]; [done| |by rewrite removeTags_no_gt].
      rewrite removeTags_no_match by (by rewrite exec_tag; destruct s').
      rewrite exec_tag. done. }
    apply (IH s). simpl in Hn. lia.
Qed.

(** A pattern that matches nowhere leaves the text as it is. *)
Lemma replace_no_match ic p tpl s :
  test_nodes ic p s = false -> replaceFrom ic p tpl 0 s = s.
Proof.
  induction s as [|c s IH]; intros H.
  - cbn [test_nodes] in H. cbn [replaceFrom]. by destruct (exec ic p [] no_slots).
  - cbn [test_nodes] in H.
    destruct (exec ic p (c :: s) no_slots) eqn:E; [done|].
    rewrite replaceFrom_no_match by done. by rewrite IH.
Qed.

End TagRemoval.

(** X19.  After line 212 no tag is left: the pattern [<[^>]+>] matches nowhere
    in what [removeTags] returns, so that removing tags once more changes
    nothing; this holds for the text that is handed to the decoder, whatever
    the input (the removal of script blocks has no such property: it can
    leave a block that its own removals put together). *)
Theorem no_tag_is_left (s : jsstring) :
  test re_tag (removeTags s) = false /\
  removeTags (removeTags s) = removeTags s /\
  test re_tag (convertMarkup s) = false /\
  exists t, test re_script (removeScripts t) = true.
Proof.
  split; [apply removeTags_tagless|].
  split; [apply replace_no_match, removeTags_tagless|].
  split; [apply removeTags_tagless|].
  exists (js "<scr<script></script>ipt>x</script>"). by vm_compute.
Qed.

Section OutputLines.

Lemma first_line_leading s l :
  leading_space s = false -> split_lines s !! 0%nat = Some l -> leading_space l = false.
Proof.
  destruct s as [|c s]; [by intros _ [= <-]|]. cbn [leading_space split_lines]. intros Hc.
  destruct (c =? LF) eqn:E; [by intros [= <-]|].
  destruct (split_lines s); by intros [= <-].
Qed.

Lemma starts_lf_first s t l :
  starts_with (LF :: t) s = true -> split_lines s !! 0%nat = Some l -> l = [].
Proof.
  destruct s as [|c s]; [done|]. cbn [starts_with split_lines]. intros H.
  apply andb_true_iff in H as [H _]. rewrite N.eqb_sym in H. rewrite H. by intros [= <-].
Qed.

Lemma lf_marked_lines s :
  lf_marked s = true ->
  forall i l, split_lines s !! S i = Some l -> leading_space l = false.
Proof.
  induction s as [|c s IH]; intros Hm i l Hl; [done|].
  cbn [lf_marked] in Hm. apply andb_true_iff in Hm as [H1 H2].
  cbn [split_lines] in Hl. destruct (c =? LF) eqn:Ec.
  - cbn [negb orb] in H1. change (split_lines s !! i = Some l) in Hl.
    destruct i as [|i]; [|by apply (IH H2 i)].
    apply orb_true_iff in H1 as [H1|H1].
    + apply (first_line_leading s); [|done]. destruct s; [done|].
      simpl in *. by apply negb_true_iff in H1.
    + by rewrite (starts_lf_first _ _ _ H1 Hl).
  - destruct (split_lines_cons s) as (l0 & ls & E). rewrite E in Hl.
    apply (IH H2 i). by rewrite E.
Qed.

End OutputLines.

(** X20.  No line of the text that [stripHtmlTags] returns starts with white
    space, whatever the input and the decoder.  (A line can end with white
    space: the line that line 225 breaks in front of the marker.) *)
Theorem lines_start_with_text (decode : jsstring -> jsstring) (html : jsstring) :
  (forall i l, text_lines (stripHtmlTags decode html) !! i = Some l ->
     leading_space l = false) /\
  exists x i l, text_lines (stripHtmlTags decodeBasic x) !! i = Some l /\
                trailing_space l = true.
Proof.
  split.
  - assert (leading_space (stripHtmlTags decode html) = false /\
            lf_marked (stripHtmlTags decode html) = true) as (Hl & Hm).
    { destruct html as [|c html]; [done|]. cbn [stripHtmlTags].
      split; [apply trim_leading|apply cleanWhitespace_marked]. }
    intros [|i] l Hi.
    + destruct (stripHtmlTags decode html) as [|c t] eqn:E; [done|].
      by apply (first_line_leading (c :: t)).
    + rewrite text_lines_later in Hi. by apply (lf_marked_lines _ Hm i).
  - exists (js "a **Disclaimer:** b"), 0%nat, (js "a "). by vm_compute.
Qed.

Section CleanText.

(** Lines 220-227 leave clean lines as they are. *)
Lemma cleanWhitespace_clean ls :
  Forall trimmed_line ls ->
  double_space (join_lines ls) = false ->
  test re_disclaimer (join_lines ls) = false ->
  cleanWhitespace (join_lines ls) = join_lines ls.
Proof.
  intros Hls Hd Hm. destruct ls as [|l ls]; [done|].
  assert (Forall (fun l => solid l = true /\ no_lf l = true) (l :: ls)) as Hsolid.
  { eapply Forall_impl; [exact Hls|]. intros x Hx. by apply trimmed_line_solid. }
  unfold cleanWhitespace.
  rewrite collapseSpaces_id, collapseNewlines_id, trimLines_join_id
    by (done || by apply lf_tight_join).
  assert (separateDisclaimer (join_lines (l :: ls)) = join_lines (l :: ls)) as ->
    by (by apply replace_no_match).
  apply trim_id.
  - inversion Hls as [|? ? (Hl & Hlead & _) _]; subst.
    destruct l as [|c l]; [done|]. by rewrite join_cons_char.
  - apply join_trailing. eapply Forall_impl; [exact Hls|]. by intros x (? & _ & ? & _).
Qed.

Lemma join_not_empty l ls : trimmed_line l -> join_lines (l :: ls) <> [].
Proof.
  intros (Hl & _). pose proof (join_nonempty l ls Hl). by destruct (join_lines (l :: ls)).
Qed.

End CleanText.

(** X21.  Clean text passes unchanged: a text without [<] that is made of
    lines that are not empty and have no white space at either end, with no
    two spaces in a row and without the marker, and that the decoder leaves
    as it is, is returned as it is. *)
Theorem clean_text_is_kept (decode : jsstring -> jsstring) (ls : list jsstring) :
  ls <> [] ->
  Forall trimmed_line ls ->
  double_space (join_lines ls) = false ->
  free_of 60 (join_lines ls) = true ->
  test re_disclaimer (join_lines ls) = false ->
  decode (join_lines ls) = join_lines ls ->
  stripHtmlTags decode (join_lines ls) = join_lines ls.
Proof.
  intros Hne Hls Hd Hlt Hm Hdec.
  destruct ls as [|l ls]; [done|].
  rewrite stripHtmlTags_nonempty, convertMarkup_plain, Hdec
    by (done || (apply join_not_empty; by inversion Hls)).
  by apply cleanWhitespace_clean.
Qed.

Lemma clean_text_is_kept_witness :
  stripHtmlTags decodeBasic (join_lines [js "x = 2"; js "y = 3"]) =
  join_lines [js "x = 2"; js "y = 3"].
Proof.
  apply (clean_text_is_kept decodeBasic [js "x = 2"; js "y = 3"]);
    [discriminate|repeat constructor|reflexivity..].
Defined.

Section Blocks.

Lemma patterns_are_blocks :
  re_nodes re_script = block_pattern script_open script_close /\
  re_nodes re_style = block_pattern style_open style_close /\
  re_nodes re_p = tag_pattern (map Chr (js "p")) /\
  re_nodes re_div = tag_pattern (map Chr (js "div")).
Proof. repeat split; reflexivity. Qed.

Lemma not_gt_run attrs :
  free_of 62 attrs = true -> forallb (accepts true (NotChr 62)) attrs = true.
Proof.
  induction attrs as [|c attrs IH]; [done|]. cbn [free_of forallb].
  intros H. apply andb_true_iff in H as [H1 H2]. by rewrite accepts_not_gt, H1, IH.
Qed.

(** The rest of a tag behind its name: [[^>]*>]. *)
Lemma exec_tag_end attrs rest g :
  free_of 62 attrs = true ->
  exec true [Rep Star (NotChr 62); One (Chr 62)] (attrs ++ 62 :: rest) g = Some (rest, g).
Proof.
  intros H. cbn [exec]. apply greedy_all; [by apply not_gt_run|done|done].
Qed.

Variables opening closing : list atom.
Variables (a2 : atom) (atoms2 : list atom).
Hypothesis closing_shape : closing = a2 :: atoms2.
Hypothesis closing_tail : forallb (fun a => negb (accepts true a 60)) atoms2 = true.

(** The match of a block whose closing tag is the first one after the
    opening tag, and on the same line. *)
Lemma exec_block tag attrs body t rest :
  eat true opening tag = Some [] ->
  free_of 62 attrs = true ->
  one_line body = true ->
  contains closing body = false ->
  eat true closing (60 :: t) = Some [] ->
  exec true (block_pattern opening closing)
    (tag ++ attrs ++ 62 :: body ++ (60 :: t) ++ rest) no_slots = Some (rest, no_slots).
Proof.
  intros Htag Hattrs Hline Hin Hclose.
  unfold block_pattern. rewrite exec_ones, (eat_app _ _ _ _ Htag).
  cbn [app exec].
  apply greedy_all; [by apply not_gt_run|done|].
  cbn [exec accepts canonicalize toUpper]. change (62 =? 62) with true. cbv iota.
  apply lazy_first.
  - exact Hline.
  - intros v x u ->. rewrite exec_run.
    change ((x :: u ++ (60 :: t) ++ rest)) with (x :: u ++ 60 :: (t ++ rest)).
    rewrite closing_shape in *.
    by rewrite (eat_not_across _ _ v x u (t ++ rest) closing_tail Hin).
  - rewrite exec_run.
    pose proof (eat_app _ _ (60 :: t) rest Hclose) as E. cbn [app] in E.
    by rewrite E.
Qed.

End Blocks.

Section Scans.

Variable ic : bool.
Variable p : list node.
Variable tpl : list piece.

(** A pattern that starts with [<] copies the text in front of the first
    [<]. *)
Lemma replace_before_lt pre s :
  free_of 60 pre = true ->
  replaceFrom ic (One (Chr 60) :: p) tpl 0 (pre ++ s) =
  pre ++ replaceFrom ic (One (Chr 60) :: p) tpl 0 s.
Proof.
  induction pre as [|c pre IH]; intros H; [done|].
  cbn [free_of forallb] in H. apply andb_true_iff in H as [H1 H2].
  cbn [app]. rewrite replaceFrom_no_match; [by rewrite IH|].
  cbn [exec accepts]. apply negb_true_iff in H1.
  destruct ic; cbn [canonicalize];
    [change (toUpper 60) with 60; rewrite toUpper_symbol by done|]; by rewrite H1.
Qed.

(** A [<] at which the pattern does not match, in a text with no other
    [<], is left where it is. *)
Lemma replace_lone_lt pre s :
  free_of 60 pre = true -> free_of 60 s = true ->
  exec ic (One (Chr 60) :: p) (60 :: s) no_slots = None ->
  replaceFrom ic (One (Chr 60) :: p) tpl 0 (pre ++ 60 :: s) = pre ++ 60 :: s.
Proof.
  intros Hpre Hs E. rewrite replace_before_lt by done.
  by rewrite replaceFrom_no_match, replace_needs_lt.
Qed.

(** A match at the only [<] of a text. *)
Lemma replace_at_lt pre tag rest g :
  free_of 60 pre = true -> free_of 60 rest = true ->
  exec ic (One (Chr 60) :: p) (60 :: tag ++ rest) no_slots = Some (rest, g) ->
  replaceFrom ic (One (Chr 60) :: p) tpl 0 (pre ++ 60 :: tag ++ rest) =
  pre ++ expand tpl g ++ rest.
Proof.
  intros Hpre Hs E. rewrite replace_before_lt by done.
  by rewrite (replaceFrom_match _ _ _ _ _ _ _ E), replace_needs_lt.
Qed.

End Scans.

(** X22.  A script or style block that is written on one line is taken out
    whole, tags and body: the opening tag in any case and with any
    attributes, a body without line terminator, the closing tag the first
    one after the opening tag.  Nothing is put in its place. *)
Theorem one_line_blocks_are_removed (pre tag attrs body t rest : jsstring) :
  free_of 62 attrs = true ->
  one_line body = true ->
  (contains script_open pre = false ->
   eat true script_open (60 :: tag) = Some [] ->
   contains script_close body = false ->
   eat true script_close (60 :: t) = Some [] ->
   removeScripts (pre ++ (60 :: tag) ++ attrs ++ 62 :: body ++ (60 :: t) ++ rest) =
   pre ++ removeScripts rest) /\
  (contains style_open pre = false ->
   eat true style_open (60 :: tag) = Some [] ->
   contains style_close body = false ->
   eat true style_close (60 :: t) = Some [] ->
   removeStyles (pre ++ (60 :: tag) ++ attrs ++ 62 :: body ++ (60 :: t) ++ rest) =
   pre ++ removeStyles rest).
Proof.
  intros Hattrs Hline.
  assert (forall opening closing a1 atoms1 a2 atoms2,
    opening = Chr 60 :: a1 :: atoms1 -> closing = a2 :: atoms2 ->
    forallb (fun a => negb (accepts true a 60)) (a1 :: atoms1) = true ->
    forallb (fun a => negb (accepts true a 60)) atoms2 = true ->
    contains opening pre = false ->
    eat true opening (60 :: tag) = Some [] ->
    contains closing body = false ->
    eat true closing (60 :: t) = Some [] ->
    replaceFrom true (block_pattern opening closing) [] 0
      (pre ++ (60 :: tag) ++ attrs ++ 62 :: body ++ (60 :: t) ++ rest) =
    pre ++ replaceFrom true (block_pattern opening closing) [] 0 rest) as H.
  { intros opening closing a1 atoms1 a2 atoms2 Ho Hc Hto Htc Hpre Htag Hin Hclose.
    assert (forall u s, contains opening u = false ->
      replaceFrom true (block_pattern opening closing) [] 0 (u ++ 60 :: s) =
      u ++ replaceFrom true (block_pattern opening closing) [] 0 (60 :: s)) as Hbefore.
    { induction u as [|c u IH]; intros s Hu; [done|].
      cbn [app]. rewrite replaceFrom_no_match.
      - f_equal. apply IH. by apply (test_nodes_suffix _ _ [c]) in Hu.
      - unfold block_pattern. rewrite exec_ones. rewrite Ho in *.
        by rewrite (eat_not_across _ _ [] c u s Hto Hu). }
    cbn [app]. rewrite Hbefore by done. f_equal.
    pose proof (exec_block opening closing a2 atoms2 Hc Htc (60 :: tag) attrs body t rest
                  Htag Hattrs Hline Hin Hclose) as E.
    cbn [app] in E.
    replace (tag ++ attrs ++ 62 :: body ++ 60 :: t ++ rest)
      with ((tag ++ attrs ++ 62 :: body ++ 60 :: t) ++ rest) in *
      by (rewrite <- !app_assoc; cbn [app]; rewrite <- !app_assoc; reflexivity).
    by rewrite (replaceFrom_match _ _ _ _ _ _ _ E). }
  split; intros Hpre Htag Hin Hclose.
  - exact (H script_open script_close _ _ _ _ eq_refl eq_refl eq_refl eq_refl
             Hpre Htag Hin Hclose).
  - exact (H style_open style_close _ _ _ _ eq_refl eq_refl eq_refl eq_refl
             Hpre Htag Hin Hclose).
Qed.

Lemma one_line_blocks_are_removed_witness :
  removeScripts (js "a" ++ js "<SCRIPT" ++ js " defer" ++ 62 :: js "alert(1)"
                 ++ js "</script>" ++ js "b") = js "a" ++ removeScripts (js "b").
Proof.
  exact (proj1 (one_line_blocks_are_removed (js "a") (js "SCRIPT") (js " defer")
    (js "alert(1)") (js "/script>") (js "b") eq_refl eq_refl)
    eq_refl eq_refl eq_refl eq_refl).
Defined.

Section LineTags.

Lemma exec_tag_pattern name_atoms slash name attrs rest :
  slash = [] \/ slash = [47] ->
  eat true name_atoms name = Some [] ->
  match name with x :: _ => negb (x =? 47) | [] => false end = true ->
  free_of 62 attrs = true ->
  exec true (tag_pattern name_atoms) (60 :: slash ++ name ++ attrs ++ 62 :: rest) no_slots =
  Some (rest, no_slots).
Proof.
  intros Hslash Hname Hx Hattrs.
  assert (exec true (map One name_atoms ++ [Rep Star (NotChr 62); One (Chr 62)])
            (name ++ attrs ++ 62 :: rest) no_slots = Some (rest, no_slots)) as Hk.
  { rewrite exec_ones, (eat_app _ _ _ _ Hname). by apply exec_tag_end. }
  unfold tag_pattern. cbn [app exec]. change (accepts true (Chr 60) 60) with true. cbv iota.
  destruct Hslash as [-> | ->].
  - destruct name as [|x name']; [done|]. cbn [app opt].
    assert (accepts true (Chr 47) x = false) as ->; [|exact Hk].
    cbn [accepts canonicalize]. change (toUpper 47) with 47.
    rewrite toUpper_symbol by done. by apply negb_true_iff.
  - cbn [app opt]. change (accepts true (Chr 47) 47) with true. cbv iota.
    cbn [app] in Hk. by rewrite Hk.
Qed.

Lemma name_not_slash a atoms name :
  accepts true a 47 = false -> eat true (a :: atoms) name = Some [] ->
  match name with x :: _ => negb (x =? 47) | [] => false end = true.
Proof.
  intros Ha H. destruct name as [|x name']; [done|]. cbn [eat] in H.
  destruct (x =? 47) eqn:E; [|done]. apply N.eqb_eq in E as ->. by rewrite Ha in H.
Qed.

Lemma replace_tag name_atoms a atoms pre slash name attrs rest :
  name_atoms = a :: atoms -> accepts true a 47 = false ->
  free_of 60 pre = true -> slash = [] \/ slash = [47] ->
  eat true name_atoms name = Some [] -> free_of 62 attrs = true ->
  replaceFrom true (tag_pattern name_atoms) [Text [LF]] 0
    (pre ++ 60 :: slash ++ name ++ attrs ++ 62 :: rest) =
  pre ++ LF :: replaceFrom true (tag_pattern name_atoms) [Text [LF]] 0 rest.
Proof.
  intros Hn Ha Hpre Hslash Hname Hattrs.
  assert (exec true (tag_pattern name_atoms)
            (60 :: (slash ++ name ++ attrs ++ [62]) ++ rest) no_slots =
          Some (rest, no_slots)) as E.
  { rewrite <- !app_assoc. cbn [app]. apply exec_tag_pattern; try done.
    rewrite Hn in Hname. by apply (name_not_slash a atoms). }
  replace (slash ++ name ++ attrs ++ 62 :: rest)
    with ((slash ++ name ++ attrs ++ [62]) ++ rest)
    by (by rewrite <- !app_assoc).
  change (tag_pattern name_atoms)
    with (One (Chr 60) :: Rep Opt (Chr 47) :: map One name_atoms
          ++ [Rep Star (NotChr 62); One (Chr 62)]) in *.
  rewrite replace_before_lt by done. f_equal.
  by rewrite (replaceFrom_match _ _ _ _ _ _ _ E).
Qed.

End LineTags.

(** X23.  Lines 201-202 turn every tag whose name starts with [p], and every
    tag whose name starts with [div], into one line feed: opening or
    closing, in any case, with any attributes -- [<pre>] and [<param>]
    count as paragraphs. *)
Theorem block_tags_become_line_feeds (pre slash name attrs rest : jsstring) :
  free_of 60 pre = true ->
  slash = [] \/ slash = [47] ->
  free_of 62 attrs = true ->
  (eat true (map Chr (js "p")) name = Some [] ->
   convertParagraphs (pre ++ 60 :: slash ++ name ++ attrs ++ 62 :: rest) =
   pre ++ LF :: convertParagraphs rest) /\
  (eat true (map Chr (js "div")) name = Some [] ->
   convertDivs (pre ++ 60 :: slash ++ name ++ attrs ++ 62 :: rest) =
   pre ++ LF :: convertDivs rest).
Proof.
  intros Hpre Hslash Hattrs. split; intros Hname.
  - by apply (replace_tag (map Chr (js "p")) (Chr 112) []).
  - by apply (replace_tag (map Chr (js "div")) (Chr 100) (map Chr (js "iv"))).
Qed.

Lemma block_tags_become_line_feeds_witness :
  convertParagraphs (js "a" ++ 60 :: [] ++ js "P" ++ js "RE class=x" ++ 62 :: js "b") =
  js "a" ++ LF :: convertParagraphs (js "b").
Proof.
  exact (proj1 (block_tags_become_line_feeds (js "a") [] (js "P") (js "RE class=x") (js "b")
    eq_refl (or_introl eq_refl) eq_refl) eq_refl).
Defined.

Section Breaks.






End Breaks.



Section OneTag.

Variable re : regex.
Variable tpl : list piece.
Variable p : list node.
Hypothesis starts_lt : re_nodes re = One (Chr 60) :: p.

Lemma replace_plain s : free_of 60 s = true -> replace re tpl s = s.
Proof. intros H. unfold replace. rewrite starts_lt. by apply replace_needs_lt. Qed.

Lemma replace_lone pre s :
  exec (re_ignoreCase re) (re_nodes re) (60 :: s) no_slots = None ->
  free_of 60 pre = true -> free_of 60 s = true ->
  replace re tpl (pre ++ 60 :: s) = pre ++ 60 :: s.
Proof.
  intros E Hpre Hs. unfold replace. rewrite starts_lt in *. by apply replace_lone_lt.
Qed.

Lemma replace_at pre s rest g :
  exec (re_ignoreCase re) (re_nodes re) (60 :: s) no_slots = Some (rest, g) ->
  free_of 60 pre = true -> free_of 60 rest = true ->
  replace re tpl (pre ++ 60 :: s) = pre ++ expand tpl g ++ rest.
Proof.
  intros E Hpre Hs. unfold replace. rewrite starts_lt in *.
  destruct (productive_one _ _ _ _ _ _ _ E) as (c & tag & Hc). injection Hc as _ ->.
  by apply replace_at_lt.
Qed.

End OneTag.

Ltac tag_step re :=
  first
    [ rewrite (replace_plain re _ _ eq_refl) by assumption
    | erewrite (replace_at re _ _ eq_refl) by (first [reflexivity | assumption]);
      cbn [expand map concat app]
    | rewrite (replace_lone re _ _ eq_refl) by (first [reflexivity | assumption]) ].

(** X25.  A paragraph, div or line-break tag between two clean lines comes out
    as the line feed between them: for each tag of [line_tags], the text
    [l1 tag l2] is returned as the two lines [l1] and [l2]. *)
Theorem line_tags_separate_lines (decode : jsstring -> jsstring) (tag l1 l2 : jsstring) :
  In tag line_tags ->
  Forall trimmed_line [l1; l2] ->
  double_space (join_lines [l1; l2]) = false ->
  free_of 60 (join_lines [l1; l2]) = true ->
  test re_disclaimer (join_lines [l1; l2]) = false ->
  decode (join_lines [l1; l2]) = join_lines [l1; l2] ->
  stripHtmlTags decode (l1 ++ tag ++ l2) = join_lines [l1; l2].
Proof.
  intros Hin Hls Hd Hlt Hm Hdec.
  assert (free_of 60 l1 = true /\ free_of 60 l2 = true) as [H1 H2].
  { unfold free_of in *. cbn [join_lines] in Hlt. rewrite forallb_app in Hlt.
    apply andb_true_iff in Hlt as [? Hlt]. cbn [forallb] in Hlt.
    by apply andb_true_iff in Hlt as [_ ?]. }
  assert (free_of 60 (l1 ++ LF :: l2) = true) as H3 by exact Hlt.
  assert (l1 ++ tag ++ l2 <> []) as Hn.
  { inversion Hls as [|? ? (Hl & _) _]; subst. by destruct l1. }
  rewrite stripHtmlTags_nonempty by done.
  assert (convertMarkup (l1 ++ tag ++ l2) = join_lines [l1; l2]) as ->;
    [|rewrite Hdec; by apply cleanWhitespace_clean].
  clear Hn Hdec Hm Hd Hls Hlt.
  unfold convertMarkup, removeScripts, removeStyles, convertHeadings, convertParagraphs,
    convertDivs, convertBreaks, convertStrong, convertB, removeTags.
  unfold line_tags in Hin. cbn [In] in Hin.
  repeat (destruct Hin as [<-|Hin]; [
    match goal with
    | |- context [js ?t ++ l2] =>
        let v := eval vm_compute in (js t) in change (js t ++ l2) with (v ++ l2)
    end; cbn [app];
    tag_step re_script; tag_step re_style; tag_step re_heading; tag_step re_p;
    tag_step re_div; tag_step re_br; tag_step re_strong; tag_step re_b; tag_step re_tag;
    reflexivity |]).
  destruct Hin.
Qed.

Lemma line_tags_separate_lines_witness :
  stripHtmlTags decodeBasic (js "x = 2" ++ js "<br />" ++ js "y = 3") =
  join_lines [js "x = 2"; js "y = 3"].
Proof.
  apply (line_tags_separate_lines decodeBasic (js "<br />") (js "x = 2") (js "y = 3"));
    [do 6 right; by left|repeat constructor|reflexivity..].
Defined.
